(** * ed-forge: the [Module] and [Ship] entities over a JavaScript object store

    The two classes of the library wrap loosely typed build records and mutate
    them in place.  The embedding keeps that shape: JavaScript values are
    primitives or references into a store of objects and arrays, every method
    is a state-passing function over the store that may raise, and the
    functions imported from other files ([./validation], [./compression],
    [./data], ...) are the fields of the class [Imports]. *)

From Stdlib Require Import ZArith Lia.
From stdpp Require Import base list strings.

Set Warnings "-register-all".

Open Scope string_scope.
Open Scope list_scope.

(** ** Values and the object store *)

Abbreviation loc := nat (only parsing).

(** A JavaScript value.  Numbers are never computed with by the code below,
    they are carried as integers. *)
Inductive val :=
| VUndef
| VNull
| VBool (b : bool)
| VNum (n : Z)
| VStr (s : string)
| VRef (l : loc).

(** The prototype of an object: a plain record, or an instance of one of the
    two classes. *)
Inductive cls := Plain | ClsModule | ClsShip.

Abbreviation props := (list (string * val)) (only parsing).

(** A store cell: an object with its own properties in insertion order, or an
    array. *)
Inductive cell :=
| Obj (k : cls) (ps : props)
| Arr (vs : list val).

Abbreviation heap := (list cell) (only parsing).

(** The structure of a value, as a validator or a serializer sees it. *)
Inductive tree :=
| TUndef
| TNull
| TBool (b : bool)
| TNum (n : Z)
| TStr (s : string)
| TArr (ts : list tree)
| TObj (k : cls) (fs : list (string * tree)).

Inductive error :=
  TypeError | ReferenceError | IllegalStateError | ImportExportError.

(** Outcome of a call: a value, a raised error, recursion deeper than the
    fuel given, or [Stuck] for a store that no program can build (a dangling
    reference) and for the few JavaScript behaviours left out of the model. *)
Inductive result (A : Type) :=
| Ok (a : A)
| Throw (e : error)
| OutOfFuel
| Stuck.
Arguments Ok {A} a.
Arguments Throw {A} e.
Arguments OutOfFuel {A}.
Arguments Stuck {A}.

(** A regular expression is represented by its matches: [r s] says whether
    [s.match(r)] is non-null. *)
Definition RegExp := string -> bool.

(** A slot descriptor: [(string|RegExp)] or an array of descriptors. *)
Inductive slot :=
| SStr (s : string)
| SRegExp (r : RegExp)
| SArr (ss : list slot).

(** ** The store monad *)

Definition M (A : Type) := heap -> result A * heap.

Definition ret {A} (a : A) : M A := fun h => (Ok a, h).
Definition throw {A} (e : error) : M A := fun h => (Throw e, h).
Definition out_of_fuel {A} : M A := fun h => (OutOfFuel, h).
Definition stuck {A} : M A := fun h => (Stuck, h).

Definition bind {A B} (m : M A) (f : A -> M B) : M B :=
  fun h =>
    match m h with
    | (Ok a, h') => f a h'
    | (Throw e, h') => (Throw e, h')
    | (OutOfFuel, h') => (OutOfFuel, h')
    | (Stuck, h') => (Stuck, h')
    end.

Notation "x <- c1 ;; c2" := (bind c1 (fun x => c2))
  (at level 100, c1 at next level, right associativity).
Notation "c1 ;;; c2" := (bind c1 (fun _ => c2))
  (at level 100, right associativity).

Definition mapM {A B} (f : A -> M B) : list A -> M (list B) :=
  fix go (l : list A) : M (list B) :=
    match l with
    | [] => ret []
    | a :: l' => b <- f a ;; bs <- go l' ;; ret (b :: bs)
    end.

Fixpoint filterM {A} (f : A -> M bool) (l : list A) : M (list A) :=
  match l with
  | [] => ret []
  | a :: l' => b <- f a ;; r <- filterM f l' ;; ret (if b then a :: r else r)
  end.

(** The same for computations that only read the store. *)
Definition rbind {A B} (r : result A) (f : A -> result B) : result B :=
  match r with
  | Ok a => f a
  | Throw e => Throw e
  | OutOfFuel => OutOfFuel
  | Stuck => Stuck
  end.

Definition mapR {A B} (f : A -> result B) : list A -> result (list B) :=
  fix go (l : list A) : result (list B) :=
    match l with
    | [] => Ok []
    | a :: l' => rbind (f a) (fun b => rbind (go l') (fun bs => Ok (b :: bs)))
    end.

(** ** JavaScript primitives *)

Definition truthy (v : val) : bool :=
  match v with
  | VUndef | VNull => false
  | VBool b => b
  | VNum n => negb (n =? 0)%Z
  | VStr s => negb (String.eqb s "")
  | VRef _ => true
  end.

(** [a === b] *)
Definition strict_eq (a b : val) : bool :=
  match a, b with
  | VUndef, VUndef | VNull, VNull => true
  | VBool x, VBool y => Bool.eqb x y
  | VNum x, VNum y => (x =? y)%Z
  | VStr x, VStr y => String.eqb x y
  | VRef x, VRef y => Nat.eqb x y
  | _, _ => false
  end.

Fixpoint assoc {A} (k : string) (ps : list (string * A)) : option A :=
  match ps with
  | [] => None
  | (k', v) :: ps' => if String.eqb k k' then Some v else assoc k ps'
  end.

(** Assignment to a property keeps the position of an existing key and puts a
    new key last. *)
Fixpoint set_assoc (k : string) (v : val) (ps : props) : props :=
  match ps with
  | [] => [(k, v)]
  | (k', v') :: ps' =>
      if String.eqb k k' then (k, v) :: ps' else (k', v') :: set_assoc k v ps'
  end.

Definition alloc (c : cell) : M val :=
  fun h => (Ok (VRef (length h)), h ++ [c]).

(** [o.k] for one of the property names the code reads; none of them is a
    built-in property of a primitive or of an array. *)
Definition get_prop (o : val) (k : string) : M val :=
  fun h =>
    match o with
    | VUndef | VNull => (Throw TypeError, h)
    | VBool _ | VNum _ | VStr _ => (Ok VUndef, h)
    | VRef l =>
        match h !! l with
        | Some (Obj _ ps) => (Ok (default VUndef (assoc k ps)), h)
        | Some (Arr _) => (Ok VUndef, h)
        | None => (Stuck, h)
        end
    end.

(** [o.k = v] in strict mode (both files are ES modules).  A named property
    written on an array is outside the model. *)
Definition set_prop (o : val) (k : string) (v : val) : M unit :=
  fun h =>
    match o with
    | VRef l =>
        match h !! l with
        | Some (Obj c ps) => (Ok tt, <[l := Obj c (set_assoc k v ps)]> h)
        | Some (Arr _) => (Stuck, h)
        | None => (Stuck, h)
        end
    | _ => (Throw TypeError, h)
    end.

(** The elements of [a] when a method of [Array.prototype] is called on it;
    on anything else the method is missing and the call raises. *)
Definition array_elems (a : val) : M (list val) :=
  fun h =>
    match a with
    | VRef l =>
        match h !! l with
        | Some (Arr vs) => (Ok vs, h)
        | Some (Obj _ _) => (Throw TypeError, h)
        | None => (Stuck, h)
        end
    | _ => (Throw TypeError, h)
    end.

Fixpoint findM (f : val -> M bool) (l : list val) : M val :=
  match l with
  | [] => ret VUndef
  | a :: l' => b <- f a ;; if b then ret a else findM f l'
  end.

(** [a.find(f)]: the first element satisfying [f], or [undefined]. *)
Definition array_find (a : val) (f : val -> M bool) : M val :=
  vs <- array_elems a ;; findM f vs.

(** [a.push(v)] *)
Definition array_push (a : val) (v : val) : M unit :=
  fun h =>
    match a with
    | VRef l =>
        match h !! l with
        | Some (Arr vs) => (Ok tt, <[l := Arr (vs ++ [v])]> h)
        | Some (Obj _ _) => (Throw TypeError, h)
        | None => (Stuck, h)
        end
    | _ => (Throw TypeError, h)
    end.

(** [String(v)] of a property key.  An object that defines no [toString] of
    its own, as every object here, gives ["[object Object]"]; a key that is an
    array is outside the model. *)
Definition object_Object : string := "[object Object]".

(** [o[key]] with a computed key.  An array answers to an index; it has no
    property named ["[object Object]"], the key an object is converted to. *)
Definition get_computed (o key : val) : M val :=
  fun h =>
    match o with
    | VUndef | VNull => (Throw TypeError, h)
    | VBool _ | VNum _ | VStr _ => (Ok VUndef, h)
    | VRef l =>
        match h !! l with
        | None => (Stuck, h)
        | Some (Arr vs) =>
            match key with
            | VNum n =>
                (Ok (if (n <? 0)%Z then VUndef
                     else default VUndef (vs !! Z.to_nat n)), h)
            | VRef l' =>
                match h !! l' with
                | Some (Obj _ _) => (Ok VUndef, h)
                | _ => (Stuck, h)
                end
            | _ => (Stuck, h)
            end
        | Some (Obj _ ps) =>
            match key with
            | VStr s => (Ok (default VUndef (assoc s ps)), h)
            | VRef l' =>
                match h !! l' with
                | Some (Obj _ _) => (Ok (default VUndef (assoc object_Object ps)), h)
                | _ => (Stuck, h)
                end
            | _ => (Stuck, h)
            end
        end
    end.

(** [s.match(r)] as a truth value; only a string has the method. *)
Definition str_match (s : val) (r : RegExp) : M bool :=
  match s with
  | VStr x => ret (r x)
  | _ => throw TypeError
  end.

(** [v instanceof C] *)
Definition instance_of (v : val) (c : cls) : M bool :=
  fun h =>
    match v with
    | VRef l =>
        match h !! l with
        | Some (Obj k _) =>
            (Ok match k, c with
                | ClsModule, ClsModule | ClsShip, ClsShip => true
                | _, _ => false
                end, h)
        | Some (Arr _) => (Ok false, h)
        | None => (Stuck, h)
        end
    | _ => (Ok false, h)
    end.

Definition load (l : loc) : M cell :=
  fun h =>
    match h !! l with
    | Some c => (Ok c, h)
    | None => (Stuck, h)
    end.

(** The values a cell holds, a cell with these values replaced, and the tree
    of a cell given the trees of its values. *)
Definition cell_values (c : cell) : list val :=
  match c with
  | Obj _ ps => ps.*2
  | Arr vs => vs
  end.

Definition cell_with (c : cell) (vs : list val) : cell :=
  match c with
  | Obj k ps => Obj k (zip ps.*1 vs)
  | Arr _ => Arr vs
  end.

Definition tree_of (c : cell) (ts : list tree) : tree :=
  match c with
  | Obj k ps => TObj k (zip ps.*1 ts)
  | Arr _ => TArr ts
  end.

(** ** Structure of a stored value *)

(** The tree a value unfolds to, read off the store down to depth [fuel]. *)
Fixpoint reify (fuel : nat) (h : heap) (v : val) : result tree :=
  match v with
  | VUndef => Ok TUndef
  | VNull => Ok TNull
  | VBool b => Ok (TBool b)
  | VNum n => Ok (TNum n)
  | VStr s => Ok (TStr s)
  | VRef l =>
      match fuel with
      | 0 => OutOfFuel
      | S f =>
          match h !! l with
          | None => Stuck
          | Some c =>
              rbind (mapR (reify f h) (cell_values c))
                    (fun ts => Ok (tree_of c ts))
          end
      end
  end.

(** What a function that only inspects [v] is given. *)
Definition snapshot (fuel : nat) (v : val) : M tree :=
  fun h => (reify fuel h v, h).

(** Materialise a tree as fresh objects: an object literal, or the result of
    a decoder. *)
Fixpoint build (t : tree) : M val :=
  match t with
  | TUndef => ret VUndef
  | TNull => ret VNull
  | TBool b => ret (VBool b)
  | TNum n => ret (VNum n)
  | TStr s => ret (VStr s)
  | TArr ts => vs <- mapM build ts ;; alloc (Arr vs)
  | TObj k fs =>
      ps <- mapM (fun f : string * tree =>
                    let (key, t') := f in v <- build t' ;; ret (key, v)) fs ;;
      alloc (Obj k ps)
  end.

(** ** lodash *)

(** [cloneDeep(v)]: a recursive copy; an object keeps its prototype.  The
    copy of a cell is allocated once its contents are copied.  lodash keeps a
    table of the objects met so that a shared or cyclic part is copied once;
    the records cloned here are trees and the table is left out, so a cyclic
    value exhausts any fuel. *)
Fixpoint cloneDeep (fuel : nat) (v : val) : M val :=
  match v with
  | VRef l =>
      match fuel with
      | 0 => out_of_fuel
      | S f =>
          c <- load l ;;
          vs <- mapM (cloneDeep f) (cell_values c) ;;
          alloc (cell_with c vs)
      end
  | _ => ret v
  end.

(** [clone(v)]: a copy one level deep. *)
Definition clone (v : val) : M val :=
  match v with
  | VRef l => c <- load l ;; alloc c
  | _ => ret v
  end.

(** The values a lodash collection function iterates over. *)
Definition collection_values (c : val) : M (list val) :=
  fun h =>
    match c with
    | VRef l =>
        match h !! l with
        | Some c => (Ok (cell_values c), h)
        | None => (Stuck, h)
        end
    | VStr s =>
        (Ok ((fun a => VStr (String a EmptyString)) <$> String.list_ascii_of_string s), h)
    | _ => (Ok [], h)
    end.

(** [map(c, f)]: always a new array. *)
Definition lodash_map (c : val) (f : val -> M val) : M val :=
  vs <- collection_values c ;;
  rs <- mapM f vs ;;
  alloc (Arr rs).

(** The named properties of [o] itself; a primitive and an array have
    none. *)
Definition own_props (o : val) : M props :=
  fun h =>
    match o with
    | VRef l =>
        match h !! l with
        | Some (Obj _ ps) => (Ok ps, h)
        | Some (Arr _) => (Ok [], h)
        | None => (Stuck, h)
        end
    | _ => (Ok [], h)
    end.

(** [pick(o, keys)]: a new object with the listed properties that [o] has. *)
Definition pick (o : val) (keys : list string) : M val :=
  ps <- own_props o ;;
  alloc (Obj Plain
           (omap (fun k => match assoc k ps with
                           | Some v => Some (k, v)
                           | None => None
                           end) keys)).

(** [assign(target, source)] for a source made by [pick].  A target that is
    not an object is wrapped in a temporary object, and nothing is kept. *)
Definition assign (target source : val) : M unit :=
  ps <- own_props source ;;
  match target with
  | VRef _ =>
      _ <- mapM (fun p : string * val => set_prop target p.1 p.2) ps ;;
      ret tt
  | _ => ret tt
  end.

(** The test [value > other] of lodash's [compareAscending], after both
    operands are converted to primitives.  An object converts to
    ["[object Object]"]; a comparison of a string with a number is outside the
    model. *)
Definition to_primitive (h : heap) (v : val) : result val :=
  match v with
  | VRef l =>
      match h !! l with
      | Some (Obj _ _) => Ok (VStr object_Object)
      | _ => Stuck
      end
  | _ => Ok v
  end.

Definition js_gt (h : heap) (a b : val) : result bool :=
  rbind (to_primitive h a) (fun x =>
  rbind (to_primitive h b) (fun y =>
    match x, y with
    | VStr s, VStr t => Ok (String.ltb t s)
    | VNum n, VNum m => Ok (m <? n)%Z
    | _, _ => Stuck
    end)).

(** A stable sort: an element is moved behind the ones it is greater than. *)
Fixpoint insert_by {A} (gt : A -> A -> result bool) (x : A) (l : list A)
  : result (list A) :=
  match l with
  | [] => Ok [x]
  | y :: l' =>
      rbind (gt x y) (fun b =>
        if b then rbind (insert_by gt x l') (fun r => Ok (y :: r))
        else Ok (x :: l))
  end.

Fixpoint sort_by {A} (gt : A -> A -> result bool) (l : list A)
  : result (list A) :=
  match l with
  | [] => Ok []
  | x :: l' => rbind (sort_by gt l') (insert_by gt x)
  end.

(** [sortBy(l)] with no iteratee: lodash sorts by the elements themselves. *)
Definition sortBy_identity (l : list val) : M (list val) :=
  fun h => (sort_by (js_gt h) l, h).

(** [sortBy(l, f)] for an iteratee [f] that reads a key off each element. *)
Definition sortBy (l : list val) (f : val -> M val) : M (list val) :=
  keyed <- mapM (fun x => k <- f x ;; ret (k, x)) l ;;
  fun h =>
    (rbind (sort_by (fun x y : val * val => js_gt h x.1 y.1) keyed)
           (fun r => Ok (map snd r)), h).

(** [uniq(l)]: the first occurrence of each element is kept. *)
Fixpoint uniq_acc (seen l : list val) : list val :=
  match l with
  | [] => []
  | x :: l' =>
      if existsb (strict_eq x) seen then uniq_acc seen l'
      else x :: uniq_acc (x :: seen) l'
  end.

Definition uniq (l : list val) : list val := uniq_acc [] l.

(** ** Imported functions and constants *)

(** What the two files import from the rest of the library.  The validators
    and the decoder work on the structure of their argument; the data lookups
    are pure. *)
Class Imports := {
  (** [./validation] *)
  validateModuleJson : tree -> bool;
  validateShipJson : tree -> bool;
  moduleVarIsSpecified : string -> bool;
  shipVarIsSpecified : string -> bool;
  (** [./compression] *)
  decompress : string -> tree;
  (** [./data] and [./data/items] *)
  getModuleProperty : val -> val -> val;
  itemFitsSlot : val -> val -> val -> bool;
  (** [./data/slots] *)
  REG_HARDPOINT_SLOT : RegExp;
  REG_INTERNAL_SLOT : RegExp;
  REG_MILITARY_SLOT : RegExp;
  REG_UTILITY_SLOT : RegExp
}.

(** ** class Module *)

(** The methods the class body defines. *)
Definition Module_methods : list string :=
  ["update"; "read"; "write"; "get"; "_findModifier"; "getFormatted"; "set";
   "setBlueprint"; "setSpecial"; "toJSON"; "compress"; "isOnSlot";
   "fitsSlotOn"; "setSlot"; "setShip"; "isEmpty"; "isAssigned"; "getClass";
   "getRating"; "getSize"].

(** [this.clear()] in the constructor: a property the class does not define
    reads as [undefined], and calling it raises a [TypeError]. *)
Definition Module_call_clear (this : val) : M unit :=
  if existsb (String.eqb "clear") Module_methods then stuck
  else throw TypeError.

(** The methods the class body of [Ship] defines. *)
Definition Ship_methods : list string :=
  ["read"; "write"; "getModule"; "setModule"; "getModules"; "getCoreModules";
   "setCoreModules"; "setCoreModule"; "getAlloys"; "getPowerPlant";
   "getThrusters"; "getFSD"; "getLifeSupport"; "getPowerDistributor";
   "getSensors"; "getCoreFuelTank"; "getInternals"; "setInternal";
   "getHardpoints"; "setHardpoint"; "getUtilities"; "setUtility"; "get";
   "getShipName"; "setShipName"; "getShipID"; "setShipID"; "getFormatted";
   "getStatistics"; "toJSON"; "compress"].

(** The names every object has from [Object.prototype]. *)
Definition Object_prototype_names : list string :=
  ["__proto__"; "constructor"; "hasOwnProperty"; "isPrototypeOf";
   "propertyIsEnumerable"; "toLocaleString"; "toString"; "valueOf";
   "__defineGetter__"; "__defineSetter__"; "__lookupGetter__";
   "__lookupSetter__"].

(** A name that an object has without a property of its own in the store:
    from [Object.prototype], or a method of its class. *)
Definition inherited (k : cls) (key : string) : bool :=
  existsb (String.eqb key)
    (Object_prototype_names ++
     match k with
     | Plain => []
     | ClsModule => Module_methods
     | ClsShip => Ship_methods
     end).

(** [o[key]] for a name the caller chooses.  A property of the object's own
    is read as it is.  A name the object has otherwise reads the prototype or
    a function, values that the store does not hold; so does any name on a
    primitive or on an array. *)
Definition get_key (o : val) (key : string) : M val :=
  fun h =>
    match o with
    | VUndef | VNull => (Throw TypeError, h)
    | VBool _ | VNum _ | VStr _ => (Stuck, h)
    | VRef l =>
        match h !! l with
        | Some (Obj k ps) =>
            match assoc key ps with
            | Some v => (Ok v, h)
            | None => if inherited k key then (Stuck, h) else (Ok VUndef, h)
            end
        | Some (Arr _) => (Stuck, h)
        | None => (Stuck, h)
        end
    end.

(** [o[key] = v] for a name the caller chooses, in strict mode.  On an object
    without a property [__proto__] of its own the name [__proto__] is the
    accessor of [Object.prototype]: a value that is neither an object nor
    [null] is ignored, and an object or [null] replaces the prototype, which
    is outside the model.  Any other name is assigned as [set_prop] does. *)
Definition set_key (o : val) (key : string) (v : val) : M unit :=
  fun h =>
    match o with
    | VRef l =>
        match h !! l with
        | Some (Obj k ps) =>
            match String.eqb key "__proto__", assoc key ps with
            | true, None =>
                match v with
                | VRef _ | VNull => (Stuck, h)
                | _ => (Ok tt, h)
                end
            | _, _ => (Ok tt, <[l := Obj k (set_assoc key v ps)]> h)
            end
        | Some (Arr _) => (Stuck, h)
        | None => (Stuck, h)
        end
    | _ => (Throw TypeError, h)
    end.

(** A name that is bound nowhere: evaluating it raises a ReferenceError. *)
Definition unbound {A} : M A := throw ReferenceError.

(** [toJSON()] *)
Definition Module_toJSON (fuel : nat) (this : val) : M val :=
  o <- get_prop this "_object" ;;
  cloneDeep fuel o.

Section Classes.
Context `{Imports}.

(** [cloneModuleToJSON(module)] *)
Definition cloneModuleToJSON (fuel : nat) (module : val) : M val :=
  is_module <- instance_of module ClsModule ;;
  if (is_module : bool) then Module_toJSON fuel module
  else
    module <- match module with
              | VStr s => build (decompress s)
              | _ => ret module
              end ;;
    module <- cloneDeep fuel module ;;
    t <- snapshot fuel module ;;
    if negb (validateModuleJson t) then throw ImportExportError
    else ret module.

(** [new Module(buildFrom, ship)]; [autoBind] only binds the methods. *)
Definition Module_new (fuel : nat) (buildFrom ship : val) : M val :=
  this <- alloc (Obj ClsModule []) ;;
  set_prop this "_object" VNull ;;;
  set_prop this "_ship" VNull ;;;
  (if negb (truthy buildFrom) then Module_call_clear this
   else o <- cloneModuleToJSON fuel buildFrom ;; set_prop this "_object" o) ;;;
  (if truthy ship then set_prop this "_ship" ship else ret tt) ;;;
  ret this.

(** [update(buildFrom, keep)]; [keep] is [None] when the argument is left
    out. *)
Definition Module_update (fuel : nat) (this buildFrom : val)
    (keep : option (list string)) : M unit :=
  old <- get_prop this "_object" ;;
  o <- cloneModuleToJSON fuel buildFrom ;;
  set_prop this "_object" o ;;;
  match keep with
  | Some keys =>
      target <- get_prop this "_object" ;;
      picked <- pick old keys ;;
      assign target picked
  | None => ret tt
  end.

(** [_findModifier(property)]: the matching modifier object itself. *)
Definition Module_findModifier (this : val) (property : string) : M val :=
  o <- get_prop this "_object" ;;
  eng <- get_prop o "Engineering" ;;
  if negb (truthy eng) then ret VUndef
  else
    mods <- get_prop eng "Modifiers" ;;
    array_find mods (fun modifier =>
      label <- get_prop modifier "Label" ;;
      ret (strict_eq label (VStr property))).

(** [get(property, modified = true)]; [VUndef] stands for an argument left
    out. *)
Definition Module_get (this : val) (property : string) (modified : val)
  : M val :=
  let modified := match modified with VUndef => VBool true | _ => modified end in
  modifierIndex <- Module_findModifier this property ;;
  if truthy modified && truthy modifierIndex then
    o <- get_prop this "_object" ;;
    eng <- get_prop o "Engineering" ;;
    mods <- get_prop eng "Modifiers" ;;
    m <- get_computed mods modifierIndex ;;
    get_prop m "value"
  else
    o <- get_prop this "_object" ;;
    item <- get_prop o "Item" ;;
    ret (getModuleProperty item (VStr property)).

(** [set(property, value)] *)
Definition Module_set (this : val) (property : string) (value : val)
  : M val :=
  o <- get_prop this "_object" ;;
  eng <- get_prop o "Engineering" ;;
  if negb (truthy eng) then throw IllegalStateError
  else
    modifierIndex <- Module_findModifier this property ;;
    (if truthy modifierIndex then
       o <- get_prop this "_object" ;;
       eng <- get_prop o "Engineering" ;;
       mods <- get_prop eng "Modifiers" ;;
       m <- get_computed mods modifierIndex ;;
       set_prop m "Value" value
     else
       o <- get_prop this "_object" ;;
       eng <- get_prop o "Engineering" ;;
       mods <- get_prop eng "Modifiers" ;;
       modifier <- alloc (Obj Plain [("Label", VStr property); ("Value", value)]) ;;
       array_push mods modifier) ;;;
    ret (VBool true).

(** [isOnSlot(slot)]: [true], [false] or [null]. *)
Fixpoint Module_isOnSlot (this : val) (s : slot) : M val :=
  o <- get_prop this "_object" ;;
  cur <- get_prop o "Slot" ;;
  if truthy cur then
    match s with
    | SStr x => ret (VBool (strict_eq cur (VStr x)))
    | SRegExp r => b <- str_match cur r ;; ret (VBool b)
    | SArr ss =>
        (fix loop (l : list slot) : M val :=
           match l with
           | [] => ret (VBool false)
           | s' :: l' =>
               b <- Module_isOnSlot this s' ;;
               if truthy b then ret (VBool true) else loop l'
           end) ss
    end
  else ret VNull.

(** [setSlot(slot)] *)
Definition Module_setSlot (this : val) (slot : string) : M unit :=
  ship <- get_prop this "_ship" ;;
  if negb (truthy ship) then throw IllegalStateError
  else
    o <- get_prop this "_object" ;;
    cur <- get_prop o "Slot" ;;
    if truthy cur then throw IllegalStateError
    else
      o <- get_prop this "_object" ;;
      item <- get_prop o "Item" ;;
      fits <- (if negb (truthy item) then ret true
               else
                 o <- get_prop this "_object" ;;
                 item <- get_prop o "Item" ;;
                 ship <- get_prop this "_ship" ;;
                 so <- get_prop ship "_object" ;;
                 shipType <- get_prop so "Ship" ;;
                 ret (itemFitsSlot item shipType (VStr slot))) ;;
      if (fits : bool) then
        o <- get_prop this "_object" ;;
        set_prop o "Slot" (VStr slot)
      else ret tt.

(** [read(property)] and [write(property, value)]: the caller chooses the
    name. *)
Definition Module_read (this : val) (property : string) : M val :=
  o <- get_prop this "_object" ;;
  get_key o property.

Definition Module_write (this : val) (property : string) (value : val)
  : M unit :=
  if moduleVarIsSpecified property then throw IllegalStateError
  else
    o <- get_prop this "_object" ;;
    set_key o property value.

(** [fitsSlotOn(slot, ship)]: [null] for a module without an item. *)
Definition Module_fitsSlotOn (this : val) (slot ship : val) : M val :=
  o <- get_prop this "_object" ;;
  item <- get_prop o "Item" ;;
  if negb (truthy item) then ret VNull
  else
    is_ship <- instance_of ship ClsShip ;;
    ship <- (if (is_ship : bool) then
               so <- get_prop ship "_object" ;; get_prop so "Ship"
             else ret ship) ;;
    o <- get_prop this "_object" ;;
    item <- get_prop o "Item" ;;
    ret (VBool (itemFitsSlot item ship slot)).

(** [setShip(ship)] *)
Definition Module_setShip (this ship : val) : M unit :=
  cur <- get_prop this "_ship" ;;
  if strict_eq cur VNull then set_prop this "_ship" ship
  else throw IllegalStateError.

(** [isAssigned()] *)
Definition Module_isAssigned (this : val) : M bool :=
  o <- get_prop this "_object" ;;
  cur <- get_prop o "Slot" ;;
  ret (negb (strict_eq cur (VStr ""))).

(** [isEmpty()] *)
Definition Module_isEmpty (this : val) : M bool :=
  o <- get_prop this "_object" ;;
  item <- get_prop o "Item" ;;
  ret (strict_eq item (VStr "")).

(** A call [m.isOnSlot(..)] or [m.isEmpty()]: only an instance of [Module]
    has the method. *)
Definition Module_method (m : val) : M unit :=
  is_module <- instance_of m ClsModule ;;
  if (is_module : bool) then ret tt else throw TypeError.

(** ** class Ship *)

(** [sortModules(modules)], defined at the top of the file and called
    nowhere. *)
Definition sortModules (modules : list val) : M (list val) :=
  sortBy modules (fun m => o <- get_prop m "_object" ;; get_prop o "Slot").

Definition default_state : tree :=
  TObj Plain
    [("PowerDistributor",
      TObj Plain
        [("Sys", TObj Plain [("base", TNum 2); ("mc", TNum 0)]);
         ("Eng", TObj Plain [("base", TNum 2); ("mc", TNum 0)]);
         ("Wep", TObj Plain [("base", TNum 2); ("mc", TNum 0)])]);
     ("Cargo", TNum 0);
     ("Fuel", TNum 1)].

(** [new Ship(buildFrom)] *)
Definition Ship_new (fuel : nat) (buildFrom : val) : M val :=
  this <- alloc (Obj ClsShip []) ;;
  set_prop this "_object" VNull ;;;
  state <- build default_state ;;
  set_prop this "state" state ;;;
  buildFrom <- match buildFrom with
               | VStr s => build (decompress s)
               | _ => ret buildFrom
               end ;;
  t <- snapshot fuel buildFrom ;;
  if negb (validateShipJson t) then throw ImportExportError
  else
    o <- cloneDeep fuel buildFrom ;;
    set_prop this "_object" o ;;;
    target <- get_prop this "_object" ;;
    o <- get_prop this "_object" ;;
    raw <- get_prop o "Modules" ;;
    modules <- lodash_map raw (fun moduleObject =>
                 Module_new fuel moduleObject this) ;;
    set_prop target "Modules" modules ;;;
    ret this.

(** [read(property)] and [write(property, value)]: the caller chooses the
    name. *)
Definition Ship_read (this : val) (property : string) : M val :=
  o <- get_prop this "_object" ;;
  get_key o property.

Definition Ship_write (this : val) (property : string) (value : val)
  : M unit :=
  if shipVarIsSpecified property then throw IllegalStateError
  else
    o <- get_prop this "_object" ;;
    set_key o property value.

(** [chain(this._object.Modules).filter(m => m.isOnSlot(slot))] *)
Definition Ship_modulesOnSlot (this : val) (s : slot) : M (list val) :=
  o <- get_prop this "_object" ;;
  modules <- get_prop o "Modules" ;;
  ms <- collection_values modules ;;
  filterM (fun m => Module_method m ;;; b <- Module_isOnSlot m s ;; ret (truthy b)) ms.

(** [getModule(slot)] *)
Definition Ship_getModule (this : val) (s : slot) : M val :=
  ms <- Ship_modulesOnSlot this s ;;
  ret (hd VUndef ms).

(** [setModule(slot, module)] when [slot] is a [Module]. *)
Definition Ship_setModule_on (fuel : nat) (this target module : val) : M val :=
  Module_update fuel target module (Some ["Slot"]) ;;;
  ret (VBool true).

(** [setModule(slot, module)] when [slot] is a descriptor.  The module found
    is an instance of [Module], so the recursive call is the case above. *)
Definition Ship_setModule (fuel : nat) (this : val) (s : slot) (module : val)
  : M val :=
  old <- Ship_getModule this s ;;
  if truthy old then Ship_setModule_on fuel this old module
  else ret (VBool false).

(** [getModules(slots, type, includeEmpty, sort)]; [type] is [None] when it is
    left out. *)
Definition Ship_getModules (this : val) (slots : slot) (type : option RegExp)
    (includeEmpty sort : bool) : M val :=
  ms <- Ship_modulesOnSlot this slots ;;
  ms <- match type with
        | Some r =>
            filterM (fun m =>
              o <- get_prop m "_object" ;;
              item <- get_prop o "Item" ;;
              str_match item r) ms
        | None => ret ms
        end ;;
  ms <- (if includeEmpty then ret ms
         else filterM (fun m =>
                Module_method m ;;; e <- Module_isEmpty m ;; ret (negb e)) ms) ;;
  ms <- (if sort then sortBy_identity ms else ret ms) ;;
  alloc (Arr (uniq ms)).

(** [getInternals(type, includeEmpty)] *)
Definition Ship_getInternals (this : val) (type : option RegExp)
    (includeEmpty : bool) : M val :=
  ms <- Ship_getModules this (SRegExp REG_INTERNAL_SLOT) type includeEmpty true ;;
  militaryMs <- Ship_getModules this (SRegExp REG_MILITARY_SLOT) type includeEmpty true ;;
  xs <- array_elems ms ;;
  ys <- array_elems militaryMs ;;
  alloc (Arr (xs ++ ys)).

(** [getHardpoints(type, includeEmpty)] and [getUtilities(type, includeEmpty)] *)
Definition Ship_getHardpoints (this : val) (type : option RegExp)
    (includeEmpty : bool) : M val :=
  Ship_getModules this (SRegExp REG_HARDPOINT_SLOT) type includeEmpty true.

Definition Ship_getUtilities (this : val) (type : option RegExp)
    (includeEmpty : bool) : M val :=
  Ship_getModules this (SRegExp REG_UTILITY_SLOT) type includeEmpty true.

(** [setCoreModule(module)].  The test [!module instanceof Module] applies
    [instanceof] to the boolean [!module].  The file neither declares nor
    imports [CORE_MODULES], so reading it raises a ReferenceError. *)
Definition Ship_setCoreModule (fuel : nat) (this module : val) : M val :=
  not_module <- instance_of (VBool (negb (truthy module))) ClsModule ;;
  module <- (if (not_module : bool) then Module_new fuel module VUndef
             else ret module) ;;
  CORE_MODULES <- (unbound : M (list RegExp)) ;;
  slots <- filterM (fun i_slot : RegExp =>
             o <- get_prop module "_object" ;;
             item <- get_prop o "Item" ;;
             str_match item i_slot) CORE_MODULES ;;
  match slots with
  | i_slot :: _ => Ship_setModule fuel this (SRegExp i_slot) module
  | [] => ret (VBool false)
  end.

(** [setCoreModules(modules)]: each element is handed to [setCoreModules]
    again, wrapped in a one-element array.  [fuel] bounds the depth of the
    calls. *)
Fixpoint Ship_setCoreModules (fuel : nat) (this modules : val) : M val :=
  match fuel with
  | 0 => out_of_fuel
  | S f =>
      lodash_map modules (fun module =>
        single <- alloc (Arr [module]) ;;
        Ship_setCoreModules f this single)
  end.

(** [toJSON()], given what [m.toJSON()] does on an element of [Modules]. *)
Definition Ship_toJSON_with (elem_toJSON : val -> M val) (this : val) : M val :=
  o <- get_prop this "_object" ;;
  _modules <- get_prop o "Modules" ;;
  target <- get_prop this "_object" ;;
  copies <- lodash_map _modules elem_toJSON ;;
  set_prop target "Modules" copies ;;;
  o <- get_prop this "_object" ;;
  r <- clone o ;;
  o <- get_prop this "_object" ;;
  set_prop o "Modules" _modules ;;;
  ret r.

(** [m.toJSON()]: the method of the class [m] is an instance of. *)
Definition invoke_toJSON (Ship_toJSON : val -> M val) (fuel : nat) (m : val)
  : M val :=
  is_module <- instance_of m ClsModule ;;
  if (is_module : bool) then Module_toJSON fuel m
  else
    is_ship <- instance_of m ClsShip ;;
    if (is_ship : bool) then Ship_toJSON m else throw TypeError.

Fixpoint Ship_toJSON (fuel : nat) (this : val) : M val :=
  match fuel with
  | 0 => out_of_fuel
  | S f => Ship_toJSON_with (invoke_toJSON (Ship_toJSON f) fuel) this
  end.

End Classes.

(** ** Predicates of the statements *)

(** A descriptor matches a slot name: a string by equality, a pattern by a
    match somewhere in the name, a list when one of its elements matches. *)
Fixpoint slot_matches (name : string) (d : slot) : bool :=
  match d with
  | SStr x => String.eqb name x
  | SRegExp r => r name
  | SArr ds => existsb (slot_matches name) ds
  end.

Definition is_plain_object (t : tree) : bool :=
  match t with
  | TObj Plain _ => true
  | _ => false
  end.

(** The objects a value reaches through properties and elements. *)
Inductive reach (h : heap) : val -> loc -> Prop :=
| reach_here (l : loc) : reach h (VRef l) l
| reach_step (l : loc) (c : cell) (v : val) (l' : loc) :
    h !! l = Some c -> In v (cell_values c) -> reach h v l' ->
    reach h (VRef l) l'.

(** [v] unfolds within depth [fuel] to objects that all lie at locations from
    [a] up to, not including, [b], each one above the objects it holds. *)
Fixpoint within (a b : nat) (fuel : nat) (h : heap) (v : val) : Prop :=
  match v with
  | VRef l =>
      (a <= l < b) /\
      match fuel with
      | 0 => False
      | S f =>
          match h !! l with
          | Some c => Forall (within a l f h) (cell_values c)
          | None => False
          end
      end
  | _ => True
  end.

(** Modelled from the spec: the schemas behind [validateShipJson] and
    [validateModuleJson] are not in these files.  A raw ship record of the
    data model is a plain object whose [Modules] is a list of raw module
    records, and a raw module record is a plain object that the module
    validator accepts. *)
Definition raw_ship_record `{Imports} (x : tree) : Prop :=
  exists fs ms,
    x = TObj Plain fs /\ assoc "Modules" fs = Some (TArr ms) /\
    Forall (fun m => is_plain_object m = true /\ validateModuleJson m = true) ms.

(** Induction on descriptors that reaches below a list. *)
Fixpoint slot_nested_ind (P : slot -> Prop)
    (HStr : forall s, P (SStr s))
    (HReg : forall r, P (SRegExp r))
    (HArr : forall ss, Forall P ss -> P (SArr ss))
    (d : slot) : P d :=
  match d with
  | SStr s => HStr s
  | SRegExp r => HReg r
  | SArr ss =>
      HArr ss
        ((fix go (l : list slot) : Forall P l :=
            match l with
            | [] => @Stdlib.Lists.List.Forall_nil _ P
            | x :: l' =>
                @Stdlib.Lists.List.Forall_cons _ P x l' (slot_nested_ind P HStr HReg HArr x) (go l')
            end) ss)
  end.

(** Induction on trees that reaches below a list. *)
Fixpoint tree_nested_ind (P : tree -> Prop)
    (HUndef : P TUndef) (HNull : P TNull)
    (HBool : forall b, P (TBool b)) (HNum : forall n, P (TNum n))
    (HStr : forall s, P (TStr s))
    (HArr : forall ts, Forall P ts -> P (TArr ts))
    (HObj : forall k fs, Forall (fun f => P f.2) fs -> P (TObj k fs))
    (t : tree) : P t :=
  match t with
  | TUndef => HUndef
  | TNull => HNull
  | TBool b => HBool b
  | TNum n => HNum n
  | TStr s => HStr s
  | TArr ts =>
      HArr ts
        ((fix go (l : list tree) : Forall P l :=
            match l with
            | [] => @Stdlib.Lists.List.Forall_nil _ P
            | x :: l' =>
                @Stdlib.Lists.List.Forall_cons _ P x l'
                  (tree_nested_ind P HUndef HNull HBool HNum HStr HArr HObj x)
                  (go l')
            end) ts)
  | TObj k fs =>
      HObj k fs
        ((fix go (l : list (string * tree)) : Forall (fun f => P f.2) l :=
            match l with
            | [] => @Stdlib.Lists.List.Forall_nil _ (fun f => P f.2)
            | x :: l' =>
                @Stdlib.Lists.List.Forall_cons _ (fun f => P f.2) x l'
                  (tree_nested_ind P HUndef HNull HBool HNum HStr HArr HObj x.2)
                  (go l')
            end) fs)
  end.

(** The cell at [l] is an object. *)
Definition is_obj (h : heap) (l : loc) : Prop :=
  exists k ps, h !! l = Some (Obj k ps).

(** A module under construction, and a constructed one. *)
Definition Module_blank : cell :=
  Obj ClsModule [("_object", VNull); ("_ship", VNull)].

Definition Module_cell (o ship : val) : cell :=
  Obj ClsModule [("_object", o); ("_ship", if truthy ship then ship else VNull)].

(** A computation that leaves the store as it is. *)
Definition readonly {A} (m : M A) : Prop := forall h, (m h).2 = h.

(** A constructed ship. *)
Definition Ship_cell (o state : val) : cell :=
  Obj ClsShip [("_object", o); ("state", state)].

(** [m] is a module made at or above [a] whose record unfolds to [t] and
    lies at or above [a] as well. *)
Definition module_at (a fuel : nat) (h : heap) (m : val) (t : tree) : Prop :=
  exists lm o ship,
    m = VRef lm /\ a <= lm /\ h !! lm = Some (Module_cell o ship) /\
    reify fuel h o = Ok t /\ within a (length h) fuel h o.

(** ** Sample data *)

Definition is_prefix (p : string) : RegExp := fun s => String.prefix p s.

Definition sample_imports : Imports := {|
  validateModuleJson := is_plain_object;
  validateShipJson := is_plain_object;
  moduleVarIsSpecified := fun p => existsb (String.eqb p) ["Slot"; "Item"];
  shipVarIsSpecified := fun p => existsb (String.eqb p) ["Ship"; "Modules"];
  decompress := fun _ => TNull;
  getModuleProperty := fun _ _ => VNum 7;
  itemFitsSlot := fun _ _ s => strict_eq s (VStr "MainEngines");
  REG_HARDPOINT_SLOT := is_prefix "Hardpoint";
  REG_INTERNAL_SLOT := is_prefix "Slot";
  REG_MILITARY_SLOT := is_prefix "Military";
  REG_UTILITY_SLOT := is_prefix "TinyHardpoint"
|}.

Definition sample_blueprint : tree :=
  TObj Plain
    [("Engineer", TStr "Felicity Farseer"); ("BlueprintName", TStr "Engine_Dirty");
     ("Level", TNum 3); ("Quality", TNum 1); ("Modifiers", TArr [])].

Definition sample_module (slot item : string) : tree :=
  TObj Plain
    [("Slot", TStr slot); ("On", TBool true); ("Item", TStr item);
     ("Priority", TNum 1); ("Engineering", sample_blueprint)].

Definition sample_ship : tree :=
  TObj Plain
    [("Ship", TStr "anaconda"); ("ShipName", TStr "Normandy");
     ("ShipIdent", TStr "SR-2");
     ("Modules",
      TArr [sample_module "Slot02_Size3" "Int_CargoRack_Size3_Class1";
            sample_module "Slot01_Size5" "Int_ShieldGenerator_Size5_Class2";
            sample_module "Military01" "Int_HullReinforcement_Size4_Class2"])].

(** The same imports with a module validator that rejects every record. *)
Definition strict_imports : Imports := {|
  validateModuleJson := fun _ => false;
  validateShipJson := is_plain_object;
  moduleVarIsSpecified := fun p => existsb (String.eqb p) ["Slot"; "Item"];
  shipVarIsSpecified := fun p => existsb (String.eqb p) ["Ship"; "Modules"];
  decompress := fun _ => TNull;
  getModuleProperty := fun _ _ => VNum 7;
  itemFitsSlot := fun _ _ s => strict_eq s (VStr "MainEngines");
  REG_HARDPOINT_SLOT := is_prefix "Hardpoint";
  REG_INTERNAL_SLOT := is_prefix "Slot";
  REG_MILITARY_SLOT := is_prefix "Military";
  REG_UTILITY_SLOT := is_prefix "TinyHardpoint"
|}.

(** The caller's store holding [sample_ship] (at 10), and the store once
    [new Ship] has run on it: the ship is at 11, its record at 27, the array
    of its modules at 40. *)
Definition caller_heap : heap :=
  Eval vm_compute in (build sample_ship []).2.

Definition ship_heap : heap :=
  Eval vm_compute in (@Ship_new sample_imports 5 (VRef 10) caller_heap).2.

(** An engineered module without modifiers: the module is at 3, its record at
    6, its blueprint at 5. *)
Definition engineered_heap : heap :=
  Eval vm_compute in
    ((x <- build (sample_module "" "Int_Engine_Size5_Class2") ;;
      @Module_new sample_imports 5 x VUndef) []).2.

(** The slot names of an array of modules. *)
Definition slots_of (modules : val) : M (list val) :=
  ms <- array_elems modules ;;
  mapM (fun m => o <- get_prop m "_object" ;; get_prop o "Slot") ms.

(** A store holding one ship (at 0, its record at 1) and one module (at 2,
    its record at 3). *)
Definition sample_heap (slot item : string) (ship : val) : heap :=
  [Obj ClsShip [("_object", VRef 1)];
   Obj Plain [("Ship", VStr "anaconda"); ("Modules", VNull)];
   Obj ClsModule [("_object", VRef 3); ("_ship", ship)];
   Obj Plain [("Slot", VStr slot); ("On", VBool true); ("Item", VStr item);
              ("Priority", VNum 1)]].

(** ** The remaining methods *)

(** The imports not used so far: the encoder of [./compression] and the
    item and slot lookups of [./data/items] and [./data/slots]. *)
Class Lookups := {
  compress : tree -> string;
  getClass : val -> val;
  getRating : val -> val;
  getSlotSize : val -> val -> val
}.

Section Remaining.
Context `{Lookups}.

(** [Module.compress()]: the record itself is encoded, no copy is made. *)
Definition Module_compress (fuel : nat) (this : val) : M val :=
  o <- get_prop this "_object" ;;
  t <- snapshot fuel o ;;
  ret (VStr (compress t)).

(** [getClass()] and [getRating()]: [null] for a module without an item. *)
Definition Module_getClass (this : val) : M val :=
  o <- get_prop this "_object" ;;
  item <- get_prop o "Item" ;;
  if negb (truthy item) then ret VNull
  else
    o <- get_prop this "_object" ;;
    item <- get_prop o "Item" ;;
    ret (getClass item).

Definition Module_getRating (this : val) : M val :=
  o <- get_prop this "_object" ;;
  item <- get_prop o "Item" ;;
  if negb (truthy item) then ret VNull
  else
    o <- get_prop this "_object" ;;
    item <- get_prop o "Item" ;;
    ret (getRating item).

(** [getSize()]: [null] without a ship or without a slot; the second test is
    not made when the first decides. *)
Definition Module_getSize (this : val) : M val :=
  ship <- get_prop this "_ship" ;;
  no_slot <- (if negb (truthy ship) then ret true
              else
                o <- get_prop this "_object" ;;
                cur <- get_prop o "Slot" ;;
                ret (negb (truthy cur))) ;;
  if (no_slot : bool) then ret VNull
  else
    ship <- get_prop this "_ship" ;;
    so <- get_prop ship "_object" ;;
    shipType <- get_prop so "Ship" ;;
    o <- get_prop this "_object" ;;
    cur <- get_prop o "Slot" ;;
    ret (getSlotSize shipType cur).

(** [Ship.compress()] *)
Definition Ship_compress (fuel : nat) (this : val) : M val :=
  r <- Ship_toJSON fuel this ;;
  t <- snapshot fuel r ;;
  ret (VStr (compress t)).

End Remaining.

(** The accessors of the core modules, and [getCoreModules()]. *)
Definition Ship_getAlloys (this : val) : M val :=
  Ship_getModule this (SStr "Armour").

Definition Ship_getPowerPlant (this : val) : M val :=
  Ship_getModule this (SStr "PowerPlant").

Definition Ship_getThrusters (this : val) : M val :=
  Ship_getModule this (SStr "MainEngines").

Definition Ship_getFSD (this : val) : M val :=
  Ship_getModule this (SStr "FrameShiftDrive").

Definition Ship_getLifeSupport (this : val) : M val :=
  Ship_getModule this (SStr "LifeSupport").

Definition Ship_getPowerDistributor (this : val) : M val :=
  Ship_getModule this (SStr "PowerDistributor").

Definition Ship_getSensors (this : val) : M val :=
  Ship_getModule this (SStr "Radar").

Definition Ship_getCoreFuelTank (this : val) : M val :=
  Ship_getModule this (SStr "FuelTank").

Definition Ship_getCoreModules (this : val) : M val :=
  a <- Ship_getAlloys this ;;
  b <- Ship_getPowerPlant this ;;
  c <- Ship_getThrusters this ;;
  d <- Ship_getFSD this ;;
  e <- Ship_getLifeSupport this ;;
  f <- Ship_getPowerDistributor this ;;
  g <- Ship_getSensors this ;;
  i <- Ship_getCoreFuelTank this ;;
  alloc (Arr [a; b; c; d; e; f; g; i]).

(** [getShipName()], [setShipName(name)], [getShipID()] and [setShipID(id)] *)
Definition Ship_getShipName (this : val) : M val :=
  o <- get_prop this "_object" ;;
  get_prop o "ShipName".

Definition Ship_setShipName (this name : val) : M unit :=
  o <- get_prop this "_object" ;;
  set_prop o "ShipName" name.

Definition Ship_getShipID (this : val) : M val :=
  o <- get_prop this "_object" ;;
  get_prop o "ShipIdent".

Definition Ship_setShipID (this id : val) : M unit :=
  o <- get_prop this "_object" ;;
  set_prop o "ShipIdent" id.

(** [isOnSlot(v)] for a slot held as a value, as [setInternal] reads it off a
    record.  A string is a descriptor.  Any other value is neither a string
    nor a RegExp and is iterated by [for (let s of v)], which raises a
    TypeError on what is not iterable; an array held in a record is outside
    the model. *)
Definition Module_isOnSlot_val (this v : val) : M val :=
  match v with
  | VStr x => Module_isOnSlot this (SStr x)
  | _ =>
      o <- get_prop this "_object" ;;
      cur <- get_prop o "Slot" ;;
      if truthy cur then
        match v with
        | VRef l =>
            c <- load l ;;
            match c with
            | Arr _ => stuck
            | Obj _ _ => throw TypeError
            end
        | _ => throw TypeError
        end
      else ret VNull
  end.

(** [getModule(v)] and [setModule(v, module)] for such a value. *)
Definition Ship_modulesOnSlot_val (this v : val) : M (list val) :=
  o <- get_prop this "_object" ;;
  modules <- get_prop o "Modules" ;;
  ms <- collection_values modules ;;
  filterM (fun m =>
    Module_method m ;;; b <- Module_isOnSlot_val m v ;; ret (truthy b)) ms.

Definition Ship_getModule_val (this v : val) : M val :=
  ms <- Ship_modulesOnSlot_val this v ;;
  ret (hd VUndef ms).

Section Indexed.
Context `{Imports}.

Definition Ship_setModule_val (fuel : nat) (this v module : val) : M val :=
  is_module <- instance_of v ClsModule ;;
  if (is_module : bool) then Ship_setModule_on fuel this v module
  else
    old <- Ship_getModule_val this v ;;
    if truthy old then Ship_setModule_on fuel this old module
    else ret (VBool false).

(** [setInternal(slot, module)], [setHardpoint(slot, module)] and
    [setUtility(slot, module)]: [slot] is a number or a descriptor. *)
Definition Ship_setInternal (fuel : nat) (this : val) (slot : Z + slot)
    (module : val) : M val :=
  match slot with
  | inl i =>
      internals <- Ship_getInternals this None true ;;
      m <- get_computed internals (VNum i) ;;
      o <- get_prop m "_object" ;;
      s <- get_prop o "Slot" ;;
      Ship_setModule_val fuel this s module
  | inr d => Ship_setModule fuel this d module
  end.

Definition Ship_setHardpoint (fuel : nat) (this : val) (slot : Z + slot)
    (module : val) : M val :=
  match slot with
  | inl i =>
      hardpoints <- Ship_getHardpoints this None true ;;
      m <- get_computed hardpoints (VNum i) ;;
      o <- get_prop m "_object" ;;
      s <- get_prop o "Slot" ;;
      Ship_setModule_val fuel this s module
  | inr d => Ship_setModule fuel this d module
  end.

Definition Ship_setUtility (fuel : nat) (this : val) (slot : Z + slot)
    (module : val) : M val :=
  match slot with
  | inl i =>
      utilities <- Ship_getUtilities this None true ;;
      m <- get_computed utilities (VNum i) ;;
      o <- get_prop m "_object" ;;
      s <- get_prop o "Slot" ;;
      Ship_setModule_val fuel this s module
  | inr d => Ship_setModule fuel this d module
  end.

End Indexed.

(** ** Predicates of the further statements *)

(** The labels of a list of modifiers. *)
Definition labels (h : heap) (vs : list val) : list (result val) :=
  (fun m => (get_prop m "Label" h).1) <$> vs.

(** Assignment to a field of a record's structure, as [set_assoc] on the
    record. *)
Fixpoint set_field (k : string) (t : tree) (fs : list (string * tree))
  : list (string * tree) :=
  match fs with
  | [] => [(k, t)]
  | (k', t') :: fs' =>
      if String.eqb k k' then (k, t) :: fs' else (k', t') :: set_field k t fs'
  end.

(** A module whose record is a plain object with the slot name [name] and
    the item [item]. *)
Definition module_record (h : heap) (m : val) (name item : string) : Prop :=
  instance_of m ClsModule h = (Ok true, h) /\
  exists lo ps,
    get_prop m "_object" h = (Ok (VRef lo), h) /\
    h !! lo = Some (Obj Plain ps) /\
    assoc "Slot" ps = Some (VStr name) /\
    assoc "Item" ps = Some (VStr item).

(** A ship whose collection lists the modules [l], each with its slot name
    and its item. *)
Definition ship_modules (h : heap) (this : val)
    (l : list (val * (string * string))) : Prop :=
  instance_of this ClsShip h = (Ok true, h) /\
  exists lo ps la,
    get_prop this "_object" h = (Ok (VRef lo), h) /\
    h !! lo = Some (Obj Plain ps) /\
    assoc "Modules" ps = Some (VRef la) /\
    h !! la = Some (Arr l.*1) /\
    Forall (fun e => module_record h e.1 e.2.1 e.2.2) l.

(** The modules of [l] whose slot name and item satisfy [f], in the order of
    [l]. *)
Definition select (f : string * string -> bool)
    (l : list (val * (string * string))) : list val :=
  (List.filter (fun e => f e.2) l).*1.

(** A module is on a slot matching [d]: it has a slot, and [d] matches its
    name. *)
Definition on_slot (d : slot) (r : string * string) : bool :=
  negb (String.eqb r.1 "") && slot_matches r.1 d.

(** The test of [getModules]. *)
Definition wanted (d : slot) (type : option RegExp) (includeEmpty : bool)
    (r : string * string) : bool :=
  on_slot d r &&
  match type with Some t => t r.2 | None => true end &&
  (includeEmpty || negb (String.eqb r.2 "")).

(** The first module that satisfies [f] is given the item [item]. *)
Fixpoint replace_first (f : string * string -> bool) (item : string)
    (l : list (val * (string * string))) : list (val * (string * string)) :=
  match l with
  | [] => []
  | (m, r) :: l' =>
      if f r then (m, (r.1, item)) :: l' else (m, r) :: replace_first f item l'
  end.

(** The slot name and the item of a raw module record. *)
Definition slot_and_item (t : tree) : option (string * string) :=
  match t with
  | TObj Plain fs =>
      match assoc "Slot" fs, assoc "Item" fs with
      | Some (TStr name), Some (TStr item) => Some (name, item)
      | _, _ => None
      end
  | _ => None
  end.

(** The slot names [getCoreModules] asks for, in its order. *)
Definition core_slots : list string :=
  ["Armour"; "PowerPlant"; "MainEngines"; "FrameShiftDrive"; "LifeSupport";
   "PowerDistributor"; "Radar"; "FuelTank"].

(** What a setter called with the number [i] does, [zs] being the modules
    it lists and [h'] the store once they are listed: the call is
    [setModule] with the slot name of the module at [i], and a TypeError
    when there is no module at [i]. *)
Definition at_index `{Imports} (fuel : nat) (this : val)
    (l : list (val * (string * string))) (zs : list val) (i : Z) (module : val)
    (h' : heap) (r : result val * heap) : Prop :=
  match (if (i <? 0)%Z then None else zs !! Z.to_nat i) with
  | None => r = (Throw TypeError, h')
  | Some m =>
      exists name item,
        In (m, (name, item)) l /\
        r = Ship_setModule fuel this (SStr name) module h'
  end.

(** ** Further sample data *)

(** Sample lookups: the encoder names the fields of a record. *)
Definition sample_lookups : Lookups := {|
  compress := fun t => match t with
                       | TObj _ fs => String.concat "," fs.*1
                       | _ => ""
                       end;
  getClass := fun _ => VNum 5;
  getRating := fun _ => VStr "A";
  getSlotSize := fun _ _ => VNum 3
|}.

(** The sample imports with a decoder that reads every string as
    [sample_ship]. *)
Definition codec_imports : Imports := {|
  validateModuleJson := is_plain_object;
  validateShipJson := is_plain_object;
  moduleVarIsSpecified := fun p => existsb (String.eqb p) ["Slot"; "Item"];
  shipVarIsSpecified := fun p => existsb (String.eqb p) ["Ship"; "Modules"];
  decompress := fun _ => sample_ship;
  getModuleProperty := fun _ _ => VNum 7;
  itemFitsSlot := fun _ _ s => strict_eq s (VStr "MainEngines");
  REG_HARDPOINT_SLOT := is_prefix "Hardpoint";
  REG_INTERNAL_SLOT := is_prefix "Slot";
  REG_MILITARY_SLOT := is_prefix "Military";
  REG_UTILITY_SLOT := is_prefix "TinyHardpoint"
|}.

(** [engineered_heap] after [set('Mass', 5)] on its module: the new modifier
    is at 7. *)
Definition modified_heap : heap :=
  Eval vm_compute in (Module_set (VRef 3) "Mass" (VNum 5) engineered_heap).2.

(** The modules of the ship of [ship_heap], with their slot names and
    items. *)
Definition ship_list : list (val * (string * string)) :=
  [(VRef 28, ("Slot02_Size3", "Int_CargoRack_Size3_Class1"));
   (VRef 32, ("Slot01_Size5", "Int_ShieldGenerator_Size5_Class2"));
   (VRef 36, ("Military01", "Int_HullReinforcement_Size4_Class2"))].

(** A module (at 0) whose record (at 1) has no [Slot]. *)
Definition slotless_heap : heap :=
  [Obj ClsModule [("_object", VRef 1); ("_ship", VNull)];
   Obj Plain [("Item", VStr "Int_Engine_Size5_Class2")]].

(** The record of [sample_heap] as a structure. *)
Definition sample_record (slot item : string) : tree :=
  TObj Plain [("Slot", TStr slot); ("On", TBool true); ("Item", TStr item);
              ("Priority", TNum 1)].

(** * Theorems *)

(** ** The monad *)

Lemma bind_ok {A B} (m : M A) (f : A -> M B) h a h' :
  m h = (Ok a, h') -> bind m f h = f a h'.
Proof. intros E. unfold bind. now rewrite E. Qed.

Ltac run H := rewrite (bind_ok _ _ _ _ _ H).

(** ** Properties and the store *)

Lemma assoc_set_assoc_eq k v ps : assoc k (set_assoc k v ps) = Some v.
Proof.
  induction ps as [|[k' v'] ps IH]; simpl.
  - now rewrite String.eqb_refl.
  - destruct (String.eqb k k') eqn:E; simpl; rewrite ?String.eqb_refl, ?E; auto.
Qed.

Lemma assoc_set_assoc_ne k k' v ps :
  k <> k' -> assoc k (set_assoc k' v ps) = assoc k ps.
Proof.
  intros Hne. induction ps as [|[k0 v0] ps IH]; simpl.
  - destruct (String.eqb k k') eqn:E; [apply String.eqb_eq in E; contradiction | reflexivity].
  - destruct (String.eqb k' k0) eqn:E; simpl.
    + apply String.eqb_eq in E. subst k0.
      destruct (String.eqb k k') eqn:E'; [apply String.eqb_eq in E'; contradiction | reflexivity].
    + now rewrite IH.
Qed.

(** Writing back the value a property had restores the properties. *)
Lemma set_assoc_restore k v w ps :
  assoc k ps = Some v -> set_assoc k v (set_assoc k w ps) = ps.
Proof.
  induction ps as [|[k' v'] ps IH]; simpl; [discriminate|].
  destruct (String.eqb k k') eqn:E; simpl.
  - intros [= ->]. rewrite String.eqb_refl. apply String.eqb_eq in E. now subst.
  - intros Hv. rewrite E. now rewrite IH.
Qed.

(** A property read leaves the store as it is. *)
Lemma get_prop_heap o k h : (get_prop o k h).2 = h.
Proof.
  unfold get_prop. destruct o; try reflexivity.
  destruct (h !! l) as [[]|]; reflexivity.
Qed.


(** The effect of a successful assignment on later reads. *)
Lemma get_after_set o k v h h' :
  set_prop o k v h = (Ok tt, h') -> get_prop o k h' = (Ok v, h').
Proof.
  unfold set_prop, get_prop. destruct o; try discriminate.
  destruct (h !! l) as [[c ps|]|] eqn:E; try discriminate.
  intros [= <-].
  rewrite list_lookup_insert_eq by (eapply lookup_lt_Some; eauto).
  now rewrite assoc_set_assoc_eq.
Qed.

Lemma get_after_set_ne o k v h h' o' k' :
  set_prop o k v h = (Ok tt, h') -> k' <> k ->
  (get_prop o' k' h').1 = (get_prop o' k' h).1.
Proof.
  unfold set_prop, get_prop. destruct o; try discriminate.
  destruct (h !! l) as [[c ps|]|] eqn:E; try discriminate.
  intros [= <-] Hne. destruct o'; try reflexivity.
  destruct (decide (l = l0)) as [->|Hl].
  - rewrite list_lookup_insert_eq by (eapply lookup_lt_Some; eauto).
    rewrite E. simpl. now rewrite assoc_set_assoc_ne.
  - rewrite list_lookup_insert_ne by done.
    destruct (h !! l0) as [[]|]; reflexivity.
Qed.

Lemma lookup_fresh (h : heap) c : (h ++ [c]) !! length h = Some c.
Proof. now apply list_lookup_middle. Qed.

Lemma insert_fresh (h : heap) c c' : <[length h := c']> (h ++ [c]) = h ++ [c'].
Proof. induction h as [|x h IH]; simpl; [reflexivity | now rewrite IH]. Qed.

(** ** class Module *)

Section ModuleTheorems.
Context `{Imports}.


(** C7.  With a Ship attached, an empty [Slot] and an [Item]: when the item
    is non-empty and the fit-checker rejects the slot, [setSlot] returns
    normally and the store, so the empty [Slot], is unchanged; when the item
    is empty or the checker accepts, the call is exactly the assignment
    [Slot = s]. *)
Theorem Module_setSlot_fit (h : heap) (this ship o so shipType : val)
    (item s : string) :
  get_prop this "_ship" h = (Ok ship, h) -> truthy ship = true ->
  get_prop this "_object" h = (Ok o, h) ->
  get_prop o "Slot" h = (Ok (VStr ""), h) ->
  get_prop o "Item" h = (Ok (VStr item), h) ->
  get_prop ship "_object" h = (Ok so, h) ->
  get_prop so "Ship" h = (Ok shipType, h) ->
  if String.eqb item "" || itemFitsSlot (VStr item) shipType (VStr s) then
    exists h', Module_setSlot this s h = (Ok tt, h') /\
               set_prop o "Slot" (VStr s) h = (Ok tt, h') /\
               get_prop o "Slot" h' = (Ok (VStr s), h')
  else
    Module_setSlot this s h = (Ok tt, h) /\
    get_prop o "Slot" h = (Ok (VStr ""), h).
Proof.
  intros Hship Htruthy Hobj Hslot Hitem Hso Htype.
  assert (Hset : exists h', set_prop o "Slot" (VStr s) h = (Ok tt, h')).
  { revert Hslot. unfold get_prop, set_prop. destruct o; try discriminate.
    destruct (h !! l) as [[]|]; try discriminate; eauto. }
  destruct Hset as (h' & Hset).
  unfold Module_setSlot. run Hship. rewrite Htruthy. simpl.
  run Hobj. run Hslot. simpl. run Hobj. run Hitem. simpl.
  destruct (String.eqb item "") eqn:Eitem; simpl.
  - unfold ret at 1. unfold bind at 1. run Hobj.
    exists h'. repeat split; auto. eapply get_after_set; eauto.
  - assert (Hfit :
      (o0 <- get_prop this "_object" ;;
       item0 <- get_prop o0 "Item" ;;
       ship0 <- get_prop this "_ship" ;;
       so0 <- get_prop ship0 "_object" ;;
       shipType0 <- get_prop so0 "Ship" ;;
       ret (itemFitsSlot item0 shipType0 (VStr s))) h =
      (Ok (itemFitsSlot (VStr item) shipType (VStr s)), h)).
    { run Hobj. run Hitem. run Hship. run Hso. now run Htype. }
    destruct (itemFitsSlot (VStr item) shipType (VStr s)); run Hfit.
    + run Hobj. exists h'. repeat split; auto. eapply get_after_set; eauto.
    + split; [reflexivity | assumption].
Qed.

(** C8.  [isOnSlot] answers [null] for every descriptor when the module's
    [Slot] is empty, and otherwise [true] or [false] according to whether the
    descriptor matches the slot name. *)
Theorem Module_isOnSlot_spec (h : heap) (this o : val) (name : string) (d : slot) :
  get_prop this "_object" h = (Ok o, h) ->
  get_prop o "Slot" h = (Ok (VStr name), h) ->
  Module_isOnSlot this d h =
    (Ok (if String.eqb name "" then VNull else VBool (slot_matches name d)), h).
Proof.
  intros Hobj Hslot.
  induction d as [x | r | ss IH] using slot_nested_ind; simpl;
    run Hobj; run Hslot; simpl; destruct (String.eqb name "") eqn:E; simpl;
    try reflexivity.
  induction IH as [| d ds Hd _ IHds]; simpl; [reflexivity|].
  run Hd. destruct (slot_matches name d); simpl; [reflexivity | exact IHds].
Qed.

(** C6.  [new Module()] does not complete: the constructor calls
    [this.clear()], a method the class does not define, which raises a
    TypeError; the object under construction is left with [_object = null]
    and no placeholder record is made. *)
Theorem Module_new_no_input (fuel : nat) (ship : val) (h : heap) :
  Module_new fuel VUndef ship h =
    (Throw TypeError, h ++ [Obj ClsModule [("_object", VNull); ("_ship", VNull)]]).
Proof.
  unfold Module_new, alloc, bind, set_prop. simpl.
  rewrite lookup_fresh, insert_fresh. simpl.
  rewrite lookup_fresh, insert_fresh. reflexivity.
Qed.

End ModuleTheorems.


Lemma Module_setSlot_fit_witness :
  @Module_setSlot sample_imports (VRef 2) "Slot01_Size5"
    (sample_heap "" "Int_Engine_Size5_Class2" (VRef 0)) =
    (Ok tt, sample_heap "" "Int_Engine_Size5_Class2" (VRef 0)) /\
  get_prop (VRef 3) "Slot" (sample_heap "" "Int_Engine_Size5_Class2" (VRef 0)) =
    (Ok (VStr ""), sample_heap "" "Int_Engine_Size5_Class2" (VRef 0)).
Proof.
  exact (@Module_setSlot_fit sample_imports
           (sample_heap "" "Int_Engine_Size5_Class2" (VRef 0))
           (VRef 2) (VRef 0) (VRef 3) (VRef 1) (VStr "anaconda")
           "Int_Engine_Size5_Class2" "Slot01_Size5"
           eq_refl eq_refl eq_refl eq_refl eq_refl eq_refl eq_refl).
Defined.

Lemma Module_isOnSlot_spec_witness :
  @Module_isOnSlot (VRef 2) (SArr [SStr "Armour"; SRegExp (is_prefix "Slot0")])
    (sample_heap "Slot04_Size3" "Int_CargoRack_Size3_Class1" (VRef 0)) =
    (Ok (VBool true), sample_heap "Slot04_Size3" "Int_CargoRack_Size3_Class1" (VRef 0)).
Proof.
  exact (Module_isOnSlot_spec
           (sample_heap "Slot04_Size3" "Int_CargoRack_Size3_Class1" (VRef 0))
           (VRef 2) (VRef 3) "Slot04_Size3"
           (SArr [SStr "Armour"; SRegExp (is_prefix "Slot0")]) eq_refl eq_refl).
Defined.

(** ** class Ship *)

(** C5.  [setCoreModules] does not terminate on a non-empty array: for its
    first element it calls [setCoreModules] again on a one-element array, and
    so on; whatever depth of calls is allowed, no result is produced. *)
Theorem Ship_setCoreModules_never_returns (fuel : nat) (this : val) (l : loc)
    (v : val) (vs : list val) (h : heap) :
  h !! l = Some (Arr (v :: vs)) ->
  (Ship_setCoreModules fuel this (VRef l) h).1 = OutOfFuel.
Proof.
  revert l v vs h. induction fuel as [|f IH]; intros l v vs h Hl; [reflexivity|].
  simpl. unfold lodash_map, bind at 1, collection_values. rewrite Hl. simpl.
  unfold bind at 1, bind at 1, bind at 1, alloc at 1.
  specialize (IH (length h) v [] (h ++ [Arr [v]]) (lookup_fresh h _)).
  destruct (Ship_setCoreModules f this (VRef (length h)) (h ++ [Arr [v]]))
    as [r h'].
  simpl in IH. now subst r.
Qed.


Lemma Ship_setCoreModules_never_returns_witness :
  (Ship_setCoreModules 1000 (VRef 0)
     (VRef 1) [Obj ClsShip []; Arr [VRef 2]; Obj ClsModule []]).1 = OutOfFuel.
Proof.
  exact (Ship_setCoreModules_never_returns 1000 (VRef 0) 1 (VRef 2) []
           [Obj ClsShip []; Arr [VRef 2]; Obj ClsModule []] eq_refl).
Defined.

(** ** Structure of stored values *)

Lemma mapR_Forall2 {A B} (f : A -> result B) (l : list A) (r : list B) :
  mapR f l = Ok r <-> Forall2 (fun a b => f a = Ok b) l r.
Proof.
  revert r. induction l as [|a l IH]; intros r; simpl.
  - split; [intros [= <-]; constructor | intros Hr; now inversion Hr].
  - destruct (f a) as [b| | |] eqn:Ea; simpl;
      try (split; [discriminate | intros Hr; inversion Hr; congruence]).
    destruct (mapR f l) as [bs| | |] eqn:El; simpl.
    + split.
      * intros [= <-]. constructor; [assumption | now apply IH].
      * intros Hr. inversion Hr as [|? b' ? bs' Hb Hbs]; subst.
        apply IH in Hbs. congruence.
    + split; [discriminate|]. intros Hr. inversion Hr as [|? ? ? bs' _ Hbs]; subst.
      apply IH in Hbs. discriminate.
    + split; [discriminate|]. intros Hr. inversion Hr as [|? ? ? bs' _ Hbs]; subst.
      apply IH in Hbs. discriminate.
    + split; [discriminate|]. intros Hr. inversion Hr as [|? ? ? bs' _ Hbs]; subst.
      apply IH in Hbs. discriminate.
Qed.

Lemma reify_ref_inv fuel (h : heap) l t :
  reify fuel h (VRef l) = Ok t ->
  exists f c ts,
    fuel = S f /\ h !! l = Some c /\
    Forall2 (fun v t => reify f h v = Ok t) (cell_values c) ts /\
    t = tree_of c ts.
Proof.
  destruct fuel as [|f]; simpl; [discriminate|].
  destruct (h !! l) as [c|]; [|discriminate].
  destruct (mapR (reify f h) (cell_values c)) as [ts| | |] eqn:E; try discriminate.
  intros [= <-]. exists f, c, ts. repeat split. now apply mapR_Forall2.
Qed.

Lemma reify_ref_intro f (h : heap) l c ts :
  h !! l = Some c ->
  Forall2 (fun v t => reify f h v = Ok t) (cell_values c) ts ->
  reify (S f) h (VRef l) = Ok (tree_of c ts).
Proof.
  intros Hl Hts. simpl. rewrite Hl.
  apply mapR_Forall2 in Hts. now rewrite Hts.
Qed.

(** Cells added to the store do not change what a value unfolds to. *)
Lemma reify_ext fuel (h ext : heap) v t :
  reify fuel h v = Ok t -> reify fuel (h ++ ext) v = Ok t.
Proof.
  revert v t. induction fuel as [|f IH]; intros v t Hv.
  - destruct v as [| | | | |l]; exact Hv.
  - destruct v as [| | | | |l]; try exact Hv.
    apply reify_ref_inv in Hv as (f' & c & ts & [= <-] & Hl & Hts & ->).
    apply reify_ref_intro; [now apply lookup_app_l_Some|].
    eapply Forall2_impl; [exact Hts|]. intros; now apply IH.
Qed.

Lemma reify_S fuel (h : heap) v t :
  reify fuel h v = Ok t -> reify (S fuel) h v = Ok t.
Proof.
  revert v t. induction fuel as [|f IH]; intros v t Hv.
  - destruct v as [| | | | |l]; first [exact Hv | discriminate].
  - destruct v as [| | | | |l]; try exact Hv.
    apply reify_ref_inv in Hv as (f' & c & ts & [= <-] & Hl & Hts & ->).
    apply reify_ref_intro; [assumption|].
    eapply Forall2_impl; [exact Hts|]. intros; now apply IH.
Qed.

Lemma reify_mono fuel fuel' (h : heap) v t :
  reify fuel h v = Ok t -> fuel <= fuel' -> reify fuel' h v = Ok t.
Proof.
  intros Hv Hle. induction Hle; [assumption | now apply reify_S].
Qed.

(** ** The predicate [within] *)

Lemma within_weaken a a' b b' fuel (h : heap) v :
  a' <= a -> b <= b' -> within a b fuel h v -> within a' b' fuel h v.
Proof.
  revert a a' b b' v. induction fuel as [|f IH]; intros a a' b b' v Ha Hb;
    destruct v as [| | | | |l]; simpl; auto; intros [Hr Hc]; try contradiction.
  split; [lia|]. destruct (h !! l) as [c|]; [|contradiction].
  eapply Forall_impl; [exact Hc|]. intros x Hx. eapply (IH a a' l l); eauto.
Qed.

Lemma within_ext a b fuel (h ext : heap) v :
  within a b fuel h v -> within a b fuel (h ++ ext) v.
Proof.
  revert b v. induction fuel as [|f IH]; intros b v;
    destruct v as [| | | | |l]; simpl; auto; intros [Hr Hc]; try contradiction.
  split; [assumption|]. destruct (h !! l) as [c|] eqn:Hl; [|contradiction].
  rewrite (lookup_app_l_Some _ _ _ _ Hl).
  eapply Forall_impl; [exact Hc|]. intros x Hx. now apply IH.
Qed.

Lemma within_ref_inv a b fuel (h : heap) l :
  within a b fuel h (VRef l) ->
  a <= l < b /\
  exists f c, fuel = S f /\ h !! l = Some c /\
              Forall (within a l f h) (cell_values c).
Proof.
  destruct fuel as [|f]; simpl; [tauto|]. intros [Hr Hc]. split; [assumption|].
  destruct (h !! l) as [c|]; [|contradiction]. now exists f, c.
Qed.

(** A store that agrees with [h] between [a] and [b] holds the same
    structure there. *)
Lemma within_agree a b fuel (h h' : heap) v :
  (forall l, a <= l < b -> h' !! l = h !! l) ->
  within a b fuel h v ->
  within a b fuel h' v /\ reify fuel h' v = reify fuel h v.
Proof.
  revert b v. induction fuel as [|f IH]; intros b v Hag;
    destruct v as [| | | | |l]; try (simpl; tauto); intros [Hr Hc];
    try contradiction.
  simpl. rewrite (Hag l Hr).
  destruct (h !! l) as [c|] eqn:Hl; [|contradiction].
  assert (Hall : Forall (fun x => within a l f h' x /\
                                  reify f h' x = reify f h x) (cell_values c)).
  { eapply Forall_impl; [exact Hc|]. intros x Hx. apply IH; [|assumption].
    intros l' Hl'. apply Hag. lia. }
  split; [split; [assumption|]|].
  - eapply Forall_impl; [exact Hall|]. now intros x [? _].
  - f_equal. clear -Hall. induction Hall as [|x xs [_ Hx] _ IHxs]; simpl;
      [reflexivity|]. now rewrite Hx, IHxs.
Qed.

(** Everything reached from a value that lies within [a] and [b] lies there
    as well. *)
Lemma within_reach a b fuel (h : heap) v l :
  within a b fuel h v -> reach h v l -> a <= l < b.
Proof.
  intros Hw Hr. revert a b fuel Hw.
  induction Hr as [l | l c v l' Hl Hin Hr IH]; intros a b fuel Hw.
  - destruct fuel; simpl in Hw; tauto.
  - destruct fuel as [|f]; simpl in Hw; [tauto|].
    destruct Hw as [Hrange Hc]. rewrite Hl in Hc.
    rewrite Forall_forall in Hc.
    specialize (IH a l f (Hc v ltac:(now apply list_elem_of_In))). lia.
Qed.

(** ** cloneDeep *)

Lemma cell_values_with c vs :
  length vs = length (cell_values c) -> cell_values (cell_with c vs) = vs.
Proof.
  destruct c as [k ps|]; simpl; [|reflexivity].
  rewrite !length_fmap. intros Hlen. apply snd_zip. rewrite length_fmap. lia.
Qed.

Lemma tree_of_with c vs ts :
  length vs = length (cell_values c) -> tree_of (cell_with c vs) ts = tree_of c ts.
Proof.
  destruct c as [k ps|]; simpl; [|reflexivity].
  rewrite !length_fmap. intros Hlen. f_equal. f_equal.
  apply fst_zip. rewrite length_fmap. lia.
Qed.

Lemma mapM_cons {A B} (f : A -> M B) a l h b h1 bs h2 :
  f a h = (Ok b, h1) -> mapM f l h1 = (Ok bs, h2) ->
  mapM f (a :: l) h = (Ok (b :: bs), h2).
Proof.
  intros Ha Hl. simpl. run Ha. fold (mapM f). now run Hl.
Qed.

(** Copying a list of values, given that each value can be copied. *)
Lemma cloneDeep_list fuel :
  (forall (h : heap) v t,
      reify fuel h v = Ok t ->
      exists v' ext,
        cloneDeep fuel v h = (Ok v', h ++ ext) /\
        reify fuel (h ++ ext) v' = Ok t /\
        within (length h) (length (h ++ ext)) fuel (h ++ ext) v') ->
  forall vs ts (h : heap),
    Forall2 (fun v t => reify fuel h v = Ok t) vs ts ->
    exists vs' ext,
      mapM (cloneDeep fuel) vs h = (Ok vs', h ++ ext) /\
      Forall2 (fun v t => reify fuel (h ++ ext) v = Ok t) vs' ts /\
      Forall (within (length h) (length (h ++ ext)) fuel (h ++ ext)) vs'.
Proof.
  intros Hone vs. induction vs as [|v vs IH]; intros ts h Hts.
  - inversion Hts; subst. exists [], []. rewrite app_nil_r.
    repeat split; constructor.
  - inversion Hts as [|? t1 ? ts1 Hv Hrest]; subst.
    destruct (Hone h v t1 Hv) as (v' & e1 & Hc & Hr & Hw).
    destruct (IH ts1 (h ++ e1)) as (vs' & e2 & Hcs & Hrs & Hws).
    { eapply Forall2_impl; [exact Hrest|]. intros; now apply reify_ext. }
    exists (v' :: vs'), (e1 ++ e2). rewrite app_assoc. repeat split.
    + eapply mapM_cons; eauto.
    + constructor; [now apply reify_ext | assumption].
    + constructor.
      * eapply within_weaken; [| |apply within_ext; exact Hw];
          [lia | rewrite !length_app; lia].
      * eapply Forall_impl; [exact Hws|]. intros x Hx.
        eapply within_weaken; [| |exact Hx]; [rewrite length_app; lia | lia].
Qed.

(** [cloneDeep] of a value that unfolds to a tree returns a value that
    unfolds to the same tree and is made of new cells only; the store is
    extended and nothing in it is changed. *)
Lemma cloneDeep_spec fuel (h : heap) v t :
  reify fuel h v = Ok t ->
  exists v' ext,
    cloneDeep fuel v h = (Ok v', h ++ ext) /\
    reify fuel (h ++ ext) v' = Ok t /\
    within (length h) (length (h ++ ext)) fuel (h ++ ext) v'.
Proof.
  revert h v t. induction fuel as [|f IH]; intros h v t Hv.
  - destruct v as [| | | | |l]; try discriminate;
      (eexists _, []; rewrite app_nil_r;
       split; [reflexivity | split; [exact Hv | exact I]]).
  - destruct v as [| | | | |l];
      try (eexists _, []; rewrite app_nil_r;
           split; [reflexivity | split; [exact Hv | exact I]]).
    apply reify_ref_inv in Hv as (f' & c & ts & [= <-] & Hl & Hts & ->).
    destruct (cloneDeep_list f IH _ _ _ Hts) as (vs' & ext & Hcs & Hrs & Hws).
    assert (Hlen : length vs' = length (cell_values c)).
    { rewrite (Forall2_length _ _ _ Hrs). symmetry. eapply Forall2_length; eauto. }
    exists (VRef (length (h ++ ext))), (ext ++ [cell_with c vs']).
    rewrite app_assoc. repeat split.
    + simpl. unfold load, bind at 1. rewrite Hl. now run Hcs.
    + rewrite <- (tree_of_with c vs' ts Hlen).
      apply reify_ref_intro; [apply lookup_fresh|].
      rewrite (cell_values_with _ _ Hlen).
      eapply Forall2_impl; [exact Hrs|]. intros; now apply reify_ext.
    + rewrite length_app. lia.
    + rewrite !length_app. simpl. lia.
    + rewrite lookup_fresh, (cell_values_with _ _ Hlen).
      eapply Forall_impl; [exact Hws|]. intros x Hx. now apply within_ext.
Qed.

(** ** Reads and writes under store extension *)

Lemma get_prop_ext o k v (h ext : heap) :
  get_prop o k h = (Ok v, h) -> get_prop o k (h ++ ext) = (Ok v, h ++ ext).
Proof.
  unfold get_prop. destruct o as [| | | | |l]; try congruence.
  destruct (h !! l) as [c|] eqn:Hl; [|discriminate].
  rewrite (lookup_app_l_Some _ _ _ _ Hl). destruct c; congruence.
Qed.

Lemma instance_of_ext v c b (h ext : heap) :
  instance_of v c h = (Ok b, h) -> instance_of v c (h ++ ext) = (Ok b, h ++ ext).
Proof.
  unfold instance_of. destruct v as [| | | | |l]; try congruence.
  destruct (h !! l) as [x|] eqn:Hl; [|discriminate].
  rewrite (lookup_app_l_Some _ _ _ _ Hl). destruct x; congruence.
Qed.

(** An instance of a class is an object in the store. *)
Lemma instance_of_true_inv v c (h : heap) :
  instance_of v c h = (Ok true, h) ->
  exists l ps, v = VRef l /\ h !! l = Some (Obj c ps) /\ c <> Plain.
Proof.
  unfold instance_of. destruct v as [| | | | |l]; try discriminate.
  destruct (h !! l) as [[k ps|]|] eqn:Hl; try discriminate.
  destruct k, c; try discriminate; intros _; exists l, ps; now repeat split.
Qed.

Lemma set_prop_ok (h : heap) l k v :
  is_obj h l ->
  exists h', set_prop (VRef l) k v h = (Ok tt, h') /\
             length h' = length h /\
             (forall l', is_obj h l' -> is_obj h' l').
Proof.
  intros (c & ps & Hl). unfold set_prop. rewrite Hl.
  eexists. split; [reflexivity|]. split; [apply length_insert|].
  intros l' (c' & ps' & Hl'). destruct (decide (l = l')) as [->|Hne].
  - eexists _, _. apply list_lookup_insert_eq. eapply lookup_lt_Some; eauto.
  - exists c', ps'. now rewrite list_lookup_insert_ne.
Qed.

Lemma is_obj_ext (h ext : heap) l : is_obj h l -> is_obj (h ++ ext) l.
Proof. intros (c & ps & Hl). exists c, ps. now apply lookup_app_l_Some. Qed.

(** [toJSON()] of a module whose record unfolds to [t]: a new value that
    unfolds to [t]; the store is only extended. *)
Lemma Module_toJSON_spec fuel (h : heap) this o t :
  get_prop this "_object" h = (Ok o, h) ->
  reify fuel h o = Ok t ->
  exists v' ext,
    Module_toJSON fuel this h = (Ok v', h ++ ext) /\
    reify fuel (h ++ ext) v' = Ok t /\
    within (length h) (length (h ++ ext)) fuel (h ++ ext) v'.
Proof.
  intros Hobj Ht. destruct (cloneDeep_spec _ _ _ _ Ht) as (v' & ext & Hc & Hr & Hw).
  exists v', ext. unfold Module_toJSON. run Hobj. auto.
Qed.

Lemma insert_middle (h ext : heap) c c' :
  <[length h := c']> ((h ++ [c]) ++ ext) = (h ++ [c']) ++ ext.
Proof.
  rewrite <- !app_assoc. simpl.
  induction h as [|x h IH]; simpl; [reflexivity | now rewrite IH].
Qed.

Lemma lookup_middle (h ext : heap) c : ((h ++ [c]) ++ ext) !! length h = Some c.
Proof. rewrite <- app_assoc. now apply list_lookup_middle. Qed.

(** The store between [a] and [b] is the same after a cell below [a] is
    replaced. *)
Lemma agree_middle (h ext : heap) c c' l :
  length h < l -> ((h ++ [c']) ++ ext) !! l = ((h ++ [c]) ++ ext) !! l.
Proof.
  intros Hl. rewrite <- (insert_middle h ext c c').
  apply list_lookup_insert_ne. lia.
Qed.

Section ModuleConstruction.
Context `{Imports}.

(** The constructor around [cloneModuleToJSON]: when that call returns [o]
    the new instance holds [o]; when it raises, so does the constructor. *)
Lemma Module_new_run fuel (h ext : heap) buildFrom ship o :
  truthy buildFrom = true ->
  cloneModuleToJSON fuel buildFrom (h ++ [Module_blank]) =
    (Ok o, (h ++ [Module_blank]) ++ ext) ->
  Module_new fuel buildFrom ship h =
    (Ok (VRef (length h)), (h ++ [Module_cell o ship]) ++ ext).
Proof.
  intros Htruthy Hclone. unfold Module_blank in Hclone.
  unfold Module_new, alloc, bind at 1. unfold set_prop at 1, bind at 1.
  rewrite lookup_fresh, insert_fresh. simpl.
  unfold set_prop at 1, bind at 1.
  rewrite lookup_fresh, insert_fresh. simpl.
  rewrite Htruthy. simpl.
  unfold bind at 1, bind at 1. rewrite Hclone.
  unfold set_prop at 1. rewrite lookup_middle. simpl. rewrite insert_middle.
  unfold Module_cell. destruct (truthy ship).
  - unfold bind at 1, set_prop. rewrite lookup_middle. simpl.
    now rewrite insert_middle.
  - reflexivity.
Qed.

Lemma Module_new_raise fuel (h h' : heap) buildFrom ship e :
  truthy buildFrom = true ->
  cloneModuleToJSON fuel buildFrom (h ++ [Module_blank]) = (Throw e, h') ->
  Module_new fuel buildFrom ship h = (Throw e, h').
Proof.
  intros Htruthy Hclone. unfold Module_blank in Hclone.
  unfold Module_new, alloc, bind at 1. unfold set_prop at 1, bind at 1.
  rewrite lookup_fresh, insert_fresh. simpl.
  unfold set_prop at 1, bind at 1.
  rewrite lookup_fresh, insert_fresh. simpl.
  rewrite Htruthy. simpl.
  unfold bind at 1, bind at 1. now rewrite Hclone.
Qed.

(** [cloneModuleToJSON] of a module is its [toJSON()]. *)
Lemma cloneModuleToJSON_Module fuel (h : heap) m :
  instance_of m ClsModule h = (Ok true, h) ->
  cloneModuleToJSON fuel m h = Module_toJSON fuel m h.
Proof. intros Hm. unfold cloneModuleToJSON. now run Hm. Qed.

(** [cloneModuleToJSON] of a raw object: a copy, handed to the validator. *)
Lemma cloneModuleToJSON_raw fuel (h : heap) l t :
  instance_of (VRef l) ClsModule h = (Ok false, h) ->
  reify fuel h (VRef l) = Ok t ->
  exists v' ext,
    cloneModuleToJSON fuel (VRef l) h =
      (if validateModuleJson t then Ok v' else Throw ImportExportError, h ++ ext) /\
    reify fuel (h ++ ext) v' = Ok t /\
    within (length h) (length (h ++ ext)) fuel (h ++ ext) v'.
Proof.
  intros Hm Ht.
  destruct (cloneDeep_spec _ _ _ _ Ht) as (v' & ext & Hc & Hr & Hw).
  exists v', ext. split; [|auto].
  unfold cloneModuleToJSON. run Hm. unfold ret at 1, bind at 1.
  run Hc. unfold snapshot, bind. rewrite Hr.
  now destruct (validateModuleJson t).
Qed.

End ModuleConstruction.

(** A value that unfolds to an object is a reference to an object. *)
Lemma reify_obj_inv fuel (h : heap) v k fs :
  reify fuel h v = Ok (TObj k fs) -> exists l, v = VRef l /\ is_obj h l.
Proof.
  destruct v as [| | | | |l]; try (destruct fuel; discriminate).
  intros Hv. exists l. split; [reflexivity|].
  apply reify_ref_inv in Hv as (f & c & ts & _ & Hl & _ & Ht).
  destruct c as [k' ps|]; [|discriminate]. now exists k', ps.
Qed.

(** ** Materialised trees *)

(** [build t] makes a value that unfolds to [t], at any depth from some depth
    on; the store is only extended. *)
Lemma build_spec t : forall h : heap,
  exists v ext n,
    build t h = (Ok v, h ++ ext) /\
    forall fuel, n <= fuel -> reify fuel (h ++ ext) v = Ok t.
Proof.
  induction t as [| | b | z | s | ts IH | k fs IH] using tree_nested_ind; intros h;
    try (eexists _, [], 0; rewrite app_nil_r; split; [reflexivity|];
         intros [|f] _; reflexivity).
  - assert (Hall : forall h : heap, exists vs ext n,
               mapM build ts h = (Ok vs, h ++ ext) /\
               forall fuel, n <= fuel ->
                 Forall2 (fun v t => reify fuel (h ++ ext) v = Ok t) vs ts).
    { clear h. induction IH as [|t ts Ht _ IHts]; intros h.
      - exists [], [], 0. rewrite app_nil_r. split; [reflexivity|]. constructor.
      - destruct (Ht h) as (v & e1 & n1 & Hb & Hr).
        destruct (IHts (h ++ e1)) as (vs & e2 & n2 & Hbs & Hrs).
        exists (v :: vs), (e1 ++ e2), (max n1 n2). rewrite app_assoc.
        split; [eapply mapM_cons; eauto|].
        intros fuel Hfuel. constructor; [|apply Hrs; lia].
        apply reify_ext, Hr. lia. }
    destruct (Hall h) as (vs & ext & n & Hb & Hr).
    exists (VRef (length (h ++ ext))), (ext ++ [Arr vs]), (S n).
    rewrite app_assoc. split.
    + simpl. fold (mapM build). now run Hb.
    + intros [|f] Hf; [lia|].
      apply (reify_ref_intro f _ _ (Arr vs) ts); [apply lookup_fresh|].
      eapply Forall2_impl; [apply (Hr f); lia|]. intros; now apply reify_ext.
  - assert (Hall : forall h : heap, exists (ps : props) ext n,
               mapM (fun f : string * tree =>
                       let (key, t') := f in v <- build t' ;; ret (key, v)) fs h =
                 (Ok ps, h ++ ext) /\
               ps.*1 = fs.*1 /\
               forall fuel, n <= fuel ->
                 Forall2 (fun v t => reify fuel (h ++ ext) v = Ok t) ps.*2 fs.*2).
    { clear h. induction IH as [|[key t] fs Ht _ IHfs]; intros h.
      - exists [], [], 0. rewrite app_nil_r. repeat split. constructor.
      - destruct (Ht h) as (v & e1 & n1 & Hb & Hr).
        destruct (IHfs (h ++ e1)) as (ps & e2 & n2 & Hbs & Hkeys & Hrs).
        exists ((key, v) :: ps), (e1 ++ e2), (max n1 n2). rewrite app_assoc.
        split; [|split].
        + eapply mapM_cons; [|exact Hbs]. now run Hb.
        + rewrite !fmap_cons. simpl. f_equal. exact Hkeys.
        + intros fuel Hfuel. rewrite !fmap_cons. simpl.
          constructor; [|apply Hrs; lia].
          apply reify_ext, Hr. lia. }
    destruct (Hall h) as (ps & ext & n & Hb & Hkeys & Hr).
    exists (VRef (length (h ++ ext))), (ext ++ [Obj k ps]), (S n).
    rewrite app_assoc. split.
    + simpl. now run Hb.
    + intros [|f] Hf; [lia|].
      replace (TObj k fs) with (tree_of (Obj k ps) fs.*2)
        by (simpl; now rewrite Hkeys, zip_fst_snd).
      apply reify_ref_intro; [apply lookup_fresh|].
      eapply Forall2_impl; [apply (Hr f); lia|]. intros; now apply reify_ext.
Qed.

(** [cloneModuleToJSON] of a string: the decoded value is copied and handed
    to the validator. *)
Lemma cloneModuleToJSON_string (I : Imports) (h : heap) s :
  exists n, forall fuel, n <= fuel ->
    exists v' ext,
      cloneModuleToJSON fuel (VStr s) h =
        (if validateModuleJson (decompress s) then Ok v'
         else Throw ImportExportError, h ++ ext).
Proof.
  destruct (build_spec (decompress s) h) as (v & e1 & n & Hb & Hr).
  exists n. intros fuel Hfuel.
  destruct (cloneDeep_spec _ _ _ _ (Hr fuel Hfuel)) as (v' & e2 & Hc & Hr' & _).
  exists v', (e1 ++ e2). rewrite app_assoc.
  unfold cloneModuleToJSON, instance_of, bind at 1.
  run Hb. run Hc. unfold snapshot, bind. rewrite Hr'.
  now destruct (validateModuleJson (decompress s)).
Qed.

Lemma Forall2_Forall_impl {A B} (P Q : A -> B -> Prop) (R : A -> Prop) l l' :
  Forall2 P l l' -> Forall R l -> (forall a b, P a b -> R a -> Q a b) ->
  Forall2 Q l l'.
Proof.
  intros HP HR Himp. induction HP as [|a b l l' Hab _ IH]; [constructor|].
  apply Forall_cons in HR as (Ha & HR). constructor; auto.
Qed.

(** Assignment to a property of a record, seen on its structure. *)
Lemma set_field_zip (R : val -> tree -> Prop) k v t : forall (ps : list (string * val)) ts,
  Forall2 R ps.*2 ts -> R v t ->
  exists ts',
    zip (set_assoc k v ps).*1 ts' = set_field k t (zip ps.*1 ts) /\
    Forall2 R (set_assoc k v ps).*2 ts'.
Proof.
  induction ps as [|[k' v'] ps IH]; intros ts Hts Hv; simpl in *.
  - apply Forall2_nil_inv_l in Hts as ->. exists [t]. split; [reflexivity|].
    repeat constructor. exact Hv.
  - apply Forall2_cons_inv_l in Hts as (t0 & ts0 & Ht0 & Hts0 & ->). simpl.
    destruct (String.eqb k k').
    + exists (t :: ts0). split; [reflexivity|]. now constructor.
    + destruct (IH ts0 Hts0 Hv) as (ts' & Hz & Hf).
      exists (t0 :: ts'). split; [simpl; f_equal; exact Hz|]. now constructor.
Qed.

Section UpdateCopy.
Context `{Imports}.

(** [update(src, ['Slot'])] once [cloneModuleToJSON(src)] has made its copy:
    the module holds the copy with the slot name of the record replaced. *)
Lemma Module_update_from fuel (h : heap) this lo k0 (ps0 : list (string * val)) s
    src v' ext k fs :
  get_prop this "_object" h = (Ok (VRef lo), h) -> this <> VRef lo ->
  h !! lo = Some (Obj k0 ps0) -> assoc "Slot" ps0 = Some (VStr s) ->
  cloneModuleToJSON fuel src h = (Ok v', h ++ ext) ->
  reify fuel (h ++ ext) v' = Ok (TObj k fs) ->
  within (length h) (length (h ++ ext)) fuel (h ++ ext) v' ->
  exists h' : heap,
    Module_update fuel this src (Some ["Slot"]) h = (Ok tt, h') /\
    get_prop this "_object" h' = (Ok v', h') /\
    get_prop v' "Slot" h' = (Ok (VStr s), h') /\
    reify fuel h' v' = Ok (TObj k (set_field "Slot" (TStr s) fs)) /\
    (exists lv, v' = VRef lv /\ length h <= lv) /\
    length h <= length h' /\
    (forall l, l < length h -> this <> VRef l -> h' !! l = h !! l) /\
    (forall c b, instance_of this c h = (Ok b, h) ->
                 instance_of this c h' = (Ok b, h')).
Proof.
  intros Hold Hne Hlo Hslot Hclone Hr Hw.
  assert (Hthis : exists lt kt pst, this = VRef lt /\ h !! lt = Some (Obj kt pst)).
  { revert Hold. unfold get_prop. destruct this as [| | | | |lt]; try discriminate.
    destruct (h !! lt) as [[kt pst|]|] eqn:Hl; try discriminate. eauto. }
  destruct Hthis as (lt & kt & pst & -> & Hlt).
  assert (Hltlo : lt <> lo) by congruence.
  assert (Hlt_lt : lt < length h) by (apply lookup_lt_is_Some; eauto).
  assert (Hlo_lt : lo < length h) by (apply lookup_lt_is_Some; eauto).
  destruct (reify_obj_inv _ _ _ _ _ Hr) as (lv & -> & _).
  destruct (reify_ref_inv _ _ _ _ Hr) as (f & c & ts & -> & Hlv & Hkids & Htree).
  destruct (within_ref_inv _ _ _ _ _ Hw) as (Hrange & f' & c' & Hf' & Hlv' & Hin).
  injection Hf' as <-. rewrite Hlv in Hlv'. injection Hlv' as <-.
  destruct c as [kv psv|]; [|discriminate]. simpl in Htree. injection Htree as <- ->.
  simpl in Hkids, Hin.
  set (h1 := h ++ ext) in *.
  set (h2 := <[lt := Obj kt (set_assoc "_object" (VRef lv) pst)]> h1).
  set (h3 := h2 ++ [Obj Plain [("Slot", VStr s)]]).
  set (h4 := <[lv := Obj k (set_assoc "Slot" (VStr s) psv)]> h3).
  assert (Hlen1 : length h <= length h1) by (unfold h1; rewrite length_app; lia).
  assert (Hlen2 : length h2 = length h1) by apply length_insert.
  assert (E1 : set_prop (VRef lt) "_object" (VRef lv) h1 = (Ok tt, h2)).
  { unfold set_prop, h1. now rewrite (lookup_app_l_Some _ _ _ _ Hlt). }
  assert (E2 : get_prop (VRef lt) "_object" h2 = (Ok (VRef lv), h2)).
  { unfold get_prop, h2. rewrite list_lookup_insert_eq by lia.
    now rewrite assoc_set_assoc_eq. }
  assert (E3 : own_props (VRef lo) h2 = (Ok ps0, h2)).
  { unfold own_props, h2. rewrite list_lookup_insert_ne by exact Hltlo.
    unfold h1. now rewrite (lookup_app_l_Some _ _ _ _ Hlo). }
  assert (E4 : own_props (VRef (length h2)) h3 = (Ok [("Slot", VStr s)], h3)).
  { unfold own_props, h3. now rewrite lookup_fresh. }
  assert (E5 : set_prop (VRef lv) "Slot" (VStr s) h3 = (Ok tt, h4)).
  { unfold set_prop, h3. rewrite lookup_app_l by lia.
    unfold h2. rewrite list_lookup_insert_ne by lia. now rewrite Hlv. }
  assert (Hlen4 : length h4 = S (length h1)).
  { unfold h4, h3. rewrite length_insert, length_app, Hlen2. simpl. lia. }
  exists h4. split; [|split; [|split; [|split; [|split; [|split; [|split]]]]]].
  - unfold Module_update. run Hold. run Hclone. run E1. run E2.
    assert (Epick : pick (VRef lo) ["Slot"] h2 = (Ok (VRef (length h2)), h3)).
    { unfold pick. run E3. simpl. now rewrite Hslot. }
    run Epick. unfold assign. run E4. unfold mapM. simpl. unfold bind at 1. now run E5.
  - unfold get_prop, h4, h3. rewrite list_lookup_insert_ne by lia.
    rewrite lookup_app_l by lia. unfold h2.
    rewrite list_lookup_insert_eq by lia. now rewrite assoc_set_assoc_eq.
  - unfold get_prop, h4. rewrite list_lookup_insert_eq
      by (unfold h3; rewrite length_app; lia).
    now rewrite assoc_set_assoc_eq.
  - assert (Hag : forall l, length h <= l < lv -> h4 !! l = h1 !! l).
    { intros l Hl. unfold h4, h3. rewrite list_lookup_insert_ne by lia.
      rewrite lookup_app_l by lia. unfold h2.
      now rewrite list_lookup_insert_ne by lia. }
    assert (Hkids4 : Forall2 (fun v t => reify f h4 v = Ok t) psv.*2 ts).
    { eapply Forall2_Forall_impl; [exact Hkids | exact Hin |].
      intros v t Hv Hv'.
      destruct (within_agree _ _ _ _ h4 _ Hag Hv') as (_ & Heq). now rewrite Heq. }
    destruct (set_field_zip (fun v t => reify f h4 v = Ok t) "Slot" (VStr s) (TStr s)
                psv ts Hkids4) as (ts' & Hz & Hf).
    { now destruct f. }
    rewrite <- Hz.
    apply (reify_ref_intro f h4 lv (Obj k (set_assoc "Slot" (VStr s) psv)) ts');
      [|exact Hf].
    unfold h4. apply list_lookup_insert_eq. unfold h3. rewrite length_app. lia.
  - exists lv. split; [reflexivity | lia].
  - lia.
  - intros l Hl Hnl. unfold h4, h3. rewrite list_lookup_insert_ne by lia.
    rewrite lookup_app_l by lia. unfold h2.
    rewrite list_lookup_insert_ne by congruence.
    unfold h1. now rewrite lookup_app_l by lia.
  - intros c b. unfold instance_of, h4, h3. rewrite Hlt.
    rewrite list_lookup_insert_ne by lia. rewrite lookup_app_l by lia.
    unfold h2. rewrite list_lookup_insert_eq by lia. now intros [= <-].
Qed.

End UpdateCopy.

(** Assignments to the properties of one object leave the other cells as
    they are. *)
Lemma assign_props_frame (h : heap) l (ps : props) :
  is_obj h l ->
  exists rs (h' : heap),
    mapM (fun p : string * val => set_prop (VRef l) p.1 p.2) ps h = (Ok rs, h') /\
    length h' = length h /\
    forall l', l' <> l -> h' !! l' = h !! l'.
Proof.
  revert h. induction ps as [|[k v] ps IH]; intros h Hl.
  - exists [], h. auto.
  - destruct Hl as (c & ps0 & Hc).
    set (h1 := <[l := Obj c (set_assoc k v ps0)]> h).
    assert (Hset : set_prop (VRef l) k v h = (Ok tt, h1)).
    { unfold set_prop. now rewrite Hc. }
    destruct (IH h1) as (rs & h2 & Hrest & Hlen & Hframe).
    { exists c, (set_assoc k v ps0). unfold h1. apply list_lookup_insert_eq.
      eapply lookup_lt_Some; eauto. }
    exists (tt :: rs), h2. split; [eapply mapM_cons; eauto|]. split.
    + rewrite Hlen. apply length_insert.
    + intros l' Hl'. rewrite Hframe by exact Hl'. unfold h1.
      now apply list_lookup_insert_ne.
Qed.

(** [update(m, keep)] for a module [m]: whatever is imported, the call
    returns, and the module then holds an object made by the call; with no
    [keep] it has the structure of the record of [m]. *)
Lemma Module_update_stores fuel (h : heap) this lo m o k fs keep :
  get_prop this "_object" h = (Ok (VRef lo), h) -> is_obj h lo ->
  instance_of m ClsModule h = (Ok true, h) ->
  get_prop m "_object" h = (Ok o, h) ->
  reify fuel h o = Ok (TObj k fs) ->
  exists (h' : heap) lv,
    (forall I : Imports, @Module_update I fuel this m keep h = (Ok tt, h')) /\
    get_prop this "_object" h' = (Ok (VRef lv), h') /\
    length h <= lv /\
    (keep = None -> reify fuel h' (VRef lv) = Ok (TObj k fs)).
Proof.
  intros Hold Hlo Hm Hobj Ht.
  destruct (Module_toJSON_spec _ _ _ _ _ Hobj Ht) as (o' & ext & Hjson & Hr & Hw).
  destruct (reify_obj_inv _ _ _ _ _ Hr) as (lv & -> & Hlv).
  assert (Hthis : exists lt kt pst, this = VRef lt /\ h !! lt = Some (Obj kt pst)).
  { revert Hold. unfold get_prop. destruct this as [| | | | |lt]; try discriminate.
    destruct (h !! lt) as [[kt pst|]|] eqn:Hl; try discriminate. eauto. }
  destruct Hthis as (lt & kt & pst & -> & Hlt).
  assert (Hlt_lt : lt < length h) by (apply lookup_lt_is_Some; eauto).
  pose proof (within_ref_inv _ _ _ _ _ Hw) as (Hrange & _).
  set (h1 := h ++ ext) in *.
  set (h2 := <[lt := Obj kt (set_assoc "_object" (VRef lv) pst)]> h1).
  assert (Hlen1 : length h <= length h1) by (unfold h1; rewrite length_app; lia).
  assert (Hlen2 : length h2 = length h1) by apply length_insert.
  assert (E1 : set_prop (VRef lt) "_object" (VRef lv) h1 = (Ok tt, h2)).
  { unfold set_prop, h1. now rewrite (lookup_app_l_Some _ _ _ _ Hlt). }
  assert (E2 : get_prop (VRef lt) "_object" h2 = (Ok (VRef lv), h2)).
  { unfold get_prop, h2. rewrite list_lookup_insert_eq by lia.
    now rewrite assoc_set_assoc_eq. }
  assert (Hstart : forall (I : Imports) (f : val -> M unit),
             (o0 <- @cloneModuleToJSON I fuel m ;;
              set_prop (VRef lt) "_object" o0 ;;; f o0) h =
             f (VRef lv) h2).
  { intros I f.
    rewrite (bind_ok _ _ _ _ _
               (eq_trans (cloneModuleToJSON_Module fuel h m Hm) Hjson)).
    now run E1. }
  destruct keep as [keys|].
  - assert (Hlo2 : is_obj h2 lo).
    { destruct (set_prop_ok h1 lt "_object" (VRef lv)) as (h2' & Hset & _ & Hkeep).
      - exists kt, pst. unfold h1. now apply lookup_app_l_Some.
      - rewrite E1 in Hset. injection Hset as <-.
        apply Hkeep. now apply is_obj_ext. }
    destruct Hlo2 as (c & ps & Hlo2).
    pose (picked := omap (fun k0 => match assoc k0 ps with
                                    | Some v => Some (k0, v)
                                    | None => None
                                    end) keys).
    set (h3 := h2 ++ [Obj Plain picked]).
    destruct (assign_props_frame h3 lv picked) as (rs & h4 & Hassign & Hlen4 & Hframe).
    { destruct Hlv as (kv & psv & Hcell). exists kv, psv. unfold h3.
      apply lookup_app_l_Some. unfold h2.
      rewrite list_lookup_insert_ne by lia. exact Hcell. }
    exists h4, lv. split; [|split; [|split; [lia | discriminate]]].
    + intros I. unfold Module_update. run Hold. rewrite (Hstart I). run E2.
      unfold pick, own_props, bind at 1, bind at 1. rewrite Hlo2.
      unfold alloc at 1, assign, own_props, bind at 1, bind at 1.
      fold picked. fold h3. unfold h3 at 1. rewrite lookup_fresh.
      now rewrite Hassign.
    + unfold get_prop. rewrite Hframe by lia. unfold h3.
      rewrite lookup_app_l by lia. unfold h2.
      rewrite list_lookup_insert_eq by lia. now rewrite assoc_set_assoc_eq.
  - exists h2, lv. split; [|split; [exact E2 | split; [lia|]]].
    + intros I. unfold Module_update. run Hold. now rewrite (Hstart I).
    + intros _.
      assert (Hag : forall l, length h <= l < length h1 -> h2 !! l = h1 !! l).
      { intros l Hl. unfold h2. now rewrite list_lookup_insert_ne by lia. }
      destruct (within_agree _ _ _ _ h2 _ Hag Hw) as (_ & Heq). now rewrite Heq.
Qed.

(** C9.  Building a module from an existing module [m], by the constructor
    or by [update], returns normally and gives the same store whatever the
    validator and the other imported functions are: the new record is the
    [toJSON()] of [m], made of new cells, and nothing is validated.  After
    [update(m, keep)] the module holds an object made by the call; it has
    the structure of the record of [m] when [keep] is left out, and that
    structure with the old slot name when [keep] is [['Slot']].  A raw object
    and a string are turned down exactly when the validator rejects them. *)
Theorem Module_from_Module_unvalidated (I : Imports) (fuel : nat) (h : heap)
    (m o : val) (t : tree) (ship : val) :
  instance_of m ClsModule h = (Ok true, h) ->
  get_prop m "_object" h = (Ok o, h) ->
  reify fuel h o = Ok t ->
  (exists o' ext,
     let h' := (h ++ [Module_cell o' ship]) ++ ext in
     (forall I' : Imports,
        @Module_new I' fuel m ship h = (Ok (VRef (length h)), h')) /\
     reify fuel h' o' = Ok t /\
     within (S (length h)) (length h') fuel h' o') /\
  (forall this lo keep,
     get_prop this "_object" h = (Ok (VRef lo), h) -> is_obj h lo ->
     (exists k fs, t = TObj k fs) ->
     exists (h' : heap) lv,
       (forall I' : Imports,
          @Module_update I' fuel this m keep h = (Ok tt, h')) /\
       get_prop this "_object" h' = (Ok (VRef lv), h') /\
       length h <= lv /\
       (keep = None -> reify fuel h' (VRef lv) = Ok t) /\
       (forall k0 ps0 s k fs,
          keep = Some ["Slot"] -> this <> VRef lo ->
          h !! lo = Some (Obj k0 ps0) -> assoc "Slot" ps0 = Some (VStr s) ->
          t = TObj k fs ->
          reify fuel h' (VRef lv) =
            Ok (TObj k (set_field "Slot" (TStr s) fs)))) /\
  (forall l t',
     instance_of (VRef l) ClsModule h = (Ok false, h) ->
     reify fuel h (VRef l) = Ok t' ->
     (@Module_new I fuel (VRef l) ship h).1 =
       if validateModuleJson t' then Ok (VRef (length h))
       else Throw ImportExportError) /\
  (forall s, s <> "" ->
     exists n, forall fuel', n <= fuel' ->
       (@Module_new I fuel' (VStr s) ship h).1 =
         if validateModuleJson (decompress s) then Ok (VRef (length h))
         else Throw ImportExportError).
Proof.
  intros Hm Hobj Ht. repeat split.
  - destruct (Module_toJSON_spec fuel (h ++ [Module_blank]) m o t
                (get_prop_ext _ _ _ _ _ Hobj) (reify_ext _ _ _ _ _ Ht))
      as (o' & ext & Hjson & Hr & Hw).
    exists o', ext. simpl.
    assert (Hag : forall l, S (length h) <= l < length ((h ++ [Module_blank]) ++ ext) ->
                    ((h ++ [Module_cell o' ship]) ++ ext) !! l =
                    ((h ++ [Module_blank]) ++ ext) !! l).
    { intros l Hl. apply agree_middle. lia. }
    rewrite length_app in Hw. simpl in Hw. rewrite Nat.add_1_r in Hw.
    destruct (within_agree _ _ _ _ _ _ Hag Hw) as (Hw' & Hr').
    split; [|split].
    + intros I'. apply Module_new_run.
      * apply instance_of_true_inv in Hm as (l & ps & -> & _). reflexivity.
      * rewrite cloneModuleToJSON_Module; [exact Hjson|].
        now apply instance_of_ext.
    + now rewrite Hr'.
    + replace (length ((h ++ [Module_cell o' ship]) ++ ext))
        with (length ((h ++ [Module_blank]) ++ ext)); [exact Hw'|].
      rewrite !length_app. reflexivity.
  - intros this lo keep Hold Hlo (k & fs & ->).
    destruct (Module_update_stores fuel h this lo m o k fs keep Hold Hlo Hm Hobj Ht)
      as (h' & lv & Hrun & Hget & Hfresh & Hnone).
    exists h', lv. split; [exact Hrun|]. split; [exact Hget|].
    split; [exact Hfresh|]. split; [exact Hnone|].
    intros k0 ps0 s k' fs' -> Hne Hcell Hslot [= <- <-].
    destruct (Module_toJSON_spec _ _ _ _ _ Hobj Ht) as (v' & ext & Hjson & Hr & Hw).
    rewrite <- (cloneModuleToJSON_Module (H := I) fuel h m Hm) in Hjson.
    destruct (@Module_update_from I fuel h this lo k0 ps0 s m v' ext k fs
                Hold Hne Hcell Hslot Hjson Hr Hw)
      as (h'' & Hu & Ho' & _ & Hr' & _).
    rewrite (Hrun I) in Hu. injection Hu as <-.
    rewrite Hget in Ho'. injection Ho' as <-. exact Hr'.
  - intros l t' Hraw Ht'.
    destruct (cloneModuleToJSON_raw fuel (h ++ [Module_blank]) l t'
                (instance_of_ext _ _ _ _ _ Hraw) (reify_ext _ _ _ _ _ Ht'))
      as (v' & ext & Hc & _).
    destruct (validateModuleJson t').
    + now rewrite (Module_new_run fuel h ext (VRef l) ship v' eq_refl Hc).
    + now rewrite (Module_new_raise fuel h _ (VRef l) ship _ eq_refl Hc).
  - intros s Hs.
    destruct (cloneModuleToJSON_string I (h ++ [Module_blank]) s) as (n & Hn).
    exists n. intros fuel' Hfuel. destruct (Hn fuel' Hfuel) as (v' & ext & Hc).
    assert (Htruthy : truthy (VStr s) = true).
    { simpl. destruct (String.eqb s "") eqn:E; [|reflexivity].
      apply String.eqb_eq in E. contradiction. }
    destruct (validateModuleJson (decompress s)).
    + now rewrite (Module_new_run fuel' h ext (VStr s) ship v' Htruthy Hc).
    + now rewrite (Module_new_raise fuel' h _ (VStr s) ship _ Htruthy Hc).
Qed.

(** ** Ship.toJSON *)

Lemma get_prop_eq o k (h : heap) r :
  (get_prop o k h).1 = r -> get_prop o k h = (r, h).
Proof.
  intros <-. rewrite <- (get_prop_heap o k h) at 3.
  now destruct (get_prop o k h).
Qed.

(** [m.toJSON()] on each module of a list: new values with the structure of
    the modules' records; the store is only extended. *)
Lemma modules_toJSON f (S_toJSON : val -> M val) ms : forall ts (h : heap),
  Forall2 (fun m t =>
             instance_of m ClsModule h = (Ok true, h) /\
             exists o, get_prop m "_object" h = (Ok o, h) /\
                       reify f h o = Ok t) ms ts ->
  exists copies ext,
    mapM (invoke_toJSON S_toJSON f) ms h = (Ok copies, h ++ ext) /\
    Forall2 (fun c t =>
               reify f (h ++ ext) c = Ok t /\
               within (length h) (length (h ++ ext)) f (h ++ ext) c) copies ts.
Proof.
  induction ms as [|m ms IH]; intros ts h Hms.
  - inversion Hms; subst. exists [], []. rewrite app_nil_r.
    split; [reflexivity | constructor].
  - inversion Hms as [|? t ? ts' (Hm & o & Hobj & Ht) Hrest]; subst.
    destruct (Module_toJSON_spec _ _ _ _ _ Hobj Ht) as (c & e1 & Hjson & Hr & Hw).
    destruct (IH ts' (h ++ e1)) as (cs & e2 & Hcs & Hall).
    { eapply Forall2_impl; [exact Hrest|].
      intros m' t' (Hm' & o' & Hobj' & Ht'). split; [now apply instance_of_ext|].
      exists o'. split; [now apply get_prop_ext | now apply reify_ext]. }
    exists (c :: cs), (e1 ++ e2). rewrite app_assoc. split.
    + eapply mapM_cons; [|exact Hcs]. unfold invoke_toJSON. now run Hm.
    + constructor.
      * split; [now apply reify_ext|].
        eapply within_weaken; [| |apply within_ext; exact Hw];
          [lia | rewrite !length_app; lia].
      * eapply Forall2_impl; [exact Hall|]. intros c' t' (Hr' & Hw').
        split; [assumption|].
        eapply within_weaken; [| |exact Hw']; [rewrite length_app; lia | lia].
Qed.

(** [toJSON()] of a ship whose [Modules] is an array of modules: the store
    is extended by the copies of the module records, the array of these
    copies, and the returned record; no existing cell is changed. *)
Lemma Ship_toJSON_frame fuel (h : heap) this lo k (ps : props) la ms ts :
  0 < fuel ->
  get_prop this "_object" h = (Ok (VRef lo), h) ->
  h !! lo = Some (Obj k ps) ->
  assoc "Modules" ps = Some (VRef la) ->
  h !! la = Some (Arr ms) ->
  Forall2 (fun m t =>
             instance_of m ClsModule h = (Ok true, h) /\
             exists o, get_prop m "_object" h = (Ok o, h) /\
                       reify fuel h o = Ok t) ms ts ->
  exists ext copies,
    let la' := length (h ++ ext) in
    let record := Obj k (set_assoc "Modules" (VRef la') ps) in
    let h' := (h ++ ext) ++ [Arr copies; record] in
    Ship_toJSON fuel this h = (Ok (VRef (S la')), h') /\
    Forall2 (fun c t =>
               reify fuel h' c = Ok t /\
               within (length h) la' fuel h' c) copies ts.
Proof.
  intros Hfuel Hobj Hlo Hmods Hla Hms.
  destruct fuel as [|f]; [lia|].
  destruct (modules_toJSON (S f) (Ship_toJSON f) ms ts h Hms)
    as (copies & ext & Hcopies & Hall).
  exists ext, copies. cbv zeta. split.
  - change (Ship_toJSON (S f) this h)
      with (Ship_toJSON_with (invoke_toJSON (Ship_toJSON f) (S f)) this h).
    unfold Ship_toJSON_with. run Hobj.
    assert (Hget : get_prop (VRef lo) "Modules" h = (Ok (VRef la), h)).
    { unfold get_prop. now rewrite Hlo, Hmods. }
    run Hget. run Hobj.
    unfold lodash_map, collection_values, bind at 1, bind at 1.
    rewrite Hla. simpl. unfold bind at 1, bind at 1. rewrite Hcopies.
    unfold alloc at 1. unfold bind at 1.
    set (h1 := (h ++ ext) ++ [Arr copies]).
    set (ps2 := set_assoc "Modules" (VRef (length (h ++ ext))) ps).
    assert (Hlo1 : h1 !! lo = Some (Obj k ps)).
    { unfold h1. now do 2 apply lookup_app_l_Some. }
    assert (Hset : set_prop (VRef lo) "Modules" (VRef (length (h ++ ext))) h1 =
                   (Ok tt, <[lo := Obj k ps2]> h1)).
    { unfold set_prop. now rewrite Hlo1. }
    rewrite Hset.
    assert (Hobj1 : get_prop this "_object" h1 = (Ok (VRef lo), h1)).
    { unfold h1. now do 2 apply get_prop_ext. }
    assert (Hobj2 : get_prop this "_object" (<[lo := Obj k ps2]> h1) =
                    (Ok (VRef lo), <[lo := Obj k ps2]> h1)).
    { apply get_prop_eq.
      rewrite (get_after_set_ne _ _ _ _ _ this "_object" Hset) by discriminate.
      now rewrite Hobj1. }
    rewrite Hobj2.
    assert (Hlt : lo < length h1) by (eapply lookup_lt_Some; eauto).
    unfold clone, load, bind at 1, bind at 1.
    rewrite list_lookup_insert_eq by assumption.
    unfold alloc at 1.
    rewrite (bind_ok _ _ _ _ _ (get_prop_ext _ _ _ _ [Obj k ps2] Hobj2)).
    unfold set_prop, bind.
    rewrite (lookup_app_l_Some _ _ _ _ (list_lookup_insert_eq _ _ _ Hlt)).
    replace (set_assoc "Modules" (VRef la) ps2) with ps
      by (symmetry; apply set_assoc_restore, Hmods).
    rewrite insert_app_l by (rewrite length_insert; exact Hlt).
    rewrite list_insert_insert_eq, (list_insert_id _ _ _ Hlo1).
    rewrite length_insert. unfold ret, h1. rewrite length_app. simpl.
    rewrite Nat.add_1_r, <- !app_assoc. reflexivity.
  - eapply Forall2_impl; [exact Hall|]. intros c t (Hr & Hw).
    split; [now apply reify_ext | now apply within_ext].
Qed.

(** C10.  [toJSON()] of a ship whose [Modules] is an array of modules
    returns a new record and leaves the ship as it was: every cell of the
    store before the call, so the array of modules, the modules, the ship's
    record and its runtime state, is unchanged.  The entries of the returned
    record's [Modules] have the structure of the modules' records and reach
    only cells that did not exist before the call. *)
Theorem Ship_toJSON_leaves_ship_unchanged (fuel : nat) (h : heap) (this : val)
    (lo : loc) (k : cls) (ps : props) (la : loc) (ms : list val)
    (ts : list tree) :
  0 < fuel ->
  get_prop this "_object" h = (Ok (VRef lo), h) ->
  h !! lo = Some (Obj k ps) ->
  assoc "Modules" ps = Some (VRef la) ->
  h !! la = Some (Arr ms) ->
  Forall2 (fun m t =>
             instance_of m ClsModule h = (Ok true, h) /\
             exists o, get_prop m "_object" h = (Ok o, h) /\
                       reify fuel h o = Ok t) ms ts ->
  exists new r la' copies,
    Ship_toJSON fuel this h = (Ok (VRef r), h ++ new) /\
    (forall l c, h !! l = Some c -> (h ++ new) !! l = Some c) /\
    (h ++ new) !! la = Some (Arr ms) /\
    (h ++ new) !! r = Some (Obj k (set_assoc "Modules" (VRef la') ps)) /\
    (h ++ new) !! la' = Some (Arr copies) /\
    length h <= r /\ length h <= la' /\
    Forall2 (fun c t => reify fuel (h ++ new) c = Ok t) copies ts /\
    (forall c l, In c copies -> reach (h ++ new) c l -> length h <= l).
Proof.
  intros Hfuel Hobj Hlo Hmods Hla Hms.
  destruct (Ship_toJSON_frame fuel h this lo k ps la ms ts
              Hfuel Hobj Hlo Hmods Hla Hms) as (ext & copies & Hrun & Hall).
  cbv zeta in Hrun, Hall.
  set (record := Obj k (set_assoc "Modules" (VRef (length (h ++ ext))) ps)) in *.
  exists (ext ++ [Arr copies; record]), (S (length (h ++ ext))),
    (length (h ++ ext)), copies.
  rewrite app_assoc. repeat split.
  - exact Hrun.
  - intros l c Hl. rewrite <- app_assoc. now apply lookup_app_l_Some.
  - rewrite <- app_assoc. now apply lookup_app_l_Some.
  - change [Arr copies; record] with ([Arr copies] ++ [record]).
    rewrite app_assoc.
    replace (S (length (h ++ ext))) with (length ((h ++ ext) ++ [Arr copies]))
      by (rewrite (length_app _ [_]); simpl; lia).
    apply lookup_fresh.
  - now apply list_lookup_middle.
  - rewrite length_app. lia.
  - rewrite length_app. lia.
  - eapply Forall2_impl; [exact Hall|]. now intros c t [Hr _].
  - intros c l Hin Hreach.
    apply list_elem_of_In, list_elem_of_lookup in Hin as (i & Hi).
    destruct (Forall2_lookup_l _ _ _ _ _ Hall Hi) as (t & _ & _ & Hw).
    eapply within_reach in Hw; [|exact Hreach]. lia.
Qed.

(** ** Depth of a structure *)

Lemma tree_of_inj c ts c' ts' :
  length ts = length (cell_values c) -> length ts' = length (cell_values c') ->
  tree_of c ts = tree_of c' ts' -> ts = ts'.
Proof.
  destruct c as [k ps|vs], c' as [k' ps'|vs']; simpl; try discriminate.
  - rewrite !length_fmap. intros Hl Hl' [= _ Hzip].
    apply (f_equal (fmap snd)) in Hzip.
    rewrite !snd_zip in Hzip by (rewrite length_fmap; lia). exact Hzip.
  - now intros _ _ [= ->].
Qed.

(** The fuel that unfolds one value to [t] unfolds any value to [t]. *)
Lemma reify_depth f1 : forall (h1 h2 : heap) v1 v2 f2 t,
  reify f1 h1 v1 = Ok t -> reify f2 h2 v2 = Ok t -> reify f1 h2 v2 = Ok t.
Proof.
  induction f1 as [|f IH]; intros h1 h2 v1 v2 f2 t H1 H2.
  - destruct v1 as [| | | | |l1]; try discriminate;
      injection H1 as <-;
      destruct v2 as [| | | | |l2];
      try (destruct f2; discriminate); try (destruct f2; exact H2);
      apply reify_ref_inv in H2 as (? & [] & ? & _ & _ & _ & ?); discriminate.
  - destruct v1 as [| | | | |l1].
    1-5: injection H1 as <-;
      destruct v2 as [| | | | |l2];
      try (destruct f2; discriminate); try (destruct f2; exact H2);
      apply reify_ref_inv in H2 as (? & [] & ? & _ & _ & _ & ?); discriminate.
    apply reify_ref_inv in H1 as (f' & c1 & ts1 & [= <-] & Hl1 & Hts1 & ->).
    destruct v2 as [| | | | |l2];
      try (destruct f2, c1; discriminate).
    apply reify_ref_inv in H2 as (f2' & c2 & ts2 & -> & Hl2 & Hts2 & Heq).
    assert (ts1 = ts2) as <-.
    { eapply tree_of_inj; [| |exact Heq]; symmetry; eapply Forall2_length; eauto. }
    rewrite Heq. apply reify_ref_intro; [assumption|].
    clear Heq Hl2. revert Hts1 Hts2. generalize (cell_values c1) (cell_values c2).
    intros l1' l2' Hts1. revert l2'.
    induction Hts1 as [|x t xs ts Hx _ IHxs]; intros l2' Hts2;
      inversion Hts2; subst; constructor; eauto.
Qed.

(** ** Properties and fields *)

Lemma set_assoc_twice k v w ps :
  set_assoc k v (set_assoc k w ps) = set_assoc k v ps.
Proof.
  induction ps as [|[k' v'] ps IH]; simpl.
  - now rewrite String.eqb_refl.
  - destruct (String.eqb k k') eqn:E; simpl.
    + now rewrite String.eqb_refl.
    + now rewrite E, IH.
Qed.

(** Replacing the value of a property that corresponds to the field [t] by a
    value that corresponds to [t] as well. *)
Lemma set_assoc_Forall2 (R : val -> tree -> Prop) k v t : forall (ps : props) ts,
  Forall2 R ps.*2 ts ->
  assoc k (zip ps.*1 ts) = Some t ->
  R v t ->
  Forall2 R (set_assoc k v ps).*2 ts /\ (set_assoc k v ps).*1 = ps.*1.
Proof.
  induction ps as [|[k' v'] ps IH]; intros ts Hall Hk Hv.
  - inversion Hall; subst. discriminate.
  - rewrite fmap_cons in Hall. inversion Hall as [|? t' ? ts' Hv' Hrest]; subst.
    simpl in Hk. simpl. destruct (String.eqb k k') eqn:E.
    + injection Hk as ->. apply String.eqb_eq in E. subst k'.
      rewrite !fmap_cons. simpl. split; [now constructor | reflexivity].
    + destruct (IH ts' Hrest Hk Hv) as (Hall' & Hkeys).
      rewrite !fmap_cons. simpl. split; [now constructor | now rewrite Hkeys].
Qed.

(** The value of a property whose field is [t]. *)
Lemma assoc_Forall2 (R : val -> tree -> Prop) k t : forall (ps : props) ts,
  Forall2 R ps.*2 ts ->
  assoc k (zip ps.*1 ts) = Some t ->
  exists v, assoc k ps = Some v /\ R v t.
Proof.
  induction ps as [|[k' v'] ps IH]; intros ts Hall Hk.
  - inversion Hall; subst. discriminate.
  - rewrite fmap_cons in Hall. inversion Hall as [|? t' ? ts' Hv' Hrest]; subst.
    simpl in Hk. simpl. destruct (String.eqb k k') eqn:E.
    + injection Hk as ->. now exists v'.
    + now apply (IH ts').
Qed.

(** ** Modules made by the Ship constructor *)

Lemma module_at_agree a fuel (h h' : heap) m t :
  (forall l, a <= l < length h -> h' !! l = h !! l) ->
  length h <= length h' ->
  module_at a fuel h m t -> module_at a fuel h' m t.
Proof.
  intros Hag Hlen (lm & o & ship & -> & Ha & Hl & Hr & Hw).
  destruct (within_agree _ _ _ _ _ _ Hag Hw) as (Hw' & Hr').
  exists lm, o, ship. repeat split; auto.
  - rewrite Hag; [assumption|]. split; [assumption|]. eapply lookup_lt_Some; eauto.
  - congruence.
  - eapply within_weaken; [| |exact Hw']; lia.
Qed.

Lemma module_at_ext a fuel (h ext : heap) m t :
  module_at a fuel h m t -> module_at a fuel (h ++ ext) m t.
Proof.
  apply module_at_agree.
  - intros l Hl. apply lookup_app_l. lia.
  - rewrite length_app. lia.
Qed.

Lemma module_at_weaken a a' fuel (h : heap) m t :
  a' <= a -> module_at a fuel h m t -> module_at a' fuel h m t.
Proof.
  intros Ha (lm & o & ship & -> & Hlm & Hl & Hr & Hw).
  exists lm, o, ship. repeat split; auto; try lia.
  eapply within_weaken; [| |exact Hw]; lia.
Qed.

Lemma module_at_facts a fuel (h : heap) m t :
  module_at a fuel h m t ->
  instance_of m ClsModule h = (Ok true, h) /\
  exists o, get_prop m "_object" h = (Ok o, h) /\ reify fuel h o = Ok t.
Proof.
  intros (lm & o & ship & -> & _ & Hl & Hr & _). unfold Module_cell in Hl.
  split; [unfold instance_of; now rewrite Hl|].
  exists o. split; [unfold get_prop; now rewrite Hl | assumption].
Qed.

Section ShipConstruction.
Context `{Imports}.

(** [new Module(raw, ship)] for a raw object that the validator accepts. *)
Lemma Module_new_raw fuel (h : heap) raw t ship :
  reify fuel h raw = Ok t ->
  is_plain_object t = true -> validateModuleJson t = true ->
  exists ext,
    Module_new fuel raw ship h = (Ok (VRef (length h)), h ++ ext) /\
    module_at (length h) fuel (h ++ ext) (VRef (length h)) t.
Proof.
  intros Ht Hplain Hvalid.
  destruct t as [| | | | | |k fs]; try discriminate. destruct k; try discriminate.
  destruct (reify_obj_inv _ _ _ _ _ Ht) as (l & -> & _).
  assert (Hraw : instance_of (VRef l) ClsModule h = (Ok false, h)).
  { apply reify_ref_inv in Ht as (f & c & ts & _ & Hl & _ & Heq).
    unfold instance_of. rewrite Hl. destruct c as [k ps|]; [|discriminate].
    now injection Heq as <- _. }
  destruct (cloneModuleToJSON_raw fuel (h ++ [Module_blank]) l _
              (instance_of_ext _ _ _ _ _ Hraw) (reify_ext _ _ _ _ _ Ht))
    as (o' & ext & Hc & Hr & Hw).
  rewrite Hvalid in Hc.
  exists (Module_cell o' ship :: ext). split.
  - rewrite (Module_new_run fuel h ext (VRef l) ship o' eq_refl Hc).
    now rewrite <- app_assoc.
  - assert (Hag : forall l0, S (length h) <= l0 < length ((h ++ [Module_blank]) ++ ext) ->
                    ((h ++ [Module_cell o' ship]) ++ ext) !! l0 =
                    ((h ++ [Module_blank]) ++ ext) !! l0).
    { intros l0 Hl0. apply agree_middle. lia. }
    rewrite length_app in Hw. simpl in Hw. rewrite Nat.add_1_r in Hw.
    destruct (within_agree _ _ _ _ _ _ Hag Hw) as (Hw' & Hr').
    change (h ++ Module_cell o' ship :: ext)
      with (h ++ [Module_cell o' ship] ++ ext).
    rewrite app_assoc.
    exists (length h), o', ship. repeat split.
    + lia.
    + apply lookup_middle.
    + now rewrite Hr'.
    + eapply within_weaken; [| |exact Hw'];
        [lia | rewrite !length_app; simpl; lia].
Qed.

(** The modules the Ship constructor makes from an array of raw records. *)
Lemma modules_new fuel ship raws : forall ts (h : heap),
  Forall2 (fun raw t =>
             reify fuel h raw = Ok t /\
             is_plain_object t = true /\ validateModuleJson t = true) raws ts ->
  exists ms ext,
    mapM (fun moduleObject => Module_new fuel moduleObject ship) raws h =
      (Ok ms, h ++ ext) /\
    Forall2 (module_at (length h) fuel (h ++ ext)) ms ts.
Proof.
  induction raws as [|raw raws IH]; intros ts h Hall.
  - inversion Hall; subst. exists [], []. rewrite app_nil_r.
    split; [reflexivity | constructor].
  - inversion Hall as [|? t ? ts' (Ht & Hplain & Hvalid) Hrest]; subst.
    destruct (Module_new_raw fuel h raw t ship Ht Hplain Hvalid) as (e1 & Hnew & Hm).
    destruct (IH ts' (h ++ e1)) as (ms & e2 & Hms & Hall').
    { eapply Forall2_impl; [exact Hrest|]. intros raw' t' (Ht' & ?).
      split; [now apply reify_ext | assumption]. }
    exists (VRef (length h) :: ms), (e1 ++ e2). rewrite app_assoc. split.
    + eapply mapM_cons; eauto.
    + constructor; [now apply module_at_ext|].
      eapply Forall2_impl; [exact Hall'|]. intros m t'.
      apply module_at_weaken. rewrite length_app. lia.
Qed.

End ShipConstruction.

Lemma reify_arr_inv fuel (h : heap) v ts :
  reify fuel h v = Ok (TArr ts) ->
  exists l vs f,
    v = VRef l /\ fuel = S f /\ h !! l = Some (Arr vs) /\
    Forall2 (fun v t => reify f h v = Ok t) vs ts.
Proof.
  destruct v as [| | | | |l]; try (destruct fuel; discriminate).
  intros Hv. apply reify_ref_inv in Hv as (f & c & ts' & -> & Hl & Hts & Heq).
  destruct c as [|vs]; [discriminate|]. injection Heq as ->.
  now exists l, vs, f.
Qed.

Lemma lookup_middle2 (h e1 e2 : heap) c :
  (((h ++ [c]) ++ e1) ++ e2) !! length h = Some c.
Proof. rewrite <- (app_assoc _ e1 e2). apply lookup_middle. Qed.

Lemma insert_middle2 (h e1 e2 : heap) c c' :
  <[length h := c']> (((h ++ [c]) ++ e1) ++ e2) = ((h ++ [c']) ++ e1) ++ e2.
Proof. rewrite <- !(app_assoc _ e1 e2). apply insert_middle. Qed.

Section ShipRoundTrip.
Context `{Imports}.

(** The ship made by the constructor from a valid raw record: its record is
    a copy of the input with [Modules] replaced by an array of modules, one
    per raw module record and with that record's structure. *)
Lemma Ship_new_spec fuel (h : heap) v fs mts :
  reify fuel h v = Ok (TObj Plain fs) ->
  validateShipJson (TObj Plain fs) = true ->
  assoc "Modules" fs = Some (TArr mts) ->
  Forall (fun m => is_plain_object m = true /\ validateModuleJson m = true) mts ->
  exists f h' lo (ps0 : props) la ms,
    fuel = S f /\
    Ship_new fuel v h = (Ok (VRef (length h)), h') /\
    get_prop (VRef (length h)) "_object" h' = (Ok (VRef lo), h') /\
    h' !! lo = Some (Obj Plain (set_assoc "Modules" (VRef la) ps0)) /\
    h' !! la = Some (Arr ms) /\
    Forall2 (module_at (length h) fuel h') ms mts /\
    ps0.*1 = fs.*1 /\
    Forall2 (fun v t => reify f h' v = Ok t) ps0.*2 fs.*2.
Proof.
  intros Hx Hvalid Hmods Hmts.
  destruct (reify_obj_inv _ _ _ _ _ Hx) as (lv & -> & _).
  set (hA := h ++ [Obj ClsShip [("_object", VNull)]]).
  destruct (build_spec default_state hA) as (st & eS & _ & Hstate & _).
  set (hC := (h ++ [Ship_cell VNull st]) ++ eS).
  assert (HxC : reify fuel hC (VRef lv) = Ok (TObj Plain fs)).
  { unfold hC. rewrite <- app_assoc. now apply reify_ext. }
  destruct (cloneDeep_spec _ _ _ _ HxC) as (o & eO & Hclone & Hr & Hw).
  set (hG := ((h ++ [Ship_cell o st]) ++ eS) ++ eO).
  assert (HlenG : length hG = length (hC ++ eO)).
  { unfold hG, hC. rewrite !length_app. reflexivity. }
  assert (HlenC : length h < length hC).
  { unfold hC. rewrite !length_app. simpl. lia. }
  assert (HagG : forall l, length hC <= l < length (hC ++ eO) ->
                   hG !! l = (hC ++ eO) !! l).
  { intros l Hl. unfold hG, hC. rewrite <- !(app_assoc _ eS eO).
    apply agree_middle. lia. }
  destruct (within_agree _ _ _ _ _ _ HagG Hw) as (HwG & HrG).
  rewrite Hr in HrG.
  destruct (reify_obj_inv _ _ _ _ _ HrG) as (lo & -> & _).
  pose proof HrG as Hinv.
  apply reify_ref_inv in Hinv as (f & c & ts & -> & Hlo & Hts & Heq).
  destruct c as [k ps0|]; [|discriminate].
  simpl in Heq. injection Heq as <- Hfs. simpl in Hts.
  assert (Hlen : length ps0.*1 = length ts).
  { rewrite <- (Forall2_length _ _ _ Hts). now rewrite !length_fmap. }
  assert (Hkeys : ps0.*1 = fs.*1) by (rewrite Hfs; symmetry; apply fst_zip; lia).
  assert (Hvals : fs.*2 = ts) by (rewrite Hfs; apply snd_zip; lia).
  rewrite Hfs in Hmods.
  destruct (assoc_Forall2 _ _ _ _ _ Hts Hmods) as (vraw & Hraw & Hrraw).
  apply reify_arr_inv in Hrraw as (lraw & raws & f' & -> & -> & Hlraw & Hraws).
  assert (Hall : Forall2 (fun raw t =>
                    reify (S (S f')) hG raw = Ok t /\
                    is_plain_object t = true /\ validateModuleJson t = true)
                   raws mts).
  { clear -Hraws Hmts. induction Hraws as [|raw t raws mts Hraw _ IH];
      [constructor|]. inversion Hmts; subst. constructor; [|now apply IH].
    split; [|assumption]. eapply reify_mono; [exact Hraw | lia]. }
  destruct (modules_new (S (S f')) (VRef (length h)) raws mts hG Hall)
    as (ms & eM & Hms & Hmods_at).
  set (la := length (hG ++ eM)).
  set (hJ := (hG ++ eM) ++ [Arr ms]).
  set (hK := <[lo := Obj Plain (set_assoc "Modules" (VRef la) ps0)]> hJ).
  assert (HloG : lo < length hG) by (eapply lookup_lt_Some; eauto).
  assert (HloJ : hJ !! lo = Some (Obj Plain ps0)).
  { unfold hJ. now do 2 apply lookup_app_l_Some. }
  assert (Hset : set_prop (VRef lo) "Modules" (VRef la) hJ = (Ok tt, hK)).
  { unfold set_prop. now rewrite HloJ. }
  assert (HlenK : length hK = length hJ) by apply length_insert.
  assert (HagK : forall l, l <> lo -> hK !! l = hJ !! l).
  { intros l Hl. unfold hK. now apply list_lookup_insert_ne. }
  exists (S f'), hK, lo, ps0, la, ms. repeat split.
  - (* the run *)
    unfold Ship_new, alloc, bind at 1. unfold set_prop at 1, bind at 1.
    rewrite lookup_fresh, insert_fresh. simpl set_assoc. fold hA.
    unfold bind at 1. rewrite Hstate.
    unfold set_prop at 1, bind at 1. unfold hA.
    rewrite lookup_middle. simpl set_assoc. rewrite insert_middle.
    fold (Ship_cell VNull st). fold hC.
    unfold ret at 1, bind at 1. unfold snapshot at 1, bind at 1.
    rewrite HxC, Hvalid. unfold negb.
    unfold bind at 1. rewrite Hclone.
    unfold set_prop at 1, bind at 1. unfold hC, Ship_cell at 1.
    rewrite lookup_middle2. simpl set_assoc. rewrite insert_middle2.
    fold (Ship_cell (VRef lo) st). fold hG.
    assert (Hthis : get_prop (VRef (length h)) "_object" hG = (Ok (VRef lo), hG)).
    { unfold get_prop, hG. now rewrite lookup_middle2. }
    run Hthis. run Hthis.
    assert (Hget : get_prop (VRef lo) "Modules" hG = (Ok (VRef lraw), hG)).
    { unfold get_prop. now rewrite Hlo, Hraw. }
    run Hget.
    unfold lodash_map, collection_values, bind at 1, bind at 1.
    rewrite Hlraw. simpl cell_values. unfold bind at 1, bind at 1.
    rewrite Hms. unfold alloc at 1. fold la. fold hJ.
    now rewrite Hset.
  - apply get_prop_eq.
    rewrite (get_after_set_ne _ _ _ _ _ (VRef (length h)) "_object" Hset)
      by discriminate.
    unfold get_prop, hJ, hG.
    rewrite (lookup_app_l_Some _ _ _ _
               (lookup_app_l_Some _ _ _ _ (lookup_middle2 h eS eO _))).
    reflexivity.
  - unfold hK. apply list_lookup_insert_eq. unfold hJ.
    rewrite !length_app. lia.
  - rewrite HagK by (unfold la; rewrite length_app; lia).
    apply lookup_fresh.
  - eapply Forall2_impl; [exact Hmods_at|]. intros m t Hm.
    apply (module_at_weaken (length hG)); [rewrite HlenG, length_app; lia|].
    apply (module_at_agree _ _ hJ).
    + intros l Hl. apply HagK. lia.
    + lia.
    + now apply module_at_ext.
  - exact Hkeys.
  - rewrite Hvals.
    apply within_ref_inv in HwG as (Hrange & f0 & c & [= <-] & Hc & Hchildren).
    rewrite Hlo in Hc. injection Hc as <-.
    change (cell_values (Obj Plain ps0)) with ps0.*2 in Hchildren.
    assert (Hag : forall l, length hC <= l < lo -> hK !! l = hG !! l).
    { intros l Hl. rewrite HagK by lia. unfold hJ.
      rewrite <- app_assoc. apply lookup_app_l. lia. }
    clear -Hts Hchildren Hag. revert Hchildren.
    induction Hts as [|x t xs ts' Hx _ IH]; intros Hchildren; [constructor|].
    inversion Hchildren as [|? ? Hwx Hwxs]; subst. constructor; [|now apply IH].
    destruct (within_agree _ _ _ _ _ _ Hag Hwx) as (_ & Heq). congruence.
Qed.

End ShipRoundTrip.

Lemma Forall2_join {A B C} (P : A -> C -> Prop) (Q : B -> C -> Prop) l1 l2 l3 :
  Forall2 P l1 l3 -> Forall2 Q l2 l3 ->
  Forall2 (fun a b => exists c, P a c /\ Q b c) l1 l2.
Proof.
  intros H1. revert l2. induction H1 as [|a c l1 l3 Ha _ IH]; intros l2 H2;
    inversion H2; subst; constructor; eauto.
Qed.

Section RoundTrip.
Context `{Imports}.

(** C1.  For a raw ship record [x] that the validator accepts, held by the
    caller as the value [v]: [new Ship(v)] succeeds, [toJSON()] on the new
    ship succeeds, and the returned record unfolds to [x] itself, field for
    field and in the same order.  Its [Modules] entries are, one for one,
    values with the structure of the records of the ship's modules. *)
Theorem Ship_toJSON_round_trip (fuel : nat) (h : heap) (v : val) (x : tree) :
  reify fuel h v = Ok x ->
  validateShipJson x = true ->
  raw_ship_record x ->
  exists ship h1 r h2,
    Ship_new fuel v h = (Ok ship, h1) /\
    Ship_toJSON fuel ship h1 = (Ok r, h2) /\
    reify fuel h2 r = Ok x /\
    exists o la ms la' copies,
      get_prop ship "_object" h1 = (Ok o, h1) /\
      get_prop o "Modules" h1 = (Ok (VRef la), h1) /\
      h1 !! la = Some (Arr ms) /\
      get_prop r "Modules" h2 = (Ok (VRef la'), h2) /\
      h2 !! la' = Some (Arr copies) /\
      Forall2 (fun m c =>
                 exists rec t,
                   get_prop m "_object" h1 = (Ok rec, h1) /\
                   reify fuel h1 rec = Ok t /\
                   reify fuel h2 c = Ok t) ms copies.
Proof.
  intros Hx Hvalid (fs & mts & -> & Hmods & Hmts).
  destruct (Ship_new_spec fuel h v fs mts Hx Hvalid Hmods Hmts)
    as (f & h1 & lo & ps0 & la & ms & -> & Hnew & Hobj & Hlo & Hla & Hms & Hkeys & Hvals).
  assert (Hms' : Forall2 (fun m t =>
                    instance_of m ClsModule h1 = (Ok true, h1) /\
                    exists o, get_prop m "_object" h1 = (Ok o, h1) /\
                              reify (S f) h1 o = Ok t) ms mts).
  { eapply Forall2_impl; [exact Hms|]. intros m t. apply module_at_facts. }
  destruct (Ship_toJSON_frame (S f) h1 (VRef (length h)) lo Plain _ la ms mts
              ltac:(lia) Hobj Hlo (assoc_set_assoc_eq _ _ _) Hla Hms')
    as (ext & copies & Hrun & Hall).
  cbv zeta in Hrun, Hall. rewrite set_assoc_twice in Hrun, Hall.
  set (la' := length (h1 ++ ext)) in *.
  set (ps3 := set_assoc "Modules" (VRef la') ps0) in *.
  set (h2 := (h1 ++ ext) ++ [Arr copies; Obj Plain ps3]) in *.
  assert (Hla' : h2 !! la' = Some (Arr copies)).
  { unfold h2, la'. now apply list_lookup_middle. }
  assert (Hr : h2 !! S la' = Some (Obj Plain ps3)).
  { unfold h2. change [Arr copies; Obj Plain ps3]
      with ([Arr copies] ++ [Obj Plain ps3]).
    rewrite app_assoc.
    replace (S la') with (length ((h1 ++ ext) ++ [Arr copies]))
      by (unfold la'; rewrite (length_app _ [_]); simpl; lia).
    apply lookup_fresh. }
  assert (Hext : forall fuel' v' t', reify fuel' h1 v' = Ok t' ->
                                     reify fuel' h2 v' = Ok t').
  { intros fuel' v' t' Hv'. unfold h2. rewrite <- app_assoc. now apply reify_ext. }
  assert (Hzip : zip ps0.*1 fs.*2 = fs) by (rewrite Hkeys; apply zip_fst_snd).
  assert (Hmods0 : assoc "Modules" (zip ps0.*1 fs.*2) = Some (TArr mts))
    by now rewrite Hzip.
  assert (Harr : reify f h2 (VRef la') = Ok (TArr mts)).
  { destruct (assoc_Forall2 _ _ _ _ _ Hvals Hmods0) as (vraw & _ & Hraw).
    eapply (reify_depth f h1 h2 vraw (VRef la') (S (S f))); [exact Hraw|].
    apply (reify_ref_intro (S f) h2 la' (Arr copies) mts Hla').
    eapply Forall2_impl; [exact Hall|]. now intros c t [Hc _]. }
  destruct (set_assoc_Forall2 (fun v' t' => reify f h2 v' = Ok t')
              "Modules" (VRef la') (TArr mts) ps0 fs.*2) as (Hvals3 & Hkeys3).
  { eapply Forall2_impl; [exact Hvals|]. intros; now apply Hext. }
  { exact Hmods0. }
  { exact Harr. }
  fold ps3 in Hvals3, Hkeys3.
  exists (VRef (length h)), h1, (VRef (S la')), h2. repeat split; auto.
  - replace (TObj Plain fs) with (tree_of (Obj Plain ps3) fs.*2)
      by (simpl; now rewrite Hkeys3, Hzip).
    now apply reify_ref_intro.
  - exists (VRef lo), la, ms, la', copies. repeat split; auto.
    + unfold get_prop. rewrite Hlo. now rewrite assoc_set_assoc_eq.
    + unfold get_prop. rewrite Hr. unfold ps3. now rewrite assoc_set_assoc_eq.
    + eapply Forall2_impl; [exact (Forall2_join _ _ _ _ _ Hms' Hall)|].
      intros m c (t & (_ & rec & Hrec & Ht) & Hc & _). now exists rec, t.
Qed.

End RoundTrip.

(** ** Witnesses on the sample data *)

Lemma Module_from_Module_unvalidated_witness :
  (@Module_new strict_imports 5 (VRef 2) VNull
     (sample_heap "Slot01_Size5" "Int_ShieldGenerator_Size5_Class2" (VRef 0))).1 =
    Ok (VRef 4) /\
  (@Module_new strict_imports 5 (VRef 3) VNull
     (sample_heap "Slot01_Size5" "Int_ShieldGenerator_Size5_Class2" (VRef 0))).1 =
    Throw ImportExportError /\
  exists h' lv,
    @Module_update strict_imports 5 (VRef 2) (VRef 2) None
      (sample_heap "Slot01_Size5" "Int_ShieldGenerator_Size5_Class2" (VRef 0)) =
      (Ok tt, h') /\
    get_prop (VRef 2) "_object" h' = (Ok (VRef lv), h') /\
    4 <= lv /\
    reify 5 h' (VRef lv) =
      Ok (TObj Plain [("Slot", TStr "Slot01_Size5"); ("On", TBool true);
                      ("Item", TStr "Int_ShieldGenerator_Size5_Class2");
                      ("Priority", TNum 1)]).
Proof.
  destruct (Module_from_Module_unvalidated strict_imports 5
              (sample_heap "Slot01_Size5" "Int_ShieldGenerator_Size5_Class2" (VRef 0))
              (VRef 2) (VRef 3)
              (TObj Plain [("Slot", TStr "Slot01_Size5"); ("On", TBool true);
                           ("Item", TStr "Int_ShieldGenerator_Size5_Class2");
                           ("Priority", TNum 1)])
              VNull eq_refl eq_refl eq_refl)
    as ((o' & ext & Hnew & _) & Hupdate & Hraw & _).
  split; [|split].
  - now rewrite (Hnew strict_imports).
  - exact (Hraw 3 _ eq_refl eq_refl).
  - destruct (Hupdate (VRef 2) 3 None) as (h' & lv & Hrun & Hget & Hfresh & Hcopy & _).
    + reflexivity.
    + eexists _, _. reflexivity.
    + eexists _, _. reflexivity.
    + exists h', lv. split; [exact (Hrun strict_imports)|].
      split; [exact Hget|]. split; [exact Hfresh|]. now apply Hcopy.
Defined.

Lemma Ship_toJSON_leaves_ship_unchanged_witness :
  exists new r,
    Ship_toJSON 5 (VRef 11) ship_heap = (Ok (VRef r), ship_heap ++ new) /\
    (ship_heap ++ new) !! 40 = Some (Arr [VRef 28; VRef 32; VRef 36]).
Proof.
  destruct (Ship_toJSON_leaves_ship_unchanged 5 ship_heap (VRef 11) 27 Plain
              [("Ship", VStr "anaconda"); ("ShipName", VStr "Normandy");
               ("ShipIdent", VStr "SR-2"); ("Modules", VRef 40)]
              40 [VRef 28; VRef 32; VRef 36]
              [sample_module "Slot02_Size3" "Int_CargoRack_Size3_Class1";
               sample_module "Slot01_Size5" "Int_ShieldGenerator_Size5_Class2";
               sample_module "Military01" "Int_HullReinforcement_Size4_Class2"])
    as (new & r & la' & copies & Hrun & _ & Hmodules & _).
  - lia.
  - reflexivity.
  - reflexivity.
  - reflexivity.
  - reflexivity.
  - repeat constructor; eexists; split; reflexivity.
  - exists new, r. auto.
Defined.

Lemma Ship_toJSON_round_trip_witness :
  exists ship h1 r h2,
    @Ship_new sample_imports 5 (VRef 10) caller_heap = (Ok ship, h1) /\
    Ship_toJSON 5 ship h1 = (Ok r, h2) /\
    reify 5 h2 r = Ok sample_ship.
Proof.
  destruct (@Ship_toJSON_round_trip sample_imports 5 caller_heap (VRef 10) sample_ship)
    as (ship & h1 & r & h2 & Hnew & Hjson & Hr & _).
  - reflexivity.
  - reflexivity.
  - eexists _, _. split; [reflexivity|]. split; [reflexivity|].
    repeat constructor.
  - exists ship, h1, r, h2. auto.
Defined.

(** ** Evaluation on the sample data *)

(** C2.  On an engineered module without modifiers, [set("Mass", 5)]
    completes and appends the modifier, and [get("Mass", false)] returns the
    base value; but [get("Mass", true)] then raises a TypeError instead of
    returning 5, and a second [set("Mass", 6)] raises a TypeError instead of
    overwriting the value: [_findModifier] returns the modifier object, and
    [Modifiers[modifierIndex]] indexed by that object is [undefined]. *)
Theorem Module_get_after_set_raises :
  let m := VRef 3 in
  let after := (Module_set m "Mass" (VNum 5) engineered_heap).2 in
  (Module_set m "Mass" (VNum 5) engineered_heap).1 = Ok (VBool true) /\
  after !! 4 = Some (Arr [VRef 7]) /\
  after !! 7 = Some (Obj Plain [("Label", VStr "Mass"); ("Value", VNum 5)]) /\
  (@Module_get sample_imports m "Mass" (VBool false) after).1 =
    Ok (@getModuleProperty sample_imports
          (VStr "Int_Engine_Size5_Class2") (VStr "Mass")) /\
  @Module_get sample_imports m "Mass" (VBool true) after = (Throw TypeError, after) /\
  @Module_get sample_imports m "Mass" VUndef after = (Throw TypeError, after) /\
  Module_set m "Mass" (VNum 6) after = (Throw TypeError, after).
Proof. vm_compute. repeat split. Qed.

(** C4.  [getInternals(undefined, true)] on the sample ship, whose modules
    were given in the order Slot02, Slot01, Military01: the internal modules
    come before the military one, but in the order given, not in ascending
    order of slot name.  [sortBy()] without an iteratee compares the module
    objects themselves, which are all equal; [sortModules], which sorts by
    slot name, is not called. *)
Theorem Ship_getInternals_not_sorted :
  ((arr <- @Ship_getInternals sample_imports (VRef 11) None true ;;
    slots_of arr) ship_heap).1 =
    Ok [VStr "Slot02_Size3"; VStr "Slot01_Size5"; VStr "Military01"] /\
  String.ltb "Slot01_Size5" "Slot02_Size3" = true /\
  ((ms <- sortModules [VRef 28; VRef 32] ;;
    arr <- alloc (Arr ms) ;; slots_of arr) ship_heap).1 =
    Ok [VStr "Slot01_Size5"; VStr "Slot02_Size3"].
Proof. vm_compute. repeat split. Qed.

(** ** The sort in getModules *)

Lemma readonly_ret {A} (a : A) : readonly (ret a).
Proof. now intros h. Qed.

Lemma readonly_throw {A} e : readonly (@throw A e).
Proof. now intros h. Qed.

Lemma readonly_bind {A B} (m : M A) (f : A -> M B) :
  readonly m -> (forall a, readonly (f a)) -> readonly (bind m f).
Proof.
  intros Hm Hf h. unfold bind. specialize (Hm h).
  destruct (m h) as [[a| | |] h']; simpl in Hm; subst; auto. apply Hf.
Qed.

Lemma readonly_get_prop o k : readonly (get_prop o k).
Proof. intros h. apply get_prop_heap. Qed.

Lemma readonly_instance_of v c : readonly (instance_of v c).
Proof.
  intros h. unfold instance_of. destruct v as [| | | | |l]; try reflexivity.
  destruct (h !! l) as [[]|]; reflexivity.
Qed.

Lemma readonly_str_match s r : readonly (str_match s r).
Proof. destruct s; first [apply readonly_ret | apply readonly_throw]. Qed.

Lemma readonly_Module_method m : readonly (Module_method m).
Proof.
  apply readonly_bind; [apply readonly_instance_of|].
  intros []; [apply readonly_ret | apply readonly_throw].
Qed.

Lemma readonly_Module_isOnSlot this s : readonly (Module_isOnSlot this s).
Proof.
  induction s as [x | r | ss IH] using slot_nested_ind; simpl;
    (apply readonly_bind; [apply readonly_get_prop|]; intros o;
     apply readonly_bind; [apply readonly_get_prop|]; intros cur;
     destruct (truthy cur); [|apply readonly_ret]).
  - apply readonly_ret.
  - apply readonly_bind; [apply readonly_str_match | intros; apply readonly_ret].
  - induction IH as [|d ds Hd _ IHds]; [apply readonly_ret|].
    apply readonly_bind; [exact Hd|]. intros b.
    destruct (truthy b); [apply readonly_ret | exact IHds].
Qed.

Lemma readonly_Module_isEmpty m : readonly (Module_isEmpty m).
Proof.
  repeat (apply readonly_bind; [apply readonly_get_prop|]; intros ?).
  apply readonly_ret.
Qed.

(** What a filter by a test that only reads the store keeps satisfies the
    test, and a property of all elements holds of the ones kept. *)
Lemma filterM_readonly {A} (f : A -> M bool) (P : A -> Prop) l :
  (forall a, readonly (f a)) -> Forall P l ->
  forall h r h',
    filterM f l h = (Ok r, h') ->
    h' = h /\ Forall (fun a => P a /\ f a h = (Ok true, h)) r.
Proof.
  intros Hf HP. induction HP as [|a l Ha _ IH]; intros h r h'; simpl.
  - intros [= <- <-]. split; constructor.
  - unfold bind at 1. pose proof (Hf a h) as Hh.
    destruct (f a h) as [[b| | |] h1] eqn:Ea; simpl in Hh; subst; try discriminate.
    unfold bind at 1.
    destruct (filterM f l h) as [[r'| | |] h2] eqn:El; try discriminate.
    intros [= <- <-]. destruct (IH _ _ _ El) as (-> & Hall).
    split; [reflexivity|]. destruct b; [constructor|]; auto.
Qed.

Lemma Module_method_ok m (h : heap) r :
  Module_method m h = (Ok r, h) -> exists l, m = VRef l /\ is_obj h l.
Proof.
  unfold Module_method, bind.
  destruct (instance_of m ClsModule h) as [[[]| | |] h1] eqn:E; try discriminate.
  pose proof (readonly_instance_of m ClsModule h) as Hh. rewrite E in Hh.
  simpl in Hh. subst h1.
  apply instance_of_true_inv in E as (l & ps & -> & Hl & _).
  intros _. exists l. split; [reflexivity | now exists ClsModule, ps].
Qed.

(** [sortBy()] without an iteratee leaves a list of objects as it is: any
    two objects compare as equal. *)
Lemma sortBy_identity_objects (h : heap) ms :
  Forall (fun m => exists l, m = VRef l /\ is_obj h l) ms ->
  sortBy_identity ms h = (Ok ms, h).
Proof.
  intros Hms. unfold sortBy_identity. f_equal.
  induction Hms as [|m ms (l & -> & k & ps & Hl) Hrest IH]; [reflexivity|].
  simpl. rewrite IH. simpl.
  destruct Hrest as [|m' ms' (l' & -> & k' & ps' & Hl') _]; [reflexivity|].
  simpl. unfold js_gt. simpl. now rewrite Hl, Hl'.
Qed.

Lemma bind_cong {A B} (m : M A) (f g : A -> M B) h :
  (forall a h', m h = (Ok a, h') -> f a h' = g a h') ->
  bind m f h = bind m g h.
Proof.
  intros Hfg. unfold bind. destruct (m h) as [[a| | |] h']; auto.
Qed.

Lemma Ship_modulesOnSlot_objects this s (h : heap) ms h' :
  Ship_modulesOnSlot this s h = (Ok ms, h') ->
  h' = h /\ Forall (fun m => exists l, m = VRef l /\ is_obj h l) ms.
Proof.
  unfold Ship_modulesOnSlot, bind at 1.
  pose proof (get_prop_heap this "_object" h) as Ho.
  destruct (get_prop this "_object" h) as [[o| | |] ho]; simpl in Ho; subst;
    try discriminate.
  unfold bind at 1.
  pose proof (get_prop_heap o "Modules" h) as Hm.
  destruct (get_prop o "Modules" h) as [[mods| | |] hm]; simpl in Hm; subst;
    try discriminate.
  unfold bind at 1.
  destruct (collection_values mods h) as [[vs| | |] hv] eqn:Ev; try discriminate.
  assert (hv = h) as ->.
  { revert Ev. unfold collection_values. destruct mods as [| | | | |l]; try congruence.
    destruct (h !! l); congruence. }
  intros Hf.
  eapply (filterM_readonly _ (fun _ => True)) in Hf as (-> & Hall).
  - split; [reflexivity|]. eapply Forall_impl; [exact Hall|].
    intros m (_ & Hm). unfold bind at 1 in Hm.
    destruct (Module_method m h) as [[[]| | |] h2] eqn:Em; try discriminate.
    pose proof (readonly_Module_method m h) as Hh. rewrite Em in Hh.
    simpl in Hh. subst h2. eapply Module_method_ok; eauto.
  - intros m. apply readonly_bind; [apply readonly_Module_method|]. intros _.
    apply readonly_bind; [apply readonly_Module_isOnSlot|]. intros b.
    apply readonly_ret.
  - now apply Forall_forall.
Qed.

(** X29.  In [getModules] the [sort] argument changes nothing: the modules
    come out in the order of the collection. *)
Lemma Ship_getModules_sort_no_effect this slots type includeEmpty (h : heap) :
  Ship_getModules this slots type includeEmpty true h =
  Ship_getModules this slots type includeEmpty false h.
Proof.
  unfold Ship_getModules.
  apply bind_cong. intros ms h1 E.
  apply Ship_modulesOnSlot_objects in E as (-> & Hms).
  apply bind_cong. intros ms1 h1 E1.
  assert (Hms1 : h1 = h /\ Forall (fun m => exists l, m = VRef l /\ is_obj h l) ms1).
  { destruct type as [r|].
    - eapply (filterM_readonly _ _ _ _ Hms) in E1 as (-> & Hall).
      split; [reflexivity|]. eapply Forall_impl; [exact Hall|]. now intros m [? _].
    - injection E1 as <- <-. now split. }
  destruct Hms1 as (-> & Hms1).
  apply bind_cong. intros ms2 h2 E2.
  assert (Hms2 : h2 = h /\ Forall (fun m => exists l, m = VRef l /\ is_obj h l) ms2).
  { destruct includeEmpty.
    - injection E2 as <- <-. now split.
    - eapply (filterM_readonly _ _ _ _ Hms1) in E2 as (-> & Hall).
      split; [reflexivity|]. eapply Forall_impl; [exact Hall|]. now intros m [? _]. }
  destruct Hms2 as (-> & Hms2).
  unfold bind. now rewrite (sortBy_identity_objects h ms2 Hms2).
  Unshelve.
  - intros m. repeat (apply readonly_bind; [apply readonly_get_prop|]; intros ?).
    apply readonly_str_match.
  - intros m. apply readonly_bind; [apply readonly_Module_method|]. intros _.
    apply readonly_bind; [apply readonly_Module_isEmpty|]. intros e.
    apply readonly_ret.
Qed.


(** ** Modifiers *)

Lemma findM_readonly (f : val -> M bool) vs :
  (forall a, readonly (f a)) ->
  forall (h : heap) x h',
    findM f vs h = (Ok x, h') ->
    h' = h /\ (x = VUndef \/ f x h = (Ok true, h)).
Proof.
  intros Hf. induction vs as [|a vs IH]; intros h x h'; simpl.
  - intros [= <- <-]. auto.
  - unfold bind. pose proof (Hf a h) as Hh.
    destruct (f a h) as [[[]| | |] h1] eqn:Ea; simpl in Hh; subst; try discriminate.
    + intros [= <- <-]. auto.
    + apply IH.
Qed.

Lemma readonly_findM (f : val -> M bool) vs :
  (forall a, readonly (f a)) -> readonly (findM f vs).
Proof.
  intros Hf. induction vs as [|a vs IH]; [apply readonly_ret|].
  simpl. apply readonly_bind; [apply Hf|].
  intros []; [apply readonly_ret | exact IH].
Qed.

Lemma readonly_Module_findModifier this p :
  readonly (Module_findModifier this p).
Proof.
  unfold Module_findModifier.
  apply readonly_bind; [apply readonly_get_prop|]. intros o.
  apply readonly_bind; [apply readonly_get_prop|]. intros eng.
  destruct (truthy eng); simpl; [|apply readonly_ret].
  apply readonly_bind; [apply readonly_get_prop|]. intros mods.
  unfold array_find. apply readonly_bind.
  - intros h. unfold array_elems. destruct mods as [| | | | |l]; try reflexivity.
    destruct (h !! l) as [[]|]; reflexivity.
  - intros vs. apply readonly_findM. intros a.
    apply readonly_bind; [apply readonly_get_prop|]. intros; apply readonly_ret.
Qed.

(** When [_findModifier] finds something, the module has a blueprint whose
    [Modifiers] is an array, and what is found is an object, not an index. *)
Lemma Module_findModifier_found this p (h : heap) idx h' :
  Module_findModifier this p h = (Ok idx, h') -> truthy idx = true ->
  exists o eng la vs l,
    h' = h /\
    get_prop this "_object" h = (Ok o, h) /\
    get_prop o "Engineering" h = (Ok eng, h) /\ truthy eng = true /\
    get_prop eng "Modifiers" h = (Ok (VRef la), h) /\
    h !! la = Some (Arr vs) /\
    idx = VRef l /\ is_obj h l.
Proof.
  unfold Module_findModifier, bind at 1.
  pose proof (get_prop_heap this "_object" h) as Ho.
  destruct (get_prop this "_object" h) as [[o| | |] ho] eqn:Eo; simpl in Ho; subst;
    try discriminate.
  unfold bind at 1.
  pose proof (get_prop_heap o "Engineering" h) as He.
  destruct (get_prop o "Engineering" h) as [[eng| | |] he] eqn:Ee; simpl in He;
    subst; try discriminate.
  destruct (truthy eng) eqn:Teng; simpl; [|intros [= <- <-]; discriminate].
  unfold bind at 1.
  pose proof (get_prop_heap eng "Modifiers" h) as Hm.
  destruct (get_prop eng "Modifiers" h) as [[mods| | |] hm] eqn:Em; simpl in Hm;
    subst; try discriminate.
  unfold array_find, array_elems, bind at 1.
  destruct mods as [| | | | |la]; try discriminate.
  destruct (h !! la) as [[|vs]|] eqn:Hla; try discriminate.
  intros Hfind Hidx.
  apply findM_readonly in Hfind as (-> & [-> | Hlabel]); [discriminate| |].
  - unfold bind in Hlabel. revert Hlabel. unfold get_prop.
    destruct idx as [| | | | |l]; try discriminate.
    destruct (h !! l) as [[k ps|]|] eqn:Hl; try discriminate.
    intros _. exists o, eng, la, vs, l. repeat split; auto. now exists k, ps.
  - intros a. apply readonly_bind; [apply readonly_get_prop|].
    intros; apply readonly_ret.
Qed.

Section Modifiers.
Context `{Imports}.

(** X27.  Whenever a modifier labelled [p] is found, [get(p, true)] and
    [set(p, v)] raise a TypeError: the object found is used as an index into
    [Modifiers]. *)
Lemma Module_found_raises this p (h : heap) idx v :
  Module_findModifier this p h = (Ok idx, h) -> truthy idx = true ->
  Module_get this p (VBool true) h = (Throw TypeError, h) /\
  Module_get this p VUndef h = (Throw TypeError, h) /\
  Module_set this p v h = (Throw TypeError, h).
Proof.
  intros Hfind Hidx.
  destruct (Module_findModifier_found _ _ _ _ _ Hfind Hidx)
    as (o & eng & la & vs & l & _ & Ho & He & Teng & Hm & Hla & -> & k & ps & Hl).
  assert (Hat : get_computed (VRef la) (VRef l) h = (Ok VUndef, h)).
  { unfold get_computed. now rewrite Hla, Hl. }
  repeat split.
  - unfold Module_get. run Hfind. simpl. run Ho. run He. run Hm. now run Hat.
  - unfold Module_get. run Hfind. simpl. run Ho. run He. run Hm. now run Hat.
  - unfold Module_set. run Ho. run He. rewrite Teng. simpl.
    run Hfind. simpl. unfold bind at 1. run Ho. run He. run Hm. now run Hat.
Qed.

(** X28.  So [get] never returns the value of a modifier: whenever it returns, it
    returns the base value of the item. *)
Lemma Module_get_only_base this p modified (h : heap) r h' :
  Module_get this p modified h = (Ok r, h') ->
  h' = h /\
  exists o item,
    get_prop this "_object" h = (Ok o, h) /\
    get_prop o "Item" h = (Ok item, h) /\
    r = getModuleProperty item (VStr p).
Proof.
  unfold Module_get, bind at 1.
  pose proof (readonly_Module_findModifier this p h) as Hro.
  destruct (Module_findModifier this p h) as [[idx| | |] h1] eqn:Efind;
    simpl in Hro; subst; try discriminate.
  assert (Hbase :
    (o <- get_prop this "_object" ;; item <- get_prop o "Item" ;;
     ret (getModuleProperty item (VStr p))) h = (Ok r, h') ->
    h' = h /\
    exists o item,
      get_prop this "_object" h = (Ok o, h) /\
      get_prop o "Item" h = (Ok item, h) /\
      r = getModuleProperty item (VStr p)).
  { unfold bind.
    pose proof (get_prop_heap this "_object" h) as Ho.
    destruct (get_prop this "_object" h) as [[o| | |] ho] eqn:Eo; simpl in Ho; subst;
      try discriminate.
    pose proof (get_prop_heap o "Item" h) as Hi.
    destruct (get_prop o "Item" h) as [[item| | |] hi] eqn:Ei; simpl in Hi; subst;
      try discriminate.
    intros [= <- <-]. split; [reflexivity|]. now exists o, item. }
  destruct (truthy idx) eqn:Tidx; [|now rewrite Bool.andb_false_r].
  destruct (truthy match modified with VUndef => VBool true | _ => modified end);
    simpl; [|exact Hbase].
  destruct (Module_findModifier_found _ _ _ _ _ Efind Tidx)
    as (o & eng & la & vs & l & _ & Ho & He & Teng & Hm & Hla & -> & k & ps & Hl).
  assert (Hat : get_computed (VRef la) (VRef l) h = (Ok VUndef, h)).
  { unfold get_computed. now rewrite Hla, Hl. }
  run Ho. run He. run Hm. run Hat. discriminate.
Qed.

End Modifiers.

(** * Further properties *)

(** ** Reading and writing a record *)

(** A read with a name the caller chooses leaves the store as it is. *)
Lemma get_key_eq o k (h : heap) r :
  (get_key o k h).1 = r -> get_key o k h = (r, h).
Proof.
  intros <-. unfold get_key. destruct o as [| | | | |l]; try reflexivity.
  destruct (h !! l) as [[c ps|]|]; try reflexivity.
  destruct (assoc k ps); [reflexivity|]. now destruct (inherited c k).
Qed.

(** Every name but [__proto__], and [__proto__] too on an object with a
    property of that name, is assigned as a property. *)
Lemma set_key_ordinary (h : heap) lo k (ps : list (string * val)) p v :
  h !! lo = Some (Obj k ps) ->
  p <> "__proto__" \/ assoc p ps <> None ->
  set_key (VRef lo) p v h = set_prop (VRef lo) p v h.
Proof.
  intros Hlo Hp. unfold set_key, set_prop. rewrite Hlo.
  destruct (String.eqb p "__proto__") eqn:E; [|reflexivity].
  apply String.eqb_eq in E. destruct (assoc p ps); [reflexivity|].
  destruct Hp; contradiction.
Qed.

(** A write to a property of the record of an entity: the entity still holds
    the record, the property reads as the value written, and the other
    properties read as before. *)
Lemma record_write (this : val) lo p v (h : heap) :
  get_prop this "_object" h = (Ok (VRef lo), h) -> is_obj h lo ->
  this <> VRef lo ->
  exists h',
    set_prop (VRef lo) p v h = (Ok tt, h') /\
    get_prop this "_object" h' = (Ok (VRef lo), h') /\
    get_prop (VRef lo) p h' = (Ok v, h') /\
    (forall q r, q <> p -> get_prop (VRef lo) q h = (Ok r, h) ->
                 get_prop (VRef lo) q h' = (Ok r, h')) /\
    is_obj h' lo /\
    get_key (VRef lo) p h' = (Ok v, h') /\
    (forall q, q <> p -> (get_key (VRef lo) q h').1 = (get_key (VRef lo) q h).1).
Proof.
  intros Ho (k & ps & Hlo) Hne.
  exists (<[lo := Obj k (set_assoc p v ps)]> h).
  assert (Hlt : lo < length h) by (apply lookup_lt_is_Some; eauto).
  split; [|split; [|split; [|split; [|split; [|split]]]]].
  - unfold set_prop. now rewrite Hlo.
  - revert Ho. unfold get_prop. destruct this as [| | | | |lt]; try discriminate.
    rewrite list_lookup_insert_ne by congruence.
    destruct (h !! lt) as [[]|]; try discriminate; now intros [= ->].
  - unfold get_prop. rewrite list_lookup_insert_eq by exact Hlt.
    now rewrite assoc_set_assoc_eq.
  - intros q r Hq. unfold get_prop. rewrite Hlo, list_lookup_insert_eq by exact Hlt.
    rewrite assoc_set_assoc_ne by exact Hq. now intros [= ->].
  - exists k, (set_assoc p v ps). now apply list_lookup_insert_eq.
  - unfold get_key. rewrite list_lookup_insert_eq by exact Hlt.
    now rewrite assoc_set_assoc_eq.
  - intros q Hq. unfold get_key. rewrite Hlo, list_lookup_insert_eq by exact Hlt.
    rewrite assoc_set_assoc_ne by exact Hq.
    destruct (assoc q ps); [reflexivity|]. now destruct (inherited k q).
Qed.

(** The answer of [isOnSlot] for a module whose [Slot] is a string. *)
Lemma Module_isOnSlot_value (h : heap) (this o : val) (name : string) (d : slot) :
  get_prop this "_object" h = (Ok o, h) ->
  get_prop o "Slot" h = (Ok (VStr name), h) ->
  Module_isOnSlot this d h =
    (Ok (if String.eqb name "" then VNull else VBool (slot_matches name d)), h).
Proof.
  intros Hobj Hslot.
  induction d as [x | r | ss IH] using slot_nested_ind; simpl;
    run Hobj; run Hslot; simpl; destruct (String.eqb name "") eqn:E; simpl;
    try reflexivity.
  induction IH as [| d ds Hd _ IHds]; simpl; [reflexivity|].
  run Hd. destruct (slot_matches name d); simpl; [reflexivity | exact IHds].
Qed.

Section Access.
Context `{Imports}.

(** X1.  [Module.write(p, v)] on a module whose record is an object with the
    properties [ps].  When [moduleVarIsSpecified(p)] it raises an illegal-state
    error and changes nothing.  Otherwise, for every name but [__proto__], and
    for [__proto__] when the record has a property of that name, it succeeds,
    a following [read(p)] returns [v], and [read] of any other name has the
    outcome it had before.  For [__proto__] on a record without such a
    property, a value that is neither an object nor [null] is ignored: the
    call returns and changes nothing. *)
Theorem Module_write_then_read (this : val) (lo : loc) (k : cls)
    (ps : list (string * val)) (p : string) (v : val) (h : heap) :
  get_prop this "_object" h = (Ok (VRef lo), h) ->
  h !! lo = Some (Obj k ps) ->
  this <> VRef lo ->
  (moduleVarIsSpecified p = true ->
   Module_write this p v h = (Throw IllegalStateError, h)) /\
  (moduleVarIsSpecified p = false ->
   p <> "__proto__" \/ assoc p ps <> None ->
   exists h',
     Module_write this p v h = (Ok tt, h') /\
     Module_read this p h' = (Ok v, h') /\
     forall q, q <> p -> (Module_read this q h').1 = (Module_read this q h).1) /\
  (moduleVarIsSpecified p = false ->
   p = "__proto__" -> assoc p ps = None ->
   v <> VNull -> (forall l, v <> VRef l) ->
   Module_write this p v h = (Ok tt, h)).
Proof.
  intros Ho Hlo Hne. unfold Module_write. split; [|split].
  - now intros ->.
  - intros -> Hp.
    destruct (record_write this lo p v h Ho (ex_intro _ k (ex_intro _ ps Hlo)) Hne)
      as (h' & Hset & Ho' & _ & _ & _ & Hread & Hframe).
    exists h'. split; [|split].
    + run Ho. now rewrite (set_key_ordinary h lo k ps p v Hlo Hp).
    + unfold Module_read. now run Ho'.
    + intros q Hq. unfold Module_read. run Ho. run Ho'. now apply Hframe.
  - intros -> -> Hown Hnull Hobj. run Ho. unfold set_key. rewrite Hlo, Hown.
    simpl. destruct v; try reflexivity; [contradiction | now destruct (Hobj l)].
Qed.

(** X2.  [Ship.write(p, v)] on a ship whose record is an object with the
    properties [ps].  When [shipVarIsSpecified(p)] it raises an illegal-state
    error and changes nothing.  Otherwise, for every name but [__proto__], and
    for [__proto__] when the record has a property of that name, it succeeds,
    a following [read(p)] returns [v], and [read] of any other name has the
    outcome it had before.  For [__proto__] on a record without such a
    property, a value that is neither an object nor [null] is ignored: the
    call returns and changes nothing. *)
Theorem Ship_write_then_read (this : val) (lo : loc) (k : cls)
    (ps : list (string * val)) (p : string) (v : val) (h : heap) :
  get_prop this "_object" h = (Ok (VRef lo), h) ->
  h !! lo = Some (Obj k ps) ->
  this <> VRef lo ->
  (shipVarIsSpecified p = true ->
   Ship_write this p v h = (Throw IllegalStateError, h)) /\
  (shipVarIsSpecified p = false ->
   p <> "__proto__" \/ assoc p ps <> None ->
   exists h',
     Ship_write this p v h = (Ok tt, h') /\
     Ship_read this p h' = (Ok v, h') /\
     forall q, q <> p -> (Ship_read this q h').1 = (Ship_read this q h).1) /\
  (shipVarIsSpecified p = false ->
   p = "__proto__" -> assoc p ps = None ->
   v <> VNull -> (forall l, v <> VRef l) ->
   Ship_write this p v h = (Ok tt, h)).
Proof.
  intros Ho Hlo Hne. unfold Ship_write. split; [|split].
  - now intros ->.
  - intros -> Hp.
    destruct (record_write this lo p v h Ho (ex_intro _ k (ex_intro _ ps Hlo)) Hne)
      as (h' & Hset & Ho' & _ & _ & _ & Hread & Hframe).
    exists h'. split; [|split].
    + run Ho. now rewrite (set_key_ordinary h lo k ps p v Hlo Hp).
    + unfold Ship_read. now run Ho'.
    + intros q Hq. unfold Ship_read. run Ho. run Ho'. now apply Hframe.
  - intros -> -> Hown Hnull Hobj. run Ho. unfold set_key. rewrite Hlo, Hown.
    simpl. destruct v; try reflexivity; [contradiction | now destruct (Hobj l)].
Qed.

(** X3.  [setSlot] and [fitsSlotOn] agree.  For a module with an item, an
    empty [Slot] and a ship attached, [fitsSlotOn(s, ship)] answers [null]
    when the item is empty and the fit-checker's verdict otherwise, the same
    for the ship and for the name of its type; [setSlot(s)] assigns the slot
    unless that answer is [false]. *)
Theorem Module_fitsSlotOn_setSlot (h : heap) (this ship o so : val)
    (ty item s : string) :
  get_prop this "_ship" h = (Ok ship, h) ->
  instance_of ship ClsShip h = (Ok true, h) ->
  get_prop this "_object" h = (Ok o, h) ->
  get_prop o "Slot" h = (Ok (VStr ""), h) ->
  get_prop o "Item" h = (Ok (VStr item), h) ->
  get_prop ship "_object" h = (Ok so, h) ->
  get_prop so "Ship" h = (Ok (VStr ty), h) ->
  exists r,
    r = (if String.eqb item "" then VNull
         else VBool (itemFitsSlot (VStr item) (VStr ty) (VStr s))) /\
    Module_fitsSlotOn this (VStr s) ship h = (Ok r, h) /\
    Module_fitsSlotOn this (VStr s) (VStr ty) h = (Ok r, h) /\
    if strict_eq r (VBool false) then Module_setSlot this s h = (Ok tt, h)
    else exists h', Module_setSlot this s h = (Ok tt, h') /\
                    get_prop o "Slot" h' = (Ok (VStr s), h').
Proof.
  intros Hship Hinst Hobj Hslot Hitem Hso Htype.
  destruct (instance_of_true_inv _ _ _ Hinst) as (ls & pss & -> & Hls & _).
  assert (Hset : exists h', set_prop o "Slot" (VStr s) h = (Ok tt, h')).
  { revert Hslot. unfold get_prop, set_prop. destruct o; try discriminate.
    destruct (h !! l) as [[]|]; try discriminate; eauto. }
  destruct Hset as (h' & Hset).
  pose proof (get_after_set _ _ _ _ _ Hset) as Hafter.
  eexists. split; [reflexivity|].
  split; [|split].
  - unfold Module_fitsSlotOn. run Hobj. run Hitem. simpl.
    destruct (String.eqb item ""); simpl; [reflexivity|].
    run Hinst. cbv beta iota.
    assert (Hty : (so0 <- get_prop (VRef ls) "_object" ;; get_prop so0 "Ship") h =
                  (Ok (VStr ty), h)) by now run Hso.
    run Hty. run Hobj. now run Hitem.
  - unfold Module_fitsSlotOn. run Hobj. run Hitem. simpl.
    destruct (String.eqb item ""); simpl; [reflexivity|].
    unfold instance_of at 1. unfold bind at 1. unfold ret at 1.
    unfold bind at 1. run Hobj. now run Hitem.
  - unfold Module_setSlot. run Hship. simpl. run Hobj. run Hslot. simpl.
    run Hobj. run Hitem. simpl.
    destruct (String.eqb item "") eqn:Eitem; simpl.
    + unfold ret at 1. unfold bind at 1. run Hobj. eauto.
    + assert (Hfit :
        (o0 <- get_prop this "_object" ;;
         item0 <- get_prop o0 "Item" ;;
         ship0 <- get_prop this "_ship" ;;
         so0 <- get_prop ship0 "_object" ;;
         shipType0 <- get_prop so0 "Ship" ;;
         ret (itemFitsSlot item0 shipType0 (VStr s))) h =
        (Ok (itemFitsSlot (VStr item) (VStr ty) (VStr s)), h)).
      { run Hobj. run Hitem. run Hship. run Hso. now run Htype. }
      destruct (itemFitsSlot (VStr item) (VStr ty) (VStr s)); simpl; run Hfit;
        [|reflexivity].
      run Hobj. eauto.
Qed.

(** X4.  [setShip] attaches a ship once.  On a module without a ship it
    stores the argument; if that was anything but [null], every later
    [setShip] raises an illegal-state error and changes nothing; and if it
    was falsy, every [setSlot] raises an illegal-state error as well. *)
Theorem Module_setShip_once (this ship : val) (h : heap) :
  get_prop this "_ship" h = (Ok VNull, h) ->
  exists h',
    Module_setShip this ship h = (Ok tt, h') /\
    get_prop this "_ship" h' = (Ok ship, h') /\
    (ship <> VNull ->
     forall other, Module_setShip this other h' = (Throw IllegalStateError, h')) /\
    (truthy ship = false ->
     forall s, Module_setSlot this s h' = (Throw IllegalStateError, h')).
Proof.
  intros Hcur.
  assert (Hset : exists h', set_prop this "_ship" ship h = (Ok tt, h')).
  { revert Hcur. unfold get_prop, set_prop. destruct this; try discriminate.
    destruct (h !! l) as [[]|]; try discriminate; eauto. }
  destruct Hset as (h' & Hset).
  pose proof (get_after_set _ _ _ _ _ Hset) as Hafter.
  exists h'. unfold Module_setShip, Module_setSlot.
  split; [now run Hcur|]. split; [exact Hafter|]. split.
  - intros Hne other. run Hafter.
    destruct ship; try reflexivity. contradiction.
  - intros Hfalsy s. run Hafter. now rewrite Hfalsy.
Qed.

(** X5.  [isAssigned] against [isOnSlot].  For a record whose [Slot] is a
    string the two agree: [isAssigned()] is [true] exactly when [isOnSlot]
    does not answer [null].  For a record whose [Slot] is missing or
    otherwise falsy but not the empty string they disagree: [isAssigned()] is
    [true] while [isOnSlot] answers [null]. *)
Theorem Module_isAssigned_isOnSlot (this o cur : val) (d : slot) (h : heap) :
  get_prop this "_object" h = (Ok o, h) ->
  get_prop o "Slot" h = (Ok cur, h) ->
  (forall name, cur = VStr name ->
     exists a r,
       Module_isAssigned this h = (Ok a, h) /\
       Module_isOnSlot this d h = (Ok r, h) /\
       (a = true <-> r <> VNull)) /\
  (truthy cur = false -> cur <> VStr "" ->
     Module_isAssigned this h = (Ok true, h) /\
     Module_isOnSlot this d h = (Ok VNull, h)).
Proof.
  intros Hobj Hslot. split.
  - intros name ->. unfold Module_isAssigned. run Hobj. run Hslot.
    rewrite (Module_isOnSlot_value h this o name d Hobj Hslot). simpl.
    do 2 eexists. split; [reflexivity|]. split; [reflexivity|].
    destruct (String.eqb name ""); simpl; split; congruence.
  - intros Hfalsy Hne. unfold Module_isAssigned. run Hobj. run Hslot.
    split.
    + destruct cur as [| | | |x|]; try reflexivity. simpl.
      destruct (String.eqb x "") eqn:E; [|reflexivity].
      apply String.eqb_eq in E. congruence.
    + destruct d; simpl; run Hobj; run Hslot; now rewrite Hfalsy.
Qed.

(** X26.  The name and the identifier of a ship.  [setShipName(name)] and
    [setShipID(id)] succeed whatever [shipVarIsSpecified] says; afterwards
    [getShipName()] returns [name], [getShipID()] returns [id], and [read]
    of any other property returns what it returned before: it has the same
    outcome for every other name. *)
Theorem Ship_name_and_id (this : val) (lo : loc) (name id : val) (h : heap) :
  get_prop this "_object" h = (Ok (VRef lo), h) -> is_obj h lo ->
  this <> VRef lo ->
  exists h1 h2,
    Ship_setShipName this name h = (Ok tt, h1) /\
    Ship_setShipID this id h1 = (Ok tt, h2) /\
    Ship_getShipName this h2 = (Ok name, h2) /\
    Ship_getShipID this h2 = (Ok id, h2) /\
    (forall q r, q <> "ShipName" -> q <> "ShipIdent" ->
                 Ship_read this q h = (Ok r, h) -> Ship_read this q h2 = (Ok r, h2)) /\
    (forall q, q <> "ShipName" -> q <> "ShipIdent" ->
               (Ship_read this q h2).1 = (Ship_read this q h).1).
Proof.
  intros Ho Hobj Hne.
  destruct (record_write this lo "ShipName" name h Ho Hobj Hne)
    as (h1 & Hset1 & Ho1 & Hp1 & Hq1 & Hobj1 & _ & Hk1).
  destruct (record_write this lo "ShipIdent" id h1 Ho1 Hobj1 Hne)
    as (h2 & Hset2 & Ho2 & Hp2 & Hq2 & _ & _ & Hk2).
  assert (Hsame : forall q, q <> "ShipName" -> q <> "ShipIdent" ->
            (Ship_read this q h2).1 = (Ship_read this q h).1).
  { intros q Hq Hq'. unfold Ship_read. run Ho. run Ho2.
    rewrite (Hk2 q Hq'). now apply Hk1. }
  exists h1, h2. unfold Ship_setShipName, Ship_setShipID, Ship_getShipName,
    Ship_getShipID.
  split; [now run Ho|]. split; [now run Ho1|].
  split; [run Ho2; apply Hq2; [discriminate | exact Hp1]|].
  split; [now run Ho2|]. split; [|exact Hsame].
  intros q r Hq Hq' Hr. specialize (Hsame q Hq Hq'). rewrite Hr in Hsame.
  simpl in Hsame. revert Hsame. unfold Ship_read. run Ho2.
  apply get_key_eq.
Qed.

End Access.

(** ** Modifiers *)

Lemma strict_eq_str v p : strict_eq v (VStr p) = true <-> v = VStr p.
Proof.
  destruct v; simpl; try (split; [discriminate | congruence]).
  rewrite String.eqb_eq. split; congruence.
Qed.

(** When the search of [_findModifier] finds nothing, every modifier has a
    label, and none is the label looked for. *)
Lemma find_label_none p vs : forall (h : heap) idx h',
  findM (fun modifier =>
           label <- get_prop modifier "Label" ;;
           ret (strict_eq label (VStr p))) vs h = (Ok idx, h') ->
  truthy idx = false ->
  Forall (fun m => exists lab, get_prop m "Label" h = (Ok lab, h) /\ lab <> VStr p) vs.
Proof.
  induction vs as [|a vs IH]; intros h idx h'; simpl; [constructor|].
  unfold bind at 1. unfold bind at 1.
  pose proof (get_prop_heap a "Label" h) as Hh.
  destruct (get_prop a "Label" h) as [[lab| | |] h1] eqn:Ea; simpl in Hh; subst;
    try discriminate.
  unfold ret at 1.
  destruct (strict_eq lab (VStr p)) eqn:E.
  - intros [= <- <-] Hf. apply strict_eq_str in E as ->.
    destruct a; simpl in Hf; try discriminate; simpl in Ea; discriminate.
  - intros Hfind Hf. constructor; [|eapply IH; eauto].
    exists lab. split; [exact Ea|]. intros ->.
    assert (strict_eq (VStr p) (VStr p) = true) by now apply strict_eq_str.
    congruence.
Qed.

(** The outcomes of [set(p, v)]: it fails and leaves the store as it is, or
    no modifier is labelled [p] and a new one is added behind the others. *)
Lemma Module_set_run this p v (h : heap) r h' :
  Module_set this p v h = (r, h') ->
  (h' = h /\ forall x, r <> Ok x) \/
  (r = Ok (VBool true) /\
   exists o eng la vs,
     get_prop this "_object" h = (Ok o, h) /\
     get_prop o "Engineering" h = (Ok eng, h) /\ truthy eng = true /\
     get_prop eng "Modifiers" h = (Ok (VRef la), h) /\
     h !! la = Some (Arr vs) /\
     Forall (fun m => exists lab, get_prop m "Label" h = (Ok lab, h) /\
                                  lab <> VStr p) vs /\
     h' = <[la := Arr (vs ++ [VRef (length h)])]>
            (h ++ [Obj Plain [("Label", VStr p); ("Value", v)]])).
Proof.
  assert (Hfail : forall (e : result val) (r : result val) (h' : heap),
            (forall x, e <> Ok x) -> (e, h) = (r, h') ->
            h' = h /\ forall x, r <> Ok x).
  { intros e r0 h0 He [= <- <-]. auto. }
  unfold Module_set, bind at 1.
  pose proof (get_prop_heap this "_object" h) as Ho.
  destruct (get_prop this "_object" h) as [[o| | |] ho] eqn:Eo; simpl in Ho; subst;
    try (intros E; left; eapply Hfail; [|exact E]; discriminate).
  unfold bind at 1.
  pose proof (get_prop_heap o "Engineering" h) as He.
  destruct (get_prop o "Engineering" h) as [[eng| | |] he] eqn:Ee; simpl in He; subst;
    try (intros E; left; eapply Hfail; [|exact E]; discriminate).
  destruct (truthy eng) eqn:Teng; simpl;
    [|intros E; left; eapply Hfail; [|exact E]; discriminate].
  unfold bind at 1.
  pose proof (readonly_Module_findModifier this p h) as Hro.
  destruct (Module_findModifier this p h) as [[idx| | |] h1] eqn:Efind;
    simpl in Hro; subst;
    try (intros E; left; eapply Hfail; [|exact E]; discriminate).
  destruct (truthy idx) eqn:Tidx.
  - destruct (Module_findModifier_found _ _ _ _ _ Efind Tidx)
      as (o' & eng' & la & vs & l & _ & Ho' & He' & _ & Hm & Hla & -> & k & ps & Hl).
    assert (Hat : get_computed (VRef la) (VRef l) h = (Ok VUndef, h)).
    { unfold get_computed. now rewrite Hla, Hl. }
    unfold bind at 1. run Ho'. run He'. run Hm. run Hat.
    intros E; left; eapply Hfail; [|exact E]; discriminate.
  - revert Efind. unfold Module_findModifier. run Eo. run Ee. rewrite Teng. simpl.
    unfold bind at 1.
    pose proof (get_prop_heap eng "Modifiers" h) as Hm.
    destruct (get_prop eng "Modifiers" h) as [[mods| | |] hm] eqn:Em; simpl in Hm;
      subst; try discriminate.
    unfold array_find, array_elems, bind at 1.
    destruct mods as [| | | | |la]; try discriminate.
    destruct (h !! la) as [[|vs]|] eqn:Hla; try discriminate.
    intros Hfind. pose proof (find_label_none _ _ _ _ _ Hfind Tidx) as Hnone.
    unfold bind at 1. run Eo. run Ee. run Em.
    unfold alloc at 1. unfold bind at 1. unfold array_push.
    rewrite (lookup_app_l_Some _ _ _ _ Hla). unfold ret.
    intros [= <- <-]. right. split; [reflexivity|].
    exists o, eng, la, vs. auto 10.
Qed.

(** X6.  [set(p, v)] never overwrites.  Whenever it returns, it returns
    [true], no modifier was labelled [p], and the store differs from the one
    before by one new modifier [{Label: p, Value: v}] added at the end of
    [Modifiers]; whenever it fails, the store is unchanged. *)
Theorem Module_set_only_appends (this : val) (p : string) (v : val) (h : heap) :
  match Module_set this p v h with
  | (Ok r, h') =>
      r = VBool true /\
      exists o eng la vs,
        get_prop this "_object" h = (Ok o, h) /\
        get_prop o "Engineering" h = (Ok eng, h) /\
        get_prop eng "Modifiers" h = (Ok (VRef la), h) /\
        h !! la = Some (Arr vs) /\
        ~ In (Ok (VStr p)) (labels h vs) /\
        h' = <[la := Arr (vs ++ [VRef (length h)])]>
               (h ++ [Obj Plain [("Label", VStr p); ("Value", v)]])
  | (_, h') => h' = h
  end.
Proof.
  destruct (Module_set this p v h) as [r h'] eqn:E.
  destruct (Module_set_run _ _ _ _ _ _ E) as [[-> Hr] | (-> & o & eng & la & vs & Hfacts)].
  - destruct r; auto. now destruct (Hr a).
  - destruct Hfacts as (Ho & He & _ & Hm & Hla & Hnone & ->).
    split; [reflexivity|]. exists o, eng, la, vs. repeat split; auto.
    unfold labels. rewrite in_map_iff. intros (m & Hlab & Hin).
    apply list_elem_of_In in Hin.
    rewrite Forall_forall in Hnone. destruct (Hnone _ Hin) as (lab & Hl & Hne).
    rewrite Hl in Hlab. simpl in Hlab. congruence.
Qed.

(** X7.  [set] keeps the labels of the modifiers distinct: if no two
    modifiers of a module have the same label before [set(p, v)], none have
    after it, whether the call returns or raises. *)
Theorem Module_set_keeps_labels_distinct (this o eng : val) (la : loc)
    (vs : list val) (p : string) (v : val) (h : heap) :
  get_prop this "_object" h = (Ok o, h) ->
  get_prop o "Engineering" h = (Ok eng, h) ->
  get_prop eng "Modifiers" h = (Ok (VRef la), h) ->
  h !! la = Some (Arr vs) ->
  NoDup (labels h vs) ->
  exists vs',
    (Module_set this p v h).2 !! la = Some (Arr vs') /\
    NoDup (labels (Module_set this p v h).2 vs').
Proof.
  intros Ho He Hm Hla Hnd.
  destruct (Module_set this p v h) as [r h'] eqn:E. simpl.
  destruct (Module_set_run _ _ _ _ _ _ E)
    as [[-> Hr] | (-> & o' & eng' & la' & vs' & Ho' & He' & _ & Hm' & Hla' & Hnone & ->)].
  { exists vs. auto. }
  assert (o' = o) as -> by congruence.
  assert (eng' = eng) as -> by congruence.
  assert (la' = la) as -> by congruence.
  assert (vs' = vs) as -> by congruence.
  assert (Hlt : la < length h) by (apply lookup_lt_is_Some; eauto).
  exists (vs ++ [VRef (length h)]). split.
  { apply list_lookup_insert_eq. rewrite length_app. simpl. lia. }
  set (c := Obj Plain [("Label", VStr p); ("Value", v)]).
  set (h' := <[la := Arr (vs ++ [VRef (length h)])]> (h ++ [c])).
  assert (Hnew : (get_prop (VRef (length h)) "Label" h').1 = Ok (VStr p)).
  { unfold get_prop, h'. rewrite list_lookup_insert_ne by lia.
    now rewrite lookup_fresh. }
  assert (Hold : labels h' vs = labels h vs).
  { unfold labels. apply Forall_fmap_ext_1.
    eapply Forall_impl; [exact Hnone|]. intros m (lab & Hl & _). simpl.
    revert Hl. unfold get_prop. destruct m as [| | | | |l]; try reflexivity.
    destruct (h !! l) as [c0|] eqn:Hl0; [|discriminate].
    assert (l < length h) by (apply lookup_lt_is_Some; eauto).
    destruct (decide (l = la)) as [->|Hne].
    - unfold h'. rewrite list_lookup_insert_eq by (rewrite length_app; simpl; lia).
      rewrite Hla in Hl0. injection Hl0 as <-. reflexivity.
    - unfold h'. rewrite list_lookup_insert_ne by congruence.
      rewrite (lookup_app_l_Some _ _ _ _ Hl0). now destruct c0. }
  unfold labels in *. rewrite fmap_app, Hold.
  change ((fun m => (get_prop m "Label" h').1) <$> [VRef (length h)])
    with [(get_prop (VRef (length h)) "Label" h').1].
  rewrite Hnew.
  apply NoDup_app. split; [exact Hnd|]. split; [|apply NoDup_singleton].
  intros x Hx Hx'. apply list_elem_of_singleton in Hx' as ->.
  unfold labels in Hx. apply list_elem_of_fmap in Hx as (m & Hlab & Hin).
  rewrite Forall_forall in Hnone. destruct (Hnone _ Hin) as (lab & Hl & Hne).
  rewrite Hl in Hlab. simpl in Hlab. congruence.
Qed.

(** ** Copies *)

(** X8.  [Module.toJSON()] returns a deep copy.  The value returned unfolds
    to the structure of the module's record, the cells that existed before
    the call are unchanged, no cell reachable from the copy existed before
    the call, and the copy keeps its structure in any later store that leaves
    the cells made by the call alone, whatever has been done to the module. *)
Theorem Module_toJSON_deep_copy (fuel : nat) (h : heap) (this o : val) (t : tree) :
  get_prop this "_object" h = (Ok o, h) ->
  reify fuel h o = Ok t ->
  exists v' ext,
    Module_toJSON fuel this h = (Ok v', h ++ ext) /\
    reify fuel (h ++ ext) v' = Ok t /\
    (forall l, reach (h ++ ext) v' l -> length h <= l) /\
    forall h'' : heap,
      (forall l, length h <= l < length (h ++ ext) -> h'' !! l = (h ++ ext) !! l) ->
      reify fuel h'' v' = Ok t.
Proof.
  intros Ho Ht.
  destruct (Module_toJSON_spec _ _ _ _ _ Ho Ht) as (v' & ext & Hj & Hr & Hw).
  exists v', ext. split; [exact Hj|]. split; [exact Hr|]. split.
  - intros l Hl. now apply (within_reach _ _ _ _ _ _ Hw Hl).
  - intros h'' Hag. destruct (within_agree _ _ _ _ _ _ Hag Hw) as (_ & Heq).
    now rewrite Heq.
Qed.

Section Copies.
Context `{Imports}.

(** X9.  A module constructed from a raw record that the validator accepts
    shares nothing with the caller's object: the store is only extended, and
    the record of the new module keeps the structure of the input in any
    later store that leaves the cells made by the constructor alone, whatever
    has been done to the caller's object. *)
Theorem Module_new_copies_input (fuel : nat) (h : heap) (raw : val) (t : tree)
    (ship : val) :
  reify fuel h raw = Ok t ->
  is_plain_object t = true -> validateModuleJson t = true ->
  exists ext,
    Module_new fuel raw ship h = (Ok (VRef (length h)), h ++ ext) /\
    forall h'' : heap,
      length (h ++ ext) <= length h'' ->
      (forall l, length h <= l < length (h ++ ext) -> h'' !! l = (h ++ ext) !! l) ->
      exists o, get_prop (VRef (length h)) "_object" h'' = (Ok o, h'') /\
                reify fuel h'' o = Ok t.
Proof.
  intros Ht Hplain Hvalid.
  destruct (Module_new_raw fuel h raw t ship Ht Hplain Hvalid) as (ext & Hnew & Hat).
  exists ext. split; [exact Hnew|]. intros h'' Hlen Hag.
  apply (module_at_agree _ _ _ h'') in Hat; [|exact Hag|exact Hlen].
  now apply module_at_facts in Hat as (_ & Hfacts).
Qed.

(** X10.  [update] with a raw record that the validator rejects raises an
    import error and leaves the module as it was: it still holds its old
    record, and no cell that existed before the call has changed. *)
Theorem Module_update_rejected (fuel : nat) (h : heap) (this old : val) (l : loc)
    (t : tree) (keep : option (list string)) :
  get_prop this "_object" h = (Ok old, h) ->
  instance_of (VRef l) ClsModule h = (Ok false, h) ->
  reify fuel h (VRef l) = Ok t ->
  validateModuleJson t = false ->
  exists ext,
    Module_update fuel this (VRef l) keep h = (Throw ImportExportError, h ++ ext) /\
    get_prop this "_object" (h ++ ext) = (Ok old, h ++ ext).
Proof.
  intros Hold Hraw Ht Hbad.
  destruct (cloneModuleToJSON_raw fuel h l t Hraw Ht) as (v' & ext & Hc & _).
  rewrite Hbad in Hc. exists ext. split.
  - unfold Module_update. run Hold. unfold bind. now rewrite Hc.
  - now apply get_prop_ext.
Qed.

End Copies.

Section Update.
Context `{Imports}.

(** X11.  [update(src, ['Slot'])], the call [setModule] makes, replaces the
    record of a module by a copy of the source and keeps the slot name.  For
    a source that is a [Module], or a raw record that the validator accepts,
    with the structure [{fs}]: the call succeeds, the module holds a new
    record whose [Slot] is the old slot name and whose structure is [fs] with
    [Slot] set to that name, and among the cells that existed before only the
    module itself has changed. *)
Theorem Module_update_keeps_slot (fuel : nat) (h : heap) (this : val) (lo : loc)
    (k0 : cls) (ps0 : list (string * val)) (s : string) (src : val) (k : cls)
    (fs : list (string * tree)) :
  get_prop this "_object" h = (Ok (VRef lo), h) -> this <> VRef lo ->
  h !! lo = Some (Obj k0 ps0) -> assoc "Slot" ps0 = Some (VStr s) ->
  (instance_of src ClsModule h = (Ok true, h) /\
   exists o, get_prop src "_object" h = (Ok o, h) /\
             reify fuel h o = Ok (TObj k fs)) \/
  (exists l, src = VRef l /\
             instance_of src ClsModule h = (Ok false, h) /\
             reify fuel h src = Ok (TObj k fs) /\
             validateModuleJson (TObj k fs) = true) ->
  exists (h' : heap) o',
    Module_update fuel this src (Some ["Slot"]) h = (Ok tt, h') /\
    get_prop this "_object" h' = (Ok o', h') /\
    get_prop o' "Slot" h' = (Ok (VStr s), h') /\
    reify fuel h' o' = Ok (TObj k (set_field "Slot" (TStr s) fs)) /\
    (forall l, l < length h -> this <> VRef l -> h' !! l = h !! l).
Proof.
  intros Hold Hne Hlo Hslot Hsrc.
  assert (Hclone : exists v' ext,
            cloneModuleToJSON fuel src h = (Ok v', h ++ ext) /\
            reify fuel (h ++ ext) v' = Ok (TObj k fs) /\
            within (length h) (length (h ++ ext)) fuel (h ++ ext) v').
  { destruct Hsrc as [(Hm & o & Ho & Ht) | (l & -> & Hraw & Ht & Hvalid)].
    - destruct (Module_toJSON_spec _ _ _ _ _ Ho Ht) as (v' & ext & Hj & Hr & Hw).
      exists v', ext. rewrite (cloneModuleToJSON_Module fuel h src Hm). auto.
    - destruct (cloneModuleToJSON_raw fuel h l _ Hraw Ht) as (v' & ext & Hc & Hr & Hw).
      rewrite Hvalid in Hc. eauto. }
  destruct Hclone as (v' & ext & Hc & Hr & Hw).
  destruct (Module_update_from fuel h this lo k0 ps0 s src v' ext k fs
              Hold Hne Hlo Hslot Hc Hr Hw)
    as (h' & Hu & Ho' & Hs' & Hr' & _ & _ & Hframe & _).
  exists h', v'. auto.
Qed.

End Update.

(** ** Selecting modules *)

Lemma module_record_facts (h : heap) m name item :
  module_record h m name item ->
  Module_method m h = (Ok tt, h) /\
  (exists l, m = VRef l /\ is_obj h l) /\
  exists o,
    get_prop m "_object" h = (Ok o, h) /\
    get_prop o "Slot" h = (Ok (VStr name), h) /\
    get_prop o "Item" h = (Ok (VStr item), h).
Proof.
  intros (Hm & lo & ps & Ho & Hlo & Hs & Hi). split; [|split].
  - unfold Module_method. now run Hm.
  - destruct (instance_of_true_inv _ _ _ Hm) as (l & pm & -> & Hl & _).
    exists l. split; [reflexivity | now exists ClsModule, pm].
  - exists (VRef lo). split; [exact Ho|].
    unfold get_prop. now rewrite Hlo, Hs, Hi.
Qed.

Lemma module_record_ext (h ext : heap) m name item :
  module_record h m name item -> module_record (h ++ ext) m name item.
Proof.
  intros (Hm & lo & ps & Ho & Hlo & Hs & Hi). split.
  - now apply instance_of_ext.
  - exists lo, ps. split; [now apply get_prop_ext|].
    split; [now apply lookup_app_l_Some | auto].
Qed.

Lemma ship_modules_ext (h ext : heap) this l :
  ship_modules h this l -> ship_modules (h ++ ext) this l.
Proof.
  intros (Hs & lo & ps & la & Ho & Hlo & Hm & Hla & Hl). split.
  - now apply instance_of_ext.
  - exists lo, ps, la. split; [now apply get_prop_ext|].
    split; [now apply lookup_app_l_Some|]. split; [exact Hm|].
    split; [now apply lookup_app_l_Some|].
    eapply Forall_impl; [exact Hl|]. intros e. apply module_record_ext.
Qed.

Lemma filter_Forall {A} (P : A -> Prop) (g : A -> bool) l :
  Forall P l -> Forall P (List.filter g l).
Proof.
  induction 1 as [|a l Ha _ IH]; simpl; [constructor|].
  destruct (g a); [now constructor | exact IH].
Qed.

Lemma filter_filter {A} (f g : A -> bool) l :
  List.filter f (List.filter g l) = List.filter (fun x => g x && f x) l.
Proof.
  induction l as [|a l IH]; simpl; [reflexivity|].
  destruct (g a); simpl; [|exact IH]. destruct (f a); now rewrite IH.
Qed.

(** A filter whose test is known on every element. *)
Lemma filterM_select (f : val -> M bool) (g : string * string -> bool) (h : heap) :
  forall l : list (val * (string * string)),
    Forall (fun e => f e.1 h = (Ok (g e.2), h)) l ->
    filterM f l.*1 h = (Ok (select g l), h).
Proof.
  unfold select. induction 1 as [|e l He _ IH]; simpl; [reflexivity|].
  run He. run IH. unfold ret. now destruct (g e.2).
Qed.

(** The modules on a slot that matches [d]. *)
Lemma Ship_modulesOnSlot_select (h : heap) this l d :
  ship_modules h this l ->
  Ship_modulesOnSlot this d h = (Ok (select (on_slot d) l), h).
Proof.
  intros (_ & lo & ps & la & Ho & Hlo & Hm & Hla & Hl).
  assert (Hmods : get_prop (VRef lo) "Modules" h = (Ok (VRef la), h)).
  { unfold get_prop. now rewrite Hlo, Hm. }
  assert (Hvals : collection_values (VRef la) h = (Ok l.*1, h)).
  { unfold collection_values. now rewrite Hla. }
  unfold Ship_modulesOnSlot. run Ho. run Hmods. run Hvals.
  apply filterM_select. eapply Forall_impl; [exact Hl|].
  intros [m [name item]] Hrec. simpl in *.
  destruct (module_record_facts _ _ _ _ Hrec) as (Hcall & _ & o & Hobj & Hslot & _).
  run Hcall. rewrite (bind_ok _ _ _ _ _ (Module_isOnSlot_value h m o name d Hobj Hslot)).
  unfold ret, on_slot. simpl. now destruct (String.eqb name "").
Qed.

(** X12.  [getModule(d)] returns the first module of the collection, in its
    order, that has a slot name matching [d], the entity itself and not a
    copy, or [undefined] when there is none; the store is unchanged. *)
Theorem Ship_getModule_first_match (h : heap) (this : val)
    (l : list (val * (string * string))) (d : slot) :
  ship_modules h this l ->
  Ship_getModule this d h = (Ok (hd VUndef (select (on_slot d) l)), h).
Proof.
  intros Hship. unfold Ship_getModule.
  now rewrite (bind_ok _ _ _ _ _ (Ship_modulesOnSlot_select h this l d Hship)).
Qed.

(** The array [getModules] returns. *)
Lemma Ship_getModules_select (h : heap) this l d type includeEmpty sort :
  ship_modules h this l ->
  Ship_getModules this d type includeEmpty sort h =
    (Ok (VRef (length h)), h ++ [Arr (uniq (select (wanted d type includeEmpty) l))]).
Proof.
  intros Hship. pose proof Hship as (_ & _ & _ & _ & _ & _ & _ & _ & Hl).
  unfold Ship_getModules.
  rewrite (bind_ok _ _ _ _ _ (Ship_modulesOnSlot_select h this l d Hship)).
  set (l1 := List.filter (fun e => on_slot d e.2) l).
  set (g2 := fun r : string * string => match type with Some t => t r.2 | None => true end).
  set (l2 := List.filter (fun e => g2 e.2) l1).
  set (g3 := fun r : string * string => includeEmpty || negb (String.eqb r.2 "")).
  set (l3 := List.filter (fun e => g3 e.2) l2).
  assert (Hl1 : Forall (fun e => module_record h e.1 e.2.1 e.2.2) l1)
    by now apply filter_Forall.
  assert (Hl2 : Forall (fun e => module_record h e.1 e.2.1 e.2.2) l2)
    by now apply filter_Forall.
  assert (Hl3 : Forall (fun e => module_record h e.1 e.2.1 e.2.2) l3)
    by now apply filter_Forall.
  assert (E2 : match type with
               | Some r =>
                   filterM (fun m =>
                     o <- get_prop m "_object" ;;
                     item <- get_prop o "Item" ;;
                     str_match item r) (select (on_slot d) l)
               | None => ret (select (on_slot d) l)
               end h = (Ok l2.*1, h)).
  { destruct type as [r|].
    - apply (filterM_select _ g2 h l1). eapply Forall_impl; [exact Hl1|].
      intros [m [name item]] Hrec. simpl in *.
      destruct (module_record_facts _ _ _ _ Hrec) as (_ & _ & o & Hobj & _ & Hitem).
      run Hobj. now run Hitem.
    - unfold ret, l2, g2, select. fold l1. f_equal. f_equal. f_equal.
      clear. induction l1 as [|a l1 IH]; simpl; [reflexivity | now rewrite <- IH]. }
  run E2.
  assert (E3 : (if includeEmpty then ret l2.*1
                else filterM (fun m =>
                       Module_method m ;;; e <- Module_isEmpty m ;; ret (negb e))
                     l2.*1) h = (Ok l3.*1, h)).
  { destruct includeEmpty.
    - unfold ret, l3, g3. simpl. f_equal. f_equal. f_equal.
      clear. induction l2 as [|a l2 IH]; simpl; [reflexivity | now rewrite <- IH].
    - apply (filterM_select _ g3 h l2). eapply Forall_impl; [exact Hl2|].
      intros [m [name item]] Hrec. simpl in *.
      destruct (module_record_facts _ _ _ _ Hrec) as (Hcall & _ & o & Hobj & _ & Hitem).
      run Hcall.
      assert (Hempty : Module_isEmpty m h = (Ok (String.eqb item ""), h)).
      { unfold Module_isEmpty. run Hobj. now run Hitem. }
      now run Hempty. }
  run E3.
  assert (E4 : (if sort then sortBy_identity l3.*1 else ret l3.*1) h = (Ok l3.*1, h)).
  { destruct sort; [|reflexivity]. apply sortBy_identity_objects.
    apply Forall_fmap. eapply Forall_impl; [exact Hl3|].
    intros [m [name item]] Hrec. simpl in *.
    now destruct (module_record_facts _ _ _ _ Hrec) as (_ & Hm & _). }
  run E4. unfold alloc. do 4 f_equal.
  unfold select, l3, l2, l1. rewrite !filter_filter.
  apply (f_equal (fun x : list (val * (string * string)) => uniq x.*1)).
  apply List.filter_ext. intros [m r]. unfold wanted, g2, g3.
  now rewrite Bool.andb_assoc.
Qed.

Section Selection.
Context `{Imports}.

(** X13.  [getModules(d, type, includeEmpty, sort)] returns a new array of
    the modules that have a slot name matching [d], whose item matches [type]
    when one is given, and whose item is not empty unless [includeEmpty]; they
    come in the order of the collection, whatever [sort] is, each entity
    once.  [getHardpoints] and [getUtilities] are this selection for the
    hardpoint and the utility pattern. *)
Theorem Ship_getModules_spec (h : heap) (this : val)
    (l : list (val * (string * string))) (d : slot) (type : option RegExp)
    (includeEmpty sort : bool) :
  ship_modules h this l ->
  let selected := fun d : slot =>
    (Ok (VRef (length h)),
     h ++ [Arr (uniq (select (wanted d type includeEmpty) l))]) in
  Ship_getModules this d type includeEmpty sort h = selected d /\
  Ship_getHardpoints this type includeEmpty h =
    selected (SRegExp REG_HARDPOINT_SLOT) /\
  Ship_getUtilities this type includeEmpty h =
    selected (SRegExp REG_UTILITY_SLOT).
Proof.
  intros Hship selected. unfold Ship_getHardpoints, Ship_getUtilities.
  split; [|split]; now apply Ship_getModules_select.
Qed.

(** X14.  [getInternals(type, includeEmpty)] returns the modules on internal
    slots followed by the modules on military slots, each group in the order
    of the collection; a module is listed in both groups when its slot name
    matches both patterns. *)
Theorem Ship_getInternals_internal_then_military (h : heap) (this : val)
    (l : list (val * (string * string))) (type : option RegExp)
    (includeEmpty : bool) :
  ship_modules h this l ->
  let xs := uniq (select (wanted (SRegExp REG_INTERNAL_SLOT) type includeEmpty) l) in
  let ys := uniq (select (wanted (SRegExp REG_MILITARY_SLOT) type includeEmpty) l) in
  Ship_getInternals this type includeEmpty h =
    (Ok (VRef (S (S (length h)))), h ++ [Arr xs; Arr ys; Arr (xs ++ ys)]).
Proof.
  intros Hship xs ys. unfold Ship_getInternals.
  rewrite (bind_ok _ _ _ _ _
             (Ship_getModules_select h this l _ type includeEmpty true Hship)).
  fold xs.
  rewrite (bind_ok _ _ _ _ _
             (Ship_getModules_select _ this l _ type includeEmpty true
                (ship_modules_ext h [Arr xs] this l Hship))).
  fold ys.
  assert (Ex : array_elems (VRef (length h)) ((h ++ [Arr xs]) ++ [Arr ys]) =
               (Ok xs, (h ++ [Arr xs]) ++ [Arr ys])).
  { unfold array_elems. now rewrite lookup_middle. }
  assert (Ey : array_elems (VRef (length (h ++ [Arr xs]))) ((h ++ [Arr xs]) ++ [Arr ys]) =
               (Ok ys, (h ++ [Arr xs]) ++ [Arr ys])).
  { unfold array_elems. now rewrite lookup_fresh. }
  run Ex. run Ey. unfold alloc. f_equal.
  - rewrite !length_app. simpl. do 2 f_equal. lia.
  - now rewrite <- !app_assoc.
Qed.

End Selection.

(** X15.  [getCoreModules()] returns a new array of eight entries in a fixed
    order; each is the first module whose slot name is exactly the core slot
    name of that position, or [undefined] when no module has that name. *)
Theorem Ship_getCoreModules_spec (h : heap) (this : val)
    (l : list (val * (string * string))) :
  ship_modules h this l ->
  Ship_getCoreModules this h =
    (Ok (VRef (length h)),
     h ++ [Arr ((fun name => hd VUndef (select (on_slot (SStr name)) l))
                  <$> core_slots)]).
Proof.
  intros Hship. unfold Ship_getCoreModules, Ship_getAlloys, Ship_getPowerPlant,
    Ship_getThrusters, Ship_getFSD, Ship_getLifeSupport, Ship_getPowerDistributor,
    Ship_getSensors, Ship_getCoreFuelTank.
  assert (Hget : forall d, Ship_getModule this d h =
                           (Ok (hd VUndef (select (on_slot d) l)), h)).
  { intros d. unfold Ship_getModule.
    now rewrite (bind_ok _ _ _ _ _ (Ship_modulesOnSlot_select h this l d Hship)). }
  rewrite !(bind_ok _ _ _ _ _ (Hget _)). reflexivity.
Qed.

Section Placement.
Context `{Imports}.

(** X16.  [setModule(d, module)] creates no slot: when no module of the
    ship has a slot name matching [d], it returns [false] and changes
    nothing, whatever [module] is. *)
Theorem Ship_setModule_no_match (fuel : nat) (h : heap) (this : val)
    (l : list (val * (string * string))) (d : slot) (module : val) :
  ship_modules h this l ->
  select (on_slot d) l = [] ->
  Ship_setModule fuel this d module h = (Ok (VBool false), h).
Proof.
  intros Hship Hnone.
  assert (Hget : Ship_getModule this d h = (Ok VUndef, h)).
  { unfold Ship_getModule.
    rewrite (bind_ok _ _ _ _ _ (Ship_modulesOnSlot_select h this l d Hship)).
    now rewrite Hnone. }
  unfold Ship_setModule. now run Hget.
Qed.

End Placement.

(** ** Replacing a module *)

Lemma assoc_set_field_eq k t fs : assoc k (set_field k t fs) = Some t.
Proof.
  induction fs as [|[k' t'] fs IH]; simpl.
  - now rewrite String.eqb_refl.
  - destruct (String.eqb k k') eqn:E; simpl; rewrite ?String.eqb_refl, ?E; auto.
Qed.

Lemma assoc_set_field_ne k k' t fs :
  k <> k' -> assoc k (set_field k' t fs) = assoc k fs.
Proof.
  intros Hne. induction fs as [|[k0 t0] fs IH]; simpl.
  - destruct (String.eqb k k') eqn:E; [apply String.eqb_eq in E; contradiction | reflexivity].
  - destruct (String.eqb k' k0) eqn:E; simpl.
    + apply String.eqb_eq in E. subst k0.
      destruct (String.eqb k k') eqn:E'; [apply String.eqb_eq in E'; contradiction | reflexivity].
    + now rewrite IH.
Qed.

(** Only a string unfolds to a string. *)
Lemma reify_str_inv fuel (h : heap) v s : reify fuel h v = Ok (TStr s) -> v = VStr s.
Proof.
  destruct v as [| | | | |l]; try (destruct fuel; simpl; congruence).
  intros Hr. apply reify_ref_inv in Hr as (f & c & ts & _ & _ & _ & Ht).
  destruct c; discriminate.
Qed.

(** The first module selected, and the collection around it. *)
Lemma select_first (f : string * string -> bool) item :
  forall l : list (val * (string * string)),
    select f l <> [] ->
    exists l1 m r l2,
      l = l1 ++ (m, r) :: l2 /\ f r = true /\
      hd VUndef (select f l) = m /\
      replace_first f item l = l1 ++ (m, (r.1, item)) :: l2.
Proof.
  unfold select. induction l as [|[m r] l IH]; simpl; [congruence|].
  destruct (f r) eqn:E.
  - intros _. exists [], m, r, l. auto.
  - intros Hne. destruct (IH Hne) as (l1 & m' & r' & l2 & -> & Hf & Hhd & Hrep).
    exists ((m, r) :: l1), m', r', l2. simpl. rewrite Hrep. auto.
Qed.

Lemma replace_first_fst f item (l : list (val * (string * string))) :
  (replace_first f item l).*1 = l.*1.
Proof.
  induction l as [|[m r] l IH]; simpl; [reflexivity|].
  destruct (f r); simpl; [reflexivity | f_equal; exact IH].
Qed.

(** A module keeps its record when another module is updated. *)
Lemma module_record_frame (h h' : heap) target m name item :
  instance_of target ClsModule h = (Ok true, h) ->
  (forall l, l < length h -> target <> VRef l -> h' !! l = h !! l) ->
  m <> target ->
  module_record h m name item -> module_record h' m name item.
Proof.
  intros Ht Hframe Hne (Hm & lo & ps & Ho & Hlo & Hs & Hi).
  destruct (instance_of_true_inv _ _ _ Ht) as (lt & pt & -> & Hlt & _).
  destruct (instance_of_true_inv _ _ _ Hm) as (lm & pm & -> & Hlm & _).
  assert (Hlm' : h' !! lm = Some (Obj ClsModule pm)).
  { rewrite Hframe; [exact Hlm | apply lookup_lt_is_Some; eauto | congruence]. }
  assert (Hlo' : h' !! lo = Some (Obj Plain ps)).
  { rewrite Hframe; [exact Hlo | apply lookup_lt_is_Some; eauto |].
    intros [= ->]. congruence. }
  split.
  - unfold instance_of. now rewrite Hlm'.
  - exists lo, ps. split; [|auto].
    revert Ho. unfold get_prop. rewrite Hlm, Hlm'. now intros [= ->].
Qed.

Section Replace.
Context `{Imports}.

(** X17.  [setModule(d, src)] on a ship with a module on a matching slot.
    For a source that is a [Module], or a raw record that the validator
    accepts, whose record is a plain object with the item [item']: the call
    returns [true]; afterwards the collection holds the same entities in the
    same order with the same slot names, and the first module that was on a
    matching slot has the item [item'], the others their old items. *)
Theorem Ship_setModule_replaces (fuel : nat) (h : heap) (this : val)
    (l : list (val * (string * string))) (d : slot) (src : val)
    (fs : list (string * tree)) (item' : string) :
  ship_modules h this l -> NoDup l.*1 ->
  select (on_slot d) l <> [] ->
  (instance_of src ClsModule h = (Ok true, h) /\
   exists o, get_prop src "_object" h = (Ok o, h) /\
             reify fuel h o = Ok (TObj Plain fs)) \/
  (exists lr, src = VRef lr /\
              instance_of src ClsModule h = (Ok false, h) /\
              reify fuel h src = Ok (TObj Plain fs) /\
              validateModuleJson (TObj Plain fs) = true) ->
  assoc "Item" fs = Some (TStr item') ->
  exists h' : heap,
    Ship_setModule fuel this d src h = (Ok (VBool true), h') /\
    ship_modules h' this (replace_first (on_slot d) item' l).
Proof.
  intros Hship Hnd Hsel Hsrc Hitem.
  destruct (select_first (on_slot d) item' l Hsel)
    as (l1 & mt & [name item] & l2 & Hl & Hon & Hhd & Hrep).
  assert (Hget : Ship_getModule this d h = (Ok mt, h)).
  { unfold Ship_getModule.
    rewrite (bind_ok _ _ _ _ _ (Ship_modulesOnSlot_select h this l d Hship)).
    now rewrite Hhd. }
  destruct Hship as (Hinst & lo & ps & la & Ho & Hlo & Hmods & Hla & Hall).
  assert (Hrec : module_record h mt name item).
  { rewrite Hl in Hall. apply Forall_app in Hall as (_ & Hall).
    now apply Forall_cons in Hall as (Hrec & _). }
  pose proof Hrec as (Hmt & lot & pst & Hot & Hlot & Hslot & _).
  destruct (instance_of_true_inv _ _ _ Hmt) as (lt & pt & -> & Hlt & _).
  destruct (instance_of_true_inv _ _ _ Hinst) as (ls & pss & -> & Hls & _).
  assert (Hclone : exists v' ext,
            cloneModuleToJSON fuel src h = (Ok v', h ++ ext) /\
            reify fuel (h ++ ext) v' = Ok (TObj Plain fs) /\
            within (length h) (length (h ++ ext)) fuel (h ++ ext) v').
  { destruct Hsrc as [(Hm & o & Hobj & Ht) | (lr & -> & Hraw & Ht & Hvalid)].
    - destruct (Module_toJSON_spec _ _ _ _ _ Hobj Ht) as (v' & ext & Hj & Hr & Hw).
      exists v', ext. rewrite (cloneModuleToJSON_Module fuel h src Hm). auto.
    - destruct (cloneModuleToJSON_raw fuel h lr _ Hraw Ht) as (v' & ext & Hc & Hr & Hw).
      rewrite Hvalid in Hc. eauto. }
  destruct Hclone as (v' & ext & Hc & Hr & Hw).
  assert (Hne : VRef lt <> VRef lot) by (intros [= ->]; congruence).
  destruct (Module_update_from fuel h (VRef lt) lot Plain pst name src v' ext Plain fs
              Hot Hne Hlot Hslot Hc Hr Hw)
    as (h' & Hu & Ho' & _ & Hr' & (lv & -> & Hlv) & Hlen & Hframe & Hcls).
  exists h'. split.
  { unfold Ship_setModule. run Hget. simpl. unfold Ship_setModule_on. now run Hu. }
  assert (Hls' : h' !! ls = Some (Obj ClsShip pss)).
  { rewrite Hframe; [exact Hls | apply lookup_lt_is_Some; eauto |].
    intros [= ->]. congruence. }
  split; [unfold instance_of; now rewrite Hls'|].
  exists lo, ps, la. split; [|split; [|split; [exact Hmods|split]]].
  - revert Ho. unfold get_prop. rewrite Hls, Hls'. now intros [= ->].
  - rewrite Hframe; [exact Hlo | apply lookup_lt_is_Some; eauto |].
    intros [= ->]. congruence.
  - rewrite replace_first_fst.
    rewrite Hframe; [exact Hla | apply lookup_lt_is_Some; eauto |].
    intros [= ->]. congruence.
  - rewrite Hrep. rewrite Hl in Hall, Hnd.
    rewrite fmap_app, fmap_cons in Hnd. simpl in Hnd.
    apply NoDup_app in Hnd as (_ & Hl1 & Hnd).
    apply NoDup_cons in Hnd as (Hl2 & _).
    apply Forall_app in Hall as (Hall1 & Hall2).
    apply Forall_cons in Hall2 as (_ & Hall2).
    apply Forall_app. split; [|apply Forall_cons; split].
    + apply Forall_forall. intros e He. rewrite Forall_forall in Hall1.
      apply (module_record_frame h h' (VRef lt)); auto.
      intros Heq. apply (Hl1 e.1); [|rewrite Heq; left].
      apply list_elem_of_fmap. eauto.
    + simpl. split; [now apply Hcls|].
      destruct (reify_ref_inv _ _ _ _ Hr') as (f & c & ts & _ & Hcell & Hkids & Htree).
      destruct c as [kc psc|]; [|discriminate]. simpl in Htree, Hkids.
      injection Htree as <- Hfs.
      exists lv, psc. split; [exact Ho'|]. split; [exact Hcell|].
      split.
      * destruct (assoc_Forall2 _ "Slot" (TStr name) psc ts Hkids) as (v & Hv & Hrv).
        { rewrite <- Hfs. apply assoc_set_field_eq. }
        now apply reify_str_inv in Hrv as ->.
      * destruct (assoc_Forall2 _ "Item" (TStr item') psc ts Hkids) as (v & Hv & Hrv).
        { rewrite <- Hfs. now rewrite assoc_set_field_ne. }
        now apply reify_str_inv in Hrv as ->.
    + apply Forall_forall. intros e He. rewrite Forall_forall in Hall2.
      apply (module_record_frame h h' (VRef lt)); auto.
      intros Heq. apply Hl2. rewrite <- Heq.
      apply list_elem_of_fmap. eauto.
Qed.

End Replace.

(** ** The constructed ship *)

Section Built.
Context `{Imports}.

(** [new Module(raw, ship)] for a raw object that the validator accepts: the
    new module is the cell made first, and it holds the ship. *)
Lemma Module_new_raw_cell fuel (h : heap) raw t ship :
  reify fuel h raw = Ok t ->
  is_plain_object t = true -> validateModuleJson t = true ->
  exists o ext,
    Module_new fuel raw ship h =
      (Ok (VRef (length h)), (h ++ [Module_cell o ship]) ++ ext).
Proof.
  intros Ht Hplain Hvalid.
  destruct t as [| | | | | |k fs]; try discriminate. destruct k; try discriminate.
  destruct (reify_obj_inv _ _ _ _ _ Ht) as (l & -> & _).
  assert (Hraw : instance_of (VRef l) ClsModule h = (Ok false, h)).
  { apply reify_ref_inv in Ht as (f & c & ts & _ & Hl & _ & Heq).
    unfold instance_of. rewrite Hl. destruct c as [k ps|]; [|discriminate].
    now injection Heq as <- _. }
  destruct (cloneModuleToJSON_raw fuel (h ++ [Module_blank]) l _
              (instance_of_ext _ _ _ _ _ Hraw) (reify_ext _ _ _ _ _ Ht))
    as (o' & ext & Hc & _).
  rewrite Hvalid in Hc. exists o', ext.
  exact (Module_new_run fuel h ext (VRef l) ship o' eq_refl Hc).
Qed.

(** The modules the constructor of a ship makes are distinct cells, each
    holding the ship. *)
Lemma modules_new_cells fuel ship raws : forall ts (h : heap),
  Forall2 (fun raw t =>
             reify fuel h raw = Ok t /\
             is_plain_object t = true /\ validateModuleJson t = true) raws ts ->
  exists ms ext,
    mapM (fun moduleObject => Module_new fuel moduleObject ship) raws h =
      (Ok ms, h ++ ext) /\
    Forall (fun m => exists lm o,
              m = VRef lm /\ length h <= lm /\
              (h ++ ext) !! lm = Some (Module_cell o ship)) ms /\
    NoDup ms.
Proof.
  induction raws as [|raw raws IH]; intros ts h Hall.
  - inversion Hall; subst. exists [], []. rewrite app_nil_r.
    split; [reflexivity|]. split; constructor.
  - inversion Hall as [|? t ? ts' (Ht & Hplain & Hvalid) Hrest]; subst.
    destruct (Module_new_raw_cell fuel h raw t ship Ht Hplain Hvalid)
      as (o & e1 & Hnew).
    set (h1 := (h ++ [Module_cell o ship]) ++ e1) in *.
    destruct (IH ts' h1) as (ms & e2 & Hms & Hcells & Hnd).
    { eapply Forall2_impl; [exact Hrest|]. intros raw' t' (Ht' & ?).
      split; [|assumption]. unfold h1. rewrite <- app_assoc. now apply reify_ext. }
    assert (Hlen : length h < length h1).
    { unfold h1. rewrite !length_app. simpl. lia. }
    exists (VRef (length h) :: ms), (([Module_cell o ship] ++ e1) ++ e2).
    rewrite !app_assoc. fold h1. split; [|split].
    + eapply mapM_cons; eauto.
    + constructor.
      * exists (length h), o. split; [reflexivity|]. split; [lia|].
        apply lookup_app_l_Some. unfold h1. apply lookup_middle.
      * eapply Forall_impl; [exact Hcells|].
        intros m (lm & o' & -> & Hlm & Hcell). exists lm, o'.
        split; [reflexivity|]. split; [lia | exact Hcell].
    + constructor; [|exact Hnd]. intros Hin.
      rewrite Forall_forall in Hcells.
      destruct (Hcells _ Hin) as (lm & o' & [= <-] & Hlm & _). lia.
Qed.

(** The constructor up to the point where it reads its argument: the new
    ship and its state are in the store. *)
Lemma Ship_new_start fuel (h : heap) buildFrom :
  exists st eS,
    Ship_new fuel buildFrom h =
      (buildFrom <- match buildFrom with
                    | VStr s => build (decompress s)
                    | _ => ret buildFrom
                    end ;;
       t <- snapshot fuel buildFrom ;;
       if negb (validateShipJson t) then throw ImportExportError
       else
         o <- cloneDeep fuel buildFrom ;;
         set_prop (VRef (length h)) "_object" o ;;;
         target <- get_prop (VRef (length h)) "_object" ;;
         o <- get_prop (VRef (length h)) "_object" ;;
         raw <- get_prop o "Modules" ;;
         modules <- lodash_map raw (fun moduleObject =>
                      Module_new fuel moduleObject (VRef (length h))) ;;
         set_prop target "Modules" modules ;;;
         ret (VRef (length h)))
        ((h ++ [Ship_cell VNull st]) ++ eS).
Proof.
  set (hA := h ++ [Obj ClsShip [("_object", VNull)]]).
  destruct (build_spec default_state hA) as (st & eS & _ & Hstate & _).
  exists st, eS.
  unfold Ship_new, alloc, bind at 1. unfold set_prop at 1, bind at 1.
  rewrite lookup_fresh, insert_fresh. simpl set_assoc. fold hA.
  unfold bind at 1. rewrite Hstate.
  unfold set_prop at 1, bind at 1. unfold hA.
  rewrite lookup_middle. simpl set_assoc. rewrite insert_middle.
  reflexivity.
Qed.

(** The ship the constructor makes, for an input that is read as a raw
    record [{fs}] that the validator accepts. *)
Lemma Ship_new_from fuel (h : heap) buildFrom fs mts :
  (forall hc : heap, h `prefix_of` hc ->
     exists v eB,
       match buildFrom with
       | VStr s => build (decompress s)
       | _ => ret buildFrom
       end hc = (Ok v, hc ++ eB) /\
       reify fuel (hc ++ eB) v = Ok (TObj Plain fs)) ->
  validateShipJson (TObj Plain fs) = true ->
  assoc "Modules" fs = Some (TArr mts) ->
  Forall (fun m => is_plain_object m = true /\ validateModuleJson m = true) mts ->
  exists f (h' : heap) lo (ps0 : list (string * val)) la ms st,
    fuel = S f /\
    Ship_new fuel buildFrom h = (Ok (VRef (length h)), h') /\
    h' !! length h = Some (Ship_cell (VRef lo) st) /\
    h' !! lo = Some (Obj Plain (set_assoc "Modules" (VRef la) ps0)) /\
    h' !! la = Some (Arr ms) /\
    Forall2 (module_at (length h) fuel h') ms mts /\
    Forall (fun m => exists lm o,
              m = VRef lm /\
              h' !! lm = Some (Module_cell o (VRef (length h)))) ms /\
    NoDup ms /\
    ps0.*1 = fs.*1 /\
    Forall2 (fun v t => reify f h' v = Ok t) ps0.*2 fs.*2.
Proof.
  intros Hstage Hvalid Hmods Hmts.
  destruct (Ship_new_start fuel h buildFrom) as (st & eS0 & Hstart).
  destruct (Hstage ((h ++ [Ship_cell VNull st]) ++ eS0)) as (v & eB & Hbuild & HxC).
  { exists ([Ship_cell VNull st] ++ eS0). now rewrite app_assoc. }
  rewrite <- (app_assoc _ eS0 eB) in Hbuild, HxC.
  set (eS := eS0 ++ eB) in *.
  set (hC := (h ++ [Ship_cell VNull st]) ++ eS) in *.
  destruct (cloneDeep_spec _ _ _ _ HxC) as (o & eO & Hclone & Hr & Hw).
  set (hG := ((h ++ [Ship_cell o st]) ++ eS) ++ eO).
  assert (HlenG : length hG = length (hC ++ eO)).
  { unfold hG, hC. rewrite !length_app. reflexivity. }
  assert (HlenC : length h < length hC).
  { unfold hC. rewrite !length_app. simpl. lia. }
  assert (HagG : forall l, length hC <= l < length (hC ++ eO) ->
                   hG !! l = (hC ++ eO) !! l).
  { intros l Hl. unfold hG, hC. rewrite <- !(app_assoc _ eS eO).
    apply agree_middle. lia. }
  destruct (within_agree _ _ _ _ _ _ HagG Hw) as (HwG & HrG).
  rewrite Hr in HrG.
  destruct (reify_obj_inv _ _ _ _ _ HrG) as (lo & -> & _).
  pose proof HrG as Hinv.
  apply reify_ref_inv in Hinv as (f & c & ts & -> & Hlo & Hts & Heq).
  destruct c as [k ps0|]; [|discriminate].
  simpl in Heq. injection Heq as <- Hfs. simpl in Hts.
  assert (Hlen : length ps0.*1 = length ts).
  { rewrite <- (Forall2_length _ _ _ Hts). now rewrite !length_fmap. }
  assert (Hkeys : ps0.*1 = fs.*1) by (rewrite Hfs; symmetry; apply fst_zip; lia).
  assert (Hvals : fs.*2 = ts) by (rewrite Hfs; apply snd_zip; lia).
  rewrite Hfs in Hmods.
  destruct (assoc_Forall2 _ _ _ _ _ Hts Hmods) as (vraw & Hraw & Hrraw).
  apply reify_arr_inv in Hrraw as (lraw & raws & f' & -> & -> & Hlraw & Hraws).
  assert (Hall : Forall2 (fun raw t =>
                    reify (S (S f')) hG raw = Ok t /\
                    is_plain_object t = true /\ validateModuleJson t = true)
                   raws mts).
  { clear -Hraws Hmts. induction Hraws as [|raw t raws mts Hraw _ IH];
      [constructor|]. inversion Hmts; subst. constructor; [|now apply IH].
    split; [|assumption]. eapply reify_mono; [exact Hraw | lia]. }
  destruct (modules_new (S (S f')) (VRef (length h)) raws mts hG Hall)
    as (ms & eM & Hms & Hmods_at).
  destruct (modules_new_cells (S (S f')) (VRef (length h)) raws mts hG Hall)
    as (ms' & eM' & Hms' & Hcells & Hnd).
  rewrite Hms in Hms'. injection Hms' as <- HeM. apply app_inv_head in HeM as <-.
  set (la := length (hG ++ eM)).
  set (hJ := (hG ++ eM) ++ [Arr ms]).
  set (hK := <[lo := Obj Plain (set_assoc "Modules" (VRef la) ps0)]> hJ).
  assert (HloG : lo < length hG) by (eapply lookup_lt_Some; eauto).
  assert (HloJ : hJ !! lo = Some (Obj Plain ps0)).
  { unfold hJ. now do 2 apply lookup_app_l_Some. }
  assert (Hset : set_prop (VRef lo) "Modules" (VRef la) hJ = (Ok tt, hK)).
  { unfold set_prop. now rewrite HloJ. }
  assert (HlenK : length hK = length hJ) by apply length_insert.
  assert (HagK : forall l, l <> lo -> hK !! l = hJ !! l).
  { intros l Hl. unfold hK. now apply list_lookup_insert_ne. }
  assert (Hrange : length hC <= lo).
  { now apply within_ref_inv in HwG as (Hrange & _). }
  exists (S f'), hK, lo, ps0, la, ms, st.
  split; [reflexivity|]. split; [|split; [|split; [|split; [|split; [|split; [|split; [|split]]]]]]].
  - (* the run *)
    rewrite Hstart. run Hbuild.
    unfold snapshot at 1, bind at 1.
    rewrite HxC, Hvalid. unfold negb.
    unfold bind at 1. rewrite Hclone.
    unfold set_prop at 1, bind at 1. unfold hC, Ship_cell at 1.
    rewrite lookup_middle2. simpl set_assoc. rewrite insert_middle2.
    fold (Ship_cell (VRef lo) st). fold hG.
    assert (Hthis : get_prop (VRef (length h)) "_object" hG = (Ok (VRef lo), hG)).
    { unfold get_prop, hG. now rewrite lookup_middle2. }
    run Hthis. run Hthis.
    assert (Hget : get_prop (VRef lo) "Modules" hG = (Ok (VRef lraw), hG)).
    { unfold get_prop. now rewrite Hlo, Hraw. }
    run Hget.
    unfold lodash_map, collection_values, bind at 1, bind at 1.
    rewrite Hlraw. simpl cell_values. unfold bind at 1, bind at 1.
    rewrite Hms. unfold alloc at 1. fold la. fold hJ.
    now rewrite Hset.
  - rewrite HagK by lia. unfold hJ, hG.
    exact (lookup_app_l_Some _ _ _ _
             (lookup_app_l_Some _ _ _ _ (lookup_middle2 h eS eO _))).
  - unfold hK. apply list_lookup_insert_eq. unfold hJ.
    rewrite !length_app. lia.
  - rewrite HagK by (unfold la; rewrite length_app; lia).
    apply lookup_fresh.
  - eapply Forall2_impl; [exact Hmods_at|]. intros m t Hm.
    apply (module_at_weaken (length hG)); [rewrite HlenG, length_app; lia|].
    apply (module_at_agree _ _ hJ).
    + intros l Hl. apply HagK. lia.
    + lia.
    + now apply module_at_ext.
  - eapply Forall_impl; [exact Hcells|].
    intros m (lm & om & -> & Hlm & Hcell). exists lm, om.
    split; [reflexivity|]. rewrite HagK by lia.
    unfold hJ. now apply lookup_app_l_Some.
  - exact Hnd.
  - exact Hkeys.
  - rewrite Hvals.
    apply within_ref_inv in HwG as (_ & f0 & c & [= <-] & Hc & Hchildren).
    rewrite Hlo in Hc. injection Hc as <-.
    change (cell_values (Obj Plain ps0)) with ps0.*2 in Hchildren.
    assert (Hag : forall l, length hC <= l < lo -> hK !! l = hG !! l).
    { intros l Hl. rewrite HagK by lia. unfold hJ.
      rewrite <- app_assoc. apply lookup_app_l. lia. }
    eapply Forall2_Forall_impl; [exact Hts | exact Hchildren |].
    intros x t Hx Hwx.
    destruct (within_agree _ _ _ _ _ _ Hag Hwx) as (_ & Heq). congruence.
Qed.

(** An input held by the caller is read as it is. *)
Lemma stage_value fuel (h : heap) v fs :
  reify fuel h v = Ok (TObj Plain fs) ->
  forall hc : heap, h `prefix_of` hc ->
    exists v' eB,
      match v with
      | VStr s => build (decompress s)
      | _ => ret v
      end hc = (Ok v', hc ++ eB) /\
      reify fuel (hc ++ eB) v' = Ok (TObj Plain fs).
Proof.
  intros Hx hc (e & ->).
  destruct (reify_obj_inv _ _ _ _ _ Hx) as (lv & -> & _).
  exists (VRef lv), []. rewrite app_nil_r. split; [reflexivity|].
  now apply reify_ext.
Qed.

(** X18.  Every module of a constructed ship refers back to the ship.  For a
    raw ship record that the validators accept, [new Ship] makes one module
    for each entry of [Modules], all of them distinct entities, and the
    [_ship] of each is the new ship. *)
Theorem Ship_new_back_references (fuel : nat) (h : heap) (v : val)
    (fs : list (string * tree)) (mts : list tree) :
  reify fuel h v = Ok (TObj Plain fs) ->
  validateShipJson (TObj Plain fs) = true ->
  assoc "Modules" fs = Some (TArr mts) ->
  Forall (fun m => is_plain_object m = true /\ validateModuleJson m = true) mts ->
  exists ship (h' : heap) o la ms,
    Ship_new fuel v h = (Ok ship, h') /\
    instance_of ship ClsShip h' = (Ok true, h') /\
    get_prop ship "_object" h' = (Ok o, h') /\
    get_prop o "Modules" h' = (Ok (VRef la), h') /\
    h' !! la = Some (Arr ms) /\
    length ms = length mts /\ NoDup ms /\
    Forall (fun m => instance_of m ClsModule h' = (Ok true, h') /\
                     get_prop m "_ship" h' = (Ok ship, h')) ms.
Proof.
  intros Hx Hvalid Hmods Hmts.
  destruct (Ship_new_from fuel h v fs mts (stage_value fuel h v fs Hx) Hvalid Hmods Hmts)
    as (f & h' & lo & ps0 & la & ms & st & -> & Hnew & Hship & Hlo & Hla & Hat
        & Hcells & Hnd & _).
  exists (VRef (length h)), h', (VRef lo), la, ms.
  split; [exact Hnew|]. split; [unfold instance_of; now rewrite Hship|].
  split; [unfold get_prop; now rewrite Hship|].
  split; [unfold get_prop; now rewrite Hlo, assoc_set_assoc_eq|].
  split; [exact Hla|]. split; [exact (Forall2_length _ _ _ Hat)|].
  split; [exact Hnd|].
  eapply Forall_impl; [exact Hcells|]. intros m (lm & o & -> & Hcell).
  unfold instance_of, get_prop. now rewrite Hcell.
Qed.

(** A module made from a raw record with a slot name and an item. *)
Lemma module_at_record a fuel (h : heap) m t name item :
  module_at a fuel h m t -> slot_and_item t = Some (name, item) ->
  module_record h m name item.
Proof.
  intros (lm & o & ship & -> & _ & Hcell & Hr & _) Hsi.
  destruct t as [| | | | | |k fs]; try discriminate. destruct k; try discriminate.
  simpl in Hsi.
  destruct (assoc "Slot" fs) as [[| | | |name'| |]|] eqn:Hs; try discriminate.
  destruct (assoc "Item" fs) as [[| | | |item'| |]|] eqn:Hi; try discriminate.
  injection Hsi as -> ->.
  destruct (reify_obj_inv _ _ _ _ _ Hr) as (lo & -> & _).
  destruct (reify_ref_inv _ _ _ _ Hr) as (f & c & ts & _ & Hlo & Hkids & Htree).
  destruct c as [kc ps|]; [|discriminate]. simpl in Htree, Hkids.
  injection Htree as <- ->.
  split; [unfold instance_of; now rewrite Hcell|].
  exists lo, ps. split; [unfold get_prop; now rewrite Hcell|].
  split; [exact Hlo|]. split.
  - destruct (assoc_Forall2 _ _ _ _ _ Hkids Hs) as (v & Hv & Hrv).
    now apply reify_str_inv in Hrv as ->.
  - destruct (assoc_Forall2 _ _ _ _ _ Hkids Hi) as (v & Hv & Hrv).
    now apply reify_str_inv in Hrv as ->.
Qed.

(** X19.  The collection of a constructed ship mirrors the input.  For a raw
    ship record that the validators accept and whose module entries have the
    slot names and items [recs], in this order, [new Ship] makes a ship whose
    collection lists distinct modules with exactly these slot names and
    items, in the same order. *)
Theorem Ship_new_modules (fuel : nat) (h : heap) (v : val)
    (fs : list (string * tree)) (mts : list tree)
    (recs : list (string * string)) :
  reify fuel h v = Ok (TObj Plain fs) ->
  validateShipJson (TObj Plain fs) = true ->
  assoc "Modules" fs = Some (TArr mts) ->
  Forall (fun m => validateModuleJson m = true) mts ->
  Forall2 (fun m r => slot_and_item m = Some r) mts recs ->
  exists (h' : heap) ms,
    Ship_new fuel v h = (Ok (VRef (length h)), h') /\
    length ms = length recs /\ NoDup ms /\
    ship_modules h' (VRef (length h)) (zip ms recs).
Proof.
  intros Hx Hvalid Hmods Hvalids Hrecs.
  assert (Hmts : Forall (fun m => is_plain_object m = true /\
                                  validateModuleJson m = true) mts).
  { clear -Hvalids Hrecs. induction Hrecs as [|m r mts recs Hr _ IH];
      [constructor|].
    apply Forall_cons in Hvalids as (Hv & Hvalids). constructor; [|now apply IH].
    split; [|exact Hv]. destruct m as [| | | | | |k ?]; try discriminate.
    now destruct k. }
  destruct (Ship_new_from fuel h v fs mts (stage_value fuel h v fs Hx) Hvalid Hmods Hmts)
    as (f & h' & lo & ps0 & la & ms & st & -> & Hnew & Hship & Hlo & Hla & Hat
        & _ & Hnd & _).
  assert (Hlen : length ms = length recs).
  { rewrite (Forall2_length _ _ _ Hat). exact (Forall2_length _ _ _ Hrecs). }
  exists h', ms. split; [exact Hnew|]. split; [exact Hlen|]. split; [exact Hnd|].
  split; [unfold instance_of; now rewrite Hship|].
  exists lo, (set_assoc "Modules" (VRef la) ps0), la.
  split; [unfold get_prop; now rewrite Hship|]. split; [exact Hlo|].
  split; [apply assoc_set_assoc_eq|].
  split; [rewrite fst_zip by lia; exact Hla|].
  clear -Hat Hrecs. revert recs Hrecs.
  induction Hat as [|m t ms mts Hm _ IH]; intros recs Hrecs.
  - inversion Hrecs; subst. constructor.
  - inversion Hrecs as [|? [name item] ? recs' Hr Hrest]; subst. simpl.
    constructor; [|now apply IH]. simpl. eapply module_at_record; eauto.
Qed.

(** The constructor of a ship stops at the first module entry that the
    validator rejects. *)
Lemma modules_new_rejected fuel ship raws : forall ts (h : heap),
  Forall2 (fun raw t => reify fuel h raw = Ok t /\ is_plain_object t = true)
          raws ts ->
  Exists (fun t => validateModuleJson t = false) ts ->
  exists h' : heap,
    mapM (fun moduleObject => Module_new fuel moduleObject ship) raws h =
      (Throw ImportExportError, h').
Proof.
  induction raws as [|raw raws IH]; intros ts h Hall Hbad.
  - inversion Hall; subst. inversion Hbad.
  - inversion Hall as [|? t ? ts' (Ht & Hplain) Hrest]; subst.
    destruct (validateModuleJson t) eqn:Hvalid.
    + destruct (Module_new_raw fuel h raw t ship Ht Hplain Hvalid) as (e1 & Hnew & _).
      apply Exists_cons in Hbad as [Hbad | Hbad]; [congruence|].
      destruct (IH ts' (h ++ e1)) as (h' & Hrun); [|exact Hbad|].
      { eapply Forall2_impl; [exact Hrest|]. intros raw' t' (Ht' & ?).
        split; [now apply reify_ext | assumption]. }
      exists h'. simpl. run Hnew.
      fold (mapM (fun moduleObject => Module_new fuel moduleObject ship)).
      unfold bind. now rewrite Hrun.
    + destruct t as [| | | | | |k fs]; try discriminate. destruct k; try discriminate.
      destruct (reify_obj_inv _ _ _ _ _ Ht) as (l & -> & _).
      assert (Hraw : instance_of (VRef l) ClsModule h = (Ok false, h)).
      { apply reify_ref_inv in Ht as (f & c & ts0 & _ & Hl & _ & Heq).
        unfold instance_of. rewrite Hl. destruct c as [k ps|]; [|discriminate].
        now injection Heq as <- _. }
      destruct (cloneModuleToJSON_raw fuel (h ++ [Module_blank]) l _
                  (instance_of_ext _ _ _ _ _ Hraw) (reify_ext _ _ _ _ _ Ht))
        as (o' & ext & Hc & _).
      rewrite Hvalid in Hc.
      pose proof (Module_new_raise fuel h _ (VRef l) ship _ eq_refl Hc) as Hnew.
      eexists. simpl. unfold bind. now rewrite Hnew.
Qed.

(** X20.  The constructor rejects what a validator rejects.  [new Ship(v)]
    raises an import error when [validateShipJson] rejects the record [v];
    and when it accepts a record whose [Modules] lists plain objects one of
    which [validateModuleJson] rejects, the constructor raises an import
    error as well. *)
Theorem Ship_new_rejected (fuel : nat) (h : heap) (v : val)
    (fs : list (string * tree)) (mts : list tree) :
  reify fuel h v = Ok (TObj Plain fs) ->
  assoc "Modules" fs = Some (TArr mts) ->
  Forall (fun m => is_plain_object m = true) mts ->
  validateShipJson (TObj Plain fs) = false \/
  Exists (fun m => validateModuleJson m = false) mts ->
  (Ship_new fuel v h).1 = Throw ImportExportError.
Proof.
  intros Hx Hmods Hplain Hbad.
  destruct (Ship_new_start fuel h v) as (st & eS & Hstart). rewrite Hstart.
  set (hC := (h ++ [Ship_cell VNull st]) ++ eS).
  destruct (stage_value fuel h v fs Hx hC) as (v' & eB & Hstage & HxC).
  { exists ([Ship_cell VNull st] ++ eS). unfold hC. now rewrite app_assoc. }
  destruct (reify_obj_inv _ _ _ _ _ Hx) as (lv & -> & _).
  injection Hstage as <- HeB.
  assert (eB = []) as ->.
  { apply (app_inv_head hC). now rewrite app_nil_r. }
  rewrite app_nil_r in HxC. clear HeB.
  unfold ret at 1, bind at 1. unfold snapshot at 1, bind at 1. rewrite HxC.
  destruct (validateShipJson (TObj Plain fs)) eqn:Hvalid; [|reflexivity].
  destruct Hbad as [Hbad | Hbad]; [discriminate|]. unfold negb.
  destruct (cloneDeep_spec _ _ _ _ HxC) as (o & eO & Hclone & Hr & Hw).
  run Hclone.
  destruct (reify_obj_inv _ _ _ _ _ Hr) as (lo & -> & _).
  set (hG := ((h ++ [Ship_cell (VRef lo) st]) ++ eS) ++ eO).
  assert (Hset : set_prop (VRef (length h)) "_object" (VRef lo) (hC ++ eO) = (Ok tt, hG)).
  { unfold set_prop, hC. rewrite lookup_middle2. unfold Ship_cell. simpl set_assoc.
    now rewrite insert_middle2. }
  run Hset.
  assert (Hthis : get_prop (VRef (length h)) "_object" hG = (Ok (VRef lo), hG)).
  { unfold get_prop, hG. now rewrite lookup_middle2. }
  run Hthis. run Hthis.
  assert (HagG : forall l, length hC <= l < length (hC ++ eO) ->
                   hG !! l = (hC ++ eO) !! l).
  { intros l Hl. unfold hG, hC. rewrite <- !(app_assoc _ eS eO).
    apply agree_middle. unfold hC in Hl. rewrite !length_app in Hl. simpl in Hl. lia. }
  destruct (within_agree _ _ _ _ _ _ HagG Hw) as (_ & HrG). rewrite Hr in HrG.
  apply reify_ref_inv in HrG as (f & c & ts & -> & Hlo & Hts & Heq).
  destruct c as [k ps0|]; [|discriminate].
  simpl in Heq. injection Heq as <- Hfs. simpl in Hts.
  rewrite Hfs in Hmods.
  destruct (assoc_Forall2 _ _ _ _ _ Hts Hmods) as (vraw & Hraw & Hrraw).
  apply reify_arr_inv in Hrraw as (lraw & raws & f' & -> & -> & Hlraw & Hraws).
  assert (Hget : get_prop (VRef lo) "Modules" hG = (Ok (VRef lraw), hG)).
  { unfold get_prop. now rewrite Hlo, Hraw. }
  run Hget.
  assert (Hall : Forall2 (fun raw t =>
                    reify (S (S f')) hG raw = Ok t /\ is_plain_object t = true)
                   raws mts).
  { clear -Hraws Hplain. induction Hraws as [|raw t raws mts Hraw _ IH];
      [constructor|]. inversion Hplain; subst. constructor; [|now apply IH].
    split; [|assumption]. eapply reify_mono; [exact Hraw | lia]. }
  destruct (modules_new_rejected (S (S f')) (VRef (length h)) raws mts hG Hall Hbad)
    as (h' & Hms).
  unfold lodash_map, collection_values, bind at 1, bind at 1.
  rewrite Hlraw. simpl cell_values. unfold bind at 1, bind at 1.
  now rewrite Hms.
Qed.

End Built.

(** ** Export of a constructed ship *)

(** [toJSON()] on a ship as the constructor leaves it returns a record with
    the structure of the input. *)
Lemma Ship_toJSON_of_built f (h h1 : heap) lo (ps0 : list (string * val)) la ms fs mts st :
  h1 !! length h = Some (Ship_cell (VRef lo) st) ->
  h1 !! lo = Some (Obj Plain (set_assoc "Modules" (VRef la) ps0)) ->
  h1 !! la = Some (Arr ms) ->
  Forall2 (module_at (length h) (S f) h1) ms mts ->
  ps0.*1 = fs.*1 ->
  Forall2 (fun v t => reify f h1 v = Ok t) ps0.*2 fs.*2 ->
  assoc "Modules" fs = Some (TArr mts) ->
  exists r (h2 : heap),
    Ship_toJSON (S f) (VRef (length h)) h1 = (Ok r, h2) /\
    reify (S f) h2 r = Ok (TObj Plain fs).
Proof.
  intros Hship Hlo Hla Hms Hkeys Hvals Hmods.
  assert (Hobj : get_prop (VRef (length h)) "_object" h1 = (Ok (VRef lo), h1)).
  { unfold get_prop. now rewrite Hship. }
  assert (Hms' : Forall2 (fun m t =>
                    instance_of m ClsModule h1 = (Ok true, h1) /\
                    exists o, get_prop m "_object" h1 = (Ok o, h1) /\
                              reify (S f) h1 o = Ok t) ms mts).
  { eapply Forall2_impl; [exact Hms|]. intros m t. apply module_at_facts. }
  destruct (Ship_toJSON_frame (S f) h1 (VRef (length h)) lo Plain _ la ms mts
              ltac:(lia) Hobj Hlo (assoc_set_assoc_eq _ _ _) Hla Hms')
    as (ext & copies & Hrun & Hall).
  cbv zeta in Hrun, Hall. rewrite set_assoc_twice in Hrun, Hall.
  set (la' := length (h1 ++ ext)) in *.
  set (ps3 := set_assoc "Modules" (VRef la') ps0) in *.
  set (h2 := (h1 ++ ext) ++ [Arr copies; Obj Plain ps3]) in *.
  assert (Hla' : h2 !! la' = Some (Arr copies)).
  { unfold h2, la'. now apply list_lookup_middle. }
  assert (Hr : h2 !! S la' = Some (Obj Plain ps3)).
  { unfold h2. change [Arr copies; Obj Plain ps3]
      with ([Arr copies] ++ [Obj Plain ps3]).
    rewrite app_assoc.
    replace (S la') with (length ((h1 ++ ext) ++ [Arr copies]))
      by (unfold la'; rewrite (length_app _ [_]); simpl; lia).
    apply lookup_fresh. }
  assert (Hext : forall fuel' v' t', reify fuel' h1 v' = Ok t' ->
                                     reify fuel' h2 v' = Ok t').
  { intros fuel' v' t' Hv'. unfold h2. rewrite <- app_assoc. now apply reify_ext. }
  assert (Hzip : zip ps0.*1 fs.*2 = fs) by (rewrite Hkeys; apply zip_fst_snd).
  assert (Hmods0 : assoc "Modules" (zip ps0.*1 fs.*2) = Some (TArr mts))
    by now rewrite Hzip.
  assert (Harr : reify f h2 (VRef la') = Ok (TArr mts)).
  { destruct (assoc_Forall2 _ _ _ _ _ Hvals Hmods0) as (vraw & _ & Hraw).
    eapply (reify_depth f h1 h2 vraw (VRef la') (S (S f))); [exact Hraw|].
    apply (reify_ref_intro (S f) h2 la' (Arr copies) mts Hla').
    eapply Forall2_impl; [exact Hall|]. now intros c t [Hc _]. }
  destruct (set_assoc_Forall2 (fun v' t' => reify f h2 v' = Ok t')
              "Modules" (VRef la') (TArr mts) ps0 fs.*2) as (Hvals3 & Hkeys3).
  { eapply Forall2_impl; [exact Hvals|]. intros; now apply Hext. }
  { exact Hmods0. }
  { exact Harr. }
  fold ps3 in Hvals3, Hkeys3.
  exists (VRef (S la')), h2. split; [exact Hrun|].
  replace (TObj Plain fs) with (tree_of (Obj Plain ps3) fs.*2)
    by (simpl; now rewrite Hkeys3, Hzip).
  now apply reify_ref_intro.
Qed.

(** The fuel a structure needs does not depend on the store it is built
    in. *)
Lemma build_fuel t :
  exists n, forall fuel, n <= fuel -> forall hc : heap,
    exists v eB, build t hc = (Ok v, hc ++ eB) /\ reify fuel (hc ++ eB) v = Ok t.
Proof.
  destruct (build_spec t []) as (v0 & e0 & n & _ & Hr0).
  exists n. intros fuel Hfuel hc.
  destruct (build_spec t hc) as (v & eB & n' & Hb & Hr).
  exists v, eB. split; [exact Hb|].
  exact (reify_depth fuel _ _ v0 v n' t (Hr0 fuel Hfuel) (Hr n' (Nat.le_refl _))).
Qed.

Section Exported.
Context `{Imports} `{Lookups}.

(** X21.  A ship built from an encoded string.  When the decoder reads the
    string as a raw ship record [x] that the validators accept, [new Ship]
    succeeds on the string, given fuel for the depth of [x], and [toJSON()]
    on the new ship returns a record that unfolds to [x]. *)
Theorem Ship_from_string_round_trip (s : string) (h : heap) :
  validateShipJson (decompress s) = true ->
  raw_ship_record (decompress s) ->
  exists n, forall fuel, n <= fuel ->
    exists ship (h1 : heap) r (h2 : heap),
      Ship_new fuel (VStr s) h = (Ok ship, h1) /\
      Ship_toJSON fuel ship h1 = (Ok r, h2) /\
      reify fuel h2 r = Ok (decompress s).
Proof.
  intros Hvalid (fs & mts & Hx & Hmods & Hmts).
  destruct (build_fuel (decompress s)) as (n & Hn).
  exists n. intros fuel Hfuel. rewrite Hx in *.
  destruct (Ship_new_from fuel h (VStr s) fs mts) as
    (f & h1 & lo & ps0 & la & ms & st & -> & Hnew & Hship & Hlo & Hla & Hat
     & _ & _ & Hkeys & Hvals); auto.
  { intros hc _. rewrite Hx. apply (Hn _ Hfuel). }
  destruct (Ship_toJSON_of_built f h h1 lo ps0 la ms fs mts st
              Hship Hlo Hla Hat Hkeys Hvals Hmods) as (r & h2 & Hjson & Hr).
  now exists (VRef (length h)), h1, r, h2.
Qed.

(** X22.  [Ship.compress()] encodes the record the ship was built from.  For
    a raw ship record [x] that the validators accept, [compress()] on
    [new Ship(x)] returns the encoding of [x]; and when the decoder reads
    that encoding back as [x], a ship built from the string exports [x]
    again. *)
Theorem Ship_compress_round_trip (fuel : nat) (h : heap) (v : val) (x : tree) :
  reify fuel h v = Ok x ->
  validateShipJson x = true ->
  raw_ship_record x ->
  exists ship (h1 h2 : heap),
    Ship_new fuel v h = (Ok ship, h1) /\
    Ship_compress fuel ship h1 = (Ok (VStr (compress x)), h2) /\
    (decompress (compress x) = x ->
     exists n, forall fuel', n <= fuel' ->
       exists ship' (h3 : heap) r (h4 : heap),
         Ship_new fuel' (VStr (compress x)) h2 = (Ok ship', h3) /\
         Ship_toJSON fuel' ship' h3 = (Ok r, h4) /\
         reify fuel' h4 r = Ok x).
Proof.
  intros Hx Hvalid Hraw. pose proof Hraw as (fs & mts & -> & Hmods & Hmts).
  destruct (Ship_new_from fuel h v fs mts (stage_value fuel h v fs Hx) Hvalid Hmods Hmts)
    as (f & h1 & lo & ps0 & la & ms & st & -> & Hnew & Hship & Hlo & Hla & Hat
        & _ & _ & Hkeys & Hvals).
  destruct (Ship_toJSON_of_built f h h1 lo ps0 la ms fs mts st
              Hship Hlo Hla Hat Hkeys Hvals Hmods) as (r & h2 & Hjson & Hr).
  exists (VRef (length h)), h1, h2. split; [exact Hnew|]. split.
  - unfold Ship_compress. run Hjson. unfold snapshot, bind. now rewrite Hr.
  - intros Hcodec.
    destruct (build_fuel (TObj Plain fs)) as (n & Hn).
    exists n. intros fuel' Hfuel.
    destruct (Ship_new_from fuel' h2 (VStr (compress (TObj Plain fs))) fs mts) as
      (f' & h3 & lo' & ps0' & la' & ms' & st' & -> & Hnew' & Hship' & Hlo' & Hla'
       & Hat' & _ & _ & Hkeys' & Hvals'); auto.
    { intros hc _. rewrite Hcodec. apply (Hn _ Hfuel). }
    destruct (Ship_toJSON_of_built f' h2 h3 lo' ps0' la' ms' fs mts st'
                Hship' Hlo' Hla' Hat' Hkeys' Hvals' Hmods) as (r' & h4 & Hjson' & Hr').
    now exists (VRef (length h2)), h3, r', h4.
Qed.

(** X23.  [Module.compress()] encodes the record the module was built from:
    for a raw record [t] that the validator accepts, [compress()] on
    [new Module(t)] returns the encoding of [t] and leaves the store as it
    is. *)
Theorem Module_compress_round_trip (fuel : nat) (h : heap) (raw : val) (t : tree)
    (ship : val) :
  reify fuel h raw = Ok t ->
  is_plain_object t = true -> validateModuleJson t = true ->
  exists m (h1 : heap),
    Module_new fuel raw ship h = (Ok m, h1) /\
    Module_compress fuel m h1 = (Ok (VStr (compress t)), h1).
Proof.
  intros Ht Hplain Hvalid.
  destruct (Module_new_raw fuel h raw t ship Ht Hplain Hvalid) as (ext & Hnew & Hat).
  apply module_at_facts in Hat as (_ & o & Ho & Hr).
  exists (VRef (length h)), (h ++ ext). split; [exact Hnew|].
  unfold Module_compress. run Ho. unfold snapshot, bind. now rewrite Hr.
Qed.

(** X24.  The lookups on the modules of a constructed ship.  For a raw ship
    record of the type [ty] that the validators accept, whose module entries
    have the slot names and items [recs]: on the module made for an entry,
    [getSize()] is the size of its slot on a ship of that type, or [null] for
    an empty slot name, and [getClass()] and [getRating()] look up its item,
    or are [null] for an empty item. *)
Theorem Ship_new_module_lookups (fuel : nat) (h : heap) (v : val)
    (fs : list (string * tree)) (mts : list tree)
    (recs : list (string * string)) (ty : string) :
  reify fuel h v = Ok (TObj Plain fs) ->
  validateShipJson (TObj Plain fs) = true ->
  assoc "Modules" fs = Some (TArr mts) ->
  assoc "Ship" fs = Some (TStr ty) ->
  Forall (fun m => validateModuleJson m = true) mts ->
  Forall2 (fun m r => slot_and_item m = Some r) mts recs ->
  exists (h' : heap) ms,
    Ship_new fuel v h = (Ok (VRef (length h)), h') /\
    ship_modules h' (VRef (length h)) (zip ms recs) /\
    Forall2 (fun m r =>
      Module_getSize m h' =
        (Ok (if String.eqb r.1 "" then VNull
             else getSlotSize (VStr ty) (VStr r.1)), h') /\
      Module_getClass m h' =
        (Ok (if String.eqb r.2 "" then VNull else getClass (VStr r.2)), h') /\
      Module_getRating m h' =
        (Ok (if String.eqb r.2 "" then VNull else getRating (VStr r.2)), h'))
      ms recs.
Proof.
  intros Hx Hvalid Hmods Hty Hvalids Hrecs.
  assert (Hmts : Forall (fun m => is_plain_object m = true /\
                                  validateModuleJson m = true) mts).
  { clear -Hvalids Hrecs. induction Hrecs as [|m r mts recs Hr _ IH];
      [constructor|].
    apply Forall_cons in Hvalids as (Hv & Hvalids). constructor; [|now apply IH].
    split; [|exact Hv]. destruct m as [| | | | | |k ?]; try discriminate.
    now destruct k. }
  destruct (Ship_new_from fuel h v fs mts (stage_value fuel h v fs Hx) Hvalid Hmods Hmts)
    as (f & h' & lo & ps0 & la & ms & st & -> & Hnew & Hship & Hlo & Hla & Hat
        & Hcells & _ & Hkeys & Hvals).
  assert (Hlen : length ms = length recs).
  { rewrite (Forall2_length _ _ _ Hat). exact (Forall2_length _ _ _ Hrecs). }
  assert (Hall : Forall2 (fun m r => module_record h' m r.1 r.2) ms recs).
  { clear -Hat Hrecs. revert recs Hrecs.
    induction Hat as [|m t ms mts Hm _ IH]; intros recs Hrecs.
    - inversion Hrecs; subst. constructor.
    - inversion Hrecs as [|? [name item] ? recs' Hr Hrest]; subst.
      constructor; [|now apply IH]. simpl. eapply module_at_record; eauto. }
  assert (Htype : get_prop (VRef lo) "Ship" h' = (Ok (VStr ty), h')).
  { assert (Hzip : zip ps0.*1 fs.*2 = fs) by (rewrite Hkeys; apply zip_fst_snd).
    rewrite <- Hzip in Hty.
    destruct (assoc_Forall2 _ _ _ _ _ Hvals Hty) as (vt & Hvt & Hrt).
    apply reify_str_inv in Hrt as ->.
    unfold get_prop. rewrite Hlo, assoc_set_assoc_ne by discriminate.
    now rewrite Hvt. }
  assert (Hso : get_prop (VRef (length h)) "_object" h' = (Ok (VRef lo), h')).
  { unfold get_prop. now rewrite Hship. }
  exists h', ms. split; [exact Hnew|]. split.
  - split; [unfold instance_of; now rewrite Hship|].
    exists lo, (set_assoc "Modules" (VRef la) ps0), la.
    split; [exact Hso|]. split; [exact Hlo|].
    split; [apply assoc_set_assoc_eq|].
    split; [rewrite fst_zip by lia; exact Hla|].
    clear -Hall. induction Hall as [|m r ms recs Hm _ IH]; simpl; now constructor.
  - clear Hat Hla Hlen Hrecs. induction Hall as [|m [name item] ms recs Hm _ IH];
      [constructor|].
    apply Forall_cons in Hcells as ((lm & om & -> & Hcell) & Hcells).
    constructor; [|now apply IH]. simpl.
    destruct (module_record_facts _ _ _ _ Hm) as (_ & _ & o & Hobj & Hslot & Hitem).
    assert (Hback : get_prop (VRef lm) "_ship" h' = (Ok (VRef (length h)), h')).
    { unfold get_prop. now rewrite Hcell. }
    split; [|split].
    + unfold Module_getSize. run Hback. simpl.
      assert (Hno : (o0 <- get_prop (VRef lm) "_object" ;;
                     cur <- get_prop o0 "Slot" ;;
                     ret (negb (truthy cur))) h' =
                    (Ok (String.eqb name ""), h')).
      { run Hobj. run Hslot. unfold ret. simpl. now rewrite Bool.negb_involutive. }
      run Hno. destruct (String.eqb name ""); [reflexivity|].
      run Hback. run Hso. run Htype. run Hobj. now run Hslot.
    + unfold Module_getClass. run Hobj. run Hitem. simpl.
      destruct (String.eqb item ""); simpl; [reflexivity|].
      run Hobj. now run Hitem.
    + unfold Module_getRating. run Hobj. run Hitem. simpl.
      destruct (String.eqb item ""); simpl; [reflexivity|].
      run Hobj. now run Hitem.
Qed.

End Exported.

(** ** Setting a module by its index *)

Lemma uniq_acc_In seen l x : In x (uniq_acc seen l) -> In x l.
Proof.
  revert seen. induction l as [|a l IH]; intros seen; simpl; [auto|].
  destruct (existsb (strict_eq a) seen); simpl; [eauto|].
  intros [-> | Hx]; eauto.
Qed.

Lemma select_In f (l : list (val * (string * string))) m :
  In m (select f l) -> exists r, In (m, r) l.
Proof.
  unfold select. rewrite in_map_iff. intros ([m' r] & <- & Hin).
  apply List.filter_In in Hin as (Hin & _). now exists r.
Qed.

Section ByIndex.
Context `{Imports}.

(** With a slot name read off a record, [setModule] is the call with that
    name as the descriptor. *)
Lemma Ship_setModule_val_str fuel this x module (h : heap) :
  Ship_setModule_val fuel this (VStr x) module h =
  Ship_setModule fuel this (SStr x) module h.
Proof. reflexivity. Qed.

(** The steps of a setter after the modules [zs] are listed. *)
Lemma set_by_index fuel (h' : heap) this l la zs i module :
  ship_modules h' this l ->
  h' !! la = Some (Arr zs) ->
  (forall m, In m zs -> exists r, In (m, r) l) ->
  at_index fuel this l zs i module h'
    ((m <- get_computed (VRef la) (VNum i) ;;
      o <- get_prop m "_object" ;;
      s <- get_prop o "Slot" ;;
      Ship_setModule_val fuel this s module) h').
Proof.
  intros Hship Hla Hzs. unfold at_index.
  assert (Hat : get_computed (VRef la) (VNum i) h' =
                (Ok (if (i <? 0)%Z then VUndef
                     else default VUndef (zs !! Z.to_nat i)), h')).
  { unfold get_computed. now rewrite Hla. }
  run Hat. destruct (i <? 0)%Z; [reflexivity|].
  destruct (zs !! Z.to_nat i) as [m|] eqn:Hm; [|reflexivity]. simpl.
  destruct (Hzs m) as ([name item] & Hin).
  { apply list_elem_of_In. eapply list_elem_of_lookup_2; eauto. }
  exists name, item. split; [exact Hin|].
  destruct Hship as (_ & _ & _ & _ & _ & _ & _ & _ & Hall).
  rewrite Forall_forall in Hall.
  pose proof (Hall _ (proj2 (list_elem_of_In _ _) Hin)) as Hrec. simpl in Hrec.
  destruct (module_record_facts _ _ _ _ Hrec) as (_ & _ & o & Hobj & Hslot & _).
  run Hobj. run Hslot. apply Ship_setModule_val_str.
Qed.

(** X25.  A setter called with a number.  [setInternal(i, module)] lists the
    internal modules as [getInternals(undefined, true)] does and is then
    [setModule] with the slot name of the [i]-th of them; when there is no
    [i]-th module it raises a TypeError.  [setHardpoint] and [setUtility] do
    the same with the hardpoint and the utility modules. *)
Theorem Ship_set_by_index (fuel : nat) (h : heap) (this : val)
    (l : list (val * (string * string))) (i : Z) (module : val) :
  ship_modules h this l ->
  let listed := fun r => uniq (select (wanted (SRegExp r) None true) l) in
  let xs := listed REG_INTERNAL_SLOT in
  let ys := listed REG_MILITARY_SLOT in
  at_index fuel this l (xs ++ ys) i module
    (h ++ [Arr xs; Arr ys; Arr (xs ++ ys)])
    (Ship_setInternal fuel this (inl i) module h) /\
  at_index fuel this l (listed REG_HARDPOINT_SLOT) i module
    (h ++ [Arr (listed REG_HARDPOINT_SLOT)])
    (Ship_setHardpoint fuel this (inl i) module h) /\
  at_index fuel this l (listed REG_UTILITY_SLOT) i module
    (h ++ [Arr (listed REG_UTILITY_SLOT)])
    (Ship_setUtility fuel this (inl i) module h).
Proof.
  intros Hship listed xs ys.
  assert (Hlisted : forall r m, In m (listed r) -> exists e, In (m, e) l).
  { intros r m Hm. apply uniq_acc_In in Hm. eapply select_In; eauto. }
  assert (Hone : forall r,
            Ship_getModules this (SRegExp r) None true true h =
              (Ok (VRef (length h)), h ++ [Arr (listed r)]))
    by (intros r; now apply Ship_getModules_select).
  split; [|split].
  - assert (Hint : Ship_getInternals this None true h =
                   (Ok (VRef (S (S (length h)))), h ++ [Arr xs; Arr ys; Arr (xs ++ ys)])).
    { unfold Ship_getInternals. run (Hone REG_INTERNAL_SLOT). fold xs.
      rewrite (bind_ok _ _ _ _ _
                 (Ship_getModules_select _ this l _ None true true
                    (ship_modules_ext h [Arr xs] this l Hship))).
      fold (listed REG_MILITARY_SLOT). fold ys.
      assert (Ex : array_elems (VRef (length h)) ((h ++ [Arr xs]) ++ [Arr ys]) =
                   (Ok xs, (h ++ [Arr xs]) ++ [Arr ys])).
      { unfold array_elems. now rewrite lookup_middle. }
      assert (Ey : array_elems (VRef (length (h ++ [Arr xs])))
                     ((h ++ [Arr xs]) ++ [Arr ys]) =
                   (Ok ys, (h ++ [Arr xs]) ++ [Arr ys])).
      { unfold array_elems. now rewrite lookup_fresh. }
      run Ex. run Ey. unfold alloc. f_equal.
      - rewrite !length_app. simpl. do 2 f_equal. lia.
      - now rewrite <- !app_assoc. }
    unfold Ship_setInternal. run Hint.
    apply set_by_index.
    + now apply ship_modules_ext.
    + change (h ++ [Arr xs; Arr ys; Arr (xs ++ ys)])
        with (h ++ [Arr xs; Arr ys] ++ [Arr (xs ++ ys)]).
      rewrite app_assoc.
      replace (S (S (length h))) with (length (h ++ [Arr xs; Arr ys]))
        by (rewrite length_app; simpl; lia).
      apply lookup_fresh.
    + intros m Hm. apply in_app_or in Hm as [Hm | Hm]; eapply Hlisted; eauto.
  - unfold Ship_setHardpoint, Ship_getHardpoints. run (Hone REG_HARDPOINT_SLOT).
    apply set_by_index; [now apply ship_modules_ext | apply lookup_fresh |].
    apply Hlisted.
  - unfold Ship_setUtility, Ship_getUtilities. run (Hone REG_UTILITY_SLOT).
    apply set_by_index; [now apply ship_modules_ext | apply lookup_fresh |].
    apply Hlisted.
Qed.

End ByIndex.

(** ** Witnesses of the further properties *)

Ltac sample_ship_modules :=
  split; [reflexivity|]; eexists _, _, _;
  split; [reflexivity|]; split; [reflexivity|]; split; [reflexivity|];
  split; [reflexivity|];
  repeat (apply List.Forall_cons;
          [split; [reflexivity|]; eexists _, _; repeat split; reflexivity|]);
  apply List.Forall_nil.

Ltac distinct_values :=
  repeat (apply NoDup_cons_2;
          [rewrite ?elem_of_cons, elem_of_nil; intuition discriminate|]);
  apply NoDup_nil_2.

Lemma Module_write_then_read_witness :
  (exists h',
     @Module_write sample_imports (VRef 2) "On" (VBool false)
       (sample_heap "Slot01_Size5" "Int_CargoRack_Size3_Class1" (VRef 0)) = (Ok tt, h') /\
     Module_read (VRef 2) "On" h' = (Ok (VBool false), h')) /\
  @Module_write sample_imports (VRef 2) "__proto__" (VNum 5)
    (sample_heap "Slot01_Size5" "Int_CargoRack_Size3_Class1" (VRef 0)) =
    (Ok tt, sample_heap "Slot01_Size5" "Int_CargoRack_Size3_Class1" (VRef 0)).
Proof.
  split.
  - destruct (@Module_write_then_read sample_imports (VRef 2) 3 Plain
                [("Slot", VStr "Slot01_Size5"); ("On", VBool true);
                 ("Item", VStr "Int_CargoRack_Size3_Class1"); ("Priority", VNum 1)]
                "On" (VBool false)
                (sample_heap "Slot01_Size5" "Int_CargoRack_Size3_Class1" (VRef 0)))
      as (_ & Hwrite & _).
    + reflexivity.
    + reflexivity.
    + discriminate.
    + destruct Hwrite as (h' & Hw & Hr & _).
      * reflexivity.
      * left. discriminate.
      * exists h'. auto.
  - destruct (@Module_write_then_read sample_imports (VRef 2) 3 Plain
                [("Slot", VStr "Slot01_Size5"); ("On", VBool true);
                 ("Item", VStr "Int_CargoRack_Size3_Class1"); ("Priority", VNum 1)]
                "__proto__" (VNum 5)
                (sample_heap "Slot01_Size5" "Int_CargoRack_Size3_Class1" (VRef 0)))
      as (_ & _ & Hignored).
    + reflexivity.
    + reflexivity.
    + discriminate.
    + apply Hignored; try reflexivity; discriminate.
Defined.

Lemma Ship_write_then_read_witness :
  (exists h',
     @Ship_write sample_imports (VRef 0) "ShipName" (VStr "Normandy")
       (sample_heap "" "" VNull) = (Ok tt, h') /\
     Ship_read (VRef 0) "ShipName" h' = (Ok (VStr "Normandy"), h')) /\
  @Ship_write sample_imports (VRef 0) "__proto__" (VStr "x")
    (sample_heap "" "" VNull) = (Ok tt, sample_heap "" "" VNull).
Proof.
  split.
  - destruct (@Ship_write_then_read sample_imports (VRef 0) 1 Plain
                [("Ship", VStr "anaconda"); ("Modules", VNull)]
                "ShipName" (VStr "Normandy") (sample_heap "" "" VNull))
      as (_ & Hwrite & _).
    + reflexivity.
    + reflexivity.
    + discriminate.
    + destruct Hwrite as (h' & Hw & Hr & _).
      * reflexivity.
      * left. discriminate.
      * exists h'. auto.
  - destruct (@Ship_write_then_read sample_imports (VRef 0) 1 Plain
                [("Ship", VStr "anaconda"); ("Modules", VNull)]
                "__proto__" (VStr "x") (sample_heap "" "" VNull))
      as (_ & _ & Hignored).
    + reflexivity.
    + reflexivity.
    + discriminate.
    + apply Hignored; try reflexivity; discriminate.
Defined.

Lemma Module_fitsSlotOn_setSlot_witness :
  exists h',
    @Module_fitsSlotOn sample_imports (VRef 2) (VStr "MainEngines") (VRef 0)
      (sample_heap "" "Int_Engine_Size5_Class2" (VRef 0)) =
      (Ok (VBool true), sample_heap "" "Int_Engine_Size5_Class2" (VRef 0)) /\
    @Module_setSlot sample_imports (VRef 2) "MainEngines"
      (sample_heap "" "Int_Engine_Size5_Class2" (VRef 0)) = (Ok tt, h') /\
    get_prop (VRef 3) "Slot" h' = (Ok (VStr "MainEngines"), h').
Proof.
  destruct (@Module_fitsSlotOn_setSlot sample_imports
              (sample_heap "" "Int_Engine_Size5_Class2" (VRef 0))
              (VRef 2) (VRef 0) (VRef 3) (VRef 1) "anaconda"
              "Int_Engine_Size5_Class2" "MainEngines"
              eq_refl eq_refl eq_refl eq_refl eq_refl eq_refl eq_refl)
    as (r & -> & Hfits & _ & h' & Hset & Hslot).
  exists h'. auto.
Defined.

Lemma Module_setShip_once_witness :
  exists h',
    Module_setShip (VRef 2) (VRef 0) (sample_heap "" "" VNull) = (Ok tt, h') /\
    Module_setShip (VRef 2) (VRef 0) h' = (Throw IllegalStateError, h').
Proof.
  destruct (@Module_setShip_once sample_imports (VRef 2) (VRef 0)
              (sample_heap "" "" VNull) eq_refl)
    as (h' & Hset & _ & Hagain & _).
  exists h'. split; [exact Hset|]. apply Hagain. discriminate.
Defined.

Lemma Module_isAssigned_isOnSlot_witness :
  Module_isAssigned (VRef 0) slotless_heap = (Ok true, slotless_heap) /\
  Module_isOnSlot (VRef 0) (SStr "Slot01_Size5") slotless_heap =
    (Ok VNull, slotless_heap).
Proof.
  destruct (Module_isAssigned_isOnSlot (VRef 0) (VRef 1) VUndef
              (SStr "Slot01_Size5") slotless_heap eq_refl eq_refl)
    as (_ & Hmissing).
  apply Hmissing; [reflexivity | discriminate].
Defined.

Lemma Module_set_keeps_labels_distinct_witness :
  exists vs',
    (Module_set (VRef 3) "Integrity" (VNum 2) modified_heap).2 !! 4 =
      Some (Arr vs') /\
    NoDup (labels (Module_set (VRef 3) "Integrity" (VNum 2) modified_heap).2 vs').
Proof.
  apply (Module_set_keeps_labels_distinct (VRef 3) (VRef 6) (VRef 5) 4 [VRef 7]
           "Integrity" (VNum 2) modified_heap);
    try reflexivity.
  apply NoDup_singleton.
Defined.

Lemma Module_toJSON_deep_copy_witness :
  exists v' ext,
    Module_toJSON 5 (VRef 2)
      (sample_heap "Slot01_Size5" "Int_CargoRack_Size3_Class1" (VRef 0)) =
      (Ok v', sample_heap "Slot01_Size5" "Int_CargoRack_Size3_Class1" (VRef 0) ++ ext) /\
    forall l,
      reach (sample_heap "Slot01_Size5" "Int_CargoRack_Size3_Class1" (VRef 0) ++ ext)
        v' l -> 4 <= l.
Proof.
  destruct (Module_toJSON_deep_copy 5
              (sample_heap "Slot01_Size5" "Int_CargoRack_Size3_Class1" (VRef 0))
              (VRef 2) (VRef 3)
              (sample_record "Slot01_Size5" "Int_CargoRack_Size3_Class1")
              eq_refl eq_refl)
    as (v' & ext & Hjson & _ & Hfresh & _).
  exists v', ext. auto.
Defined.

Lemma Module_new_copies_input_witness :
  exists ext,
    @Module_new sample_imports 5 (VRef 3) VNull
      (sample_heap "Slot01_Size5" "Int_CargoRack_Size3_Class1" (VRef 0)) =
    (Ok (VRef 4),
     sample_heap "Slot01_Size5" "Int_CargoRack_Size3_Class1" (VRef 0) ++ ext).
Proof.
  destruct (@Module_new_copies_input sample_imports 5
              (sample_heap "Slot01_Size5" "Int_CargoRack_Size3_Class1" (VRef 0))
              (VRef 3) (sample_record "Slot01_Size5" "Int_CargoRack_Size3_Class1")
              VNull eq_refl eq_refl eq_refl)
    as (ext & Hnew & _).
  exists ext. exact Hnew.
Defined.

Lemma Module_update_rejected_witness :
  exists ext,
    @Module_update strict_imports 5 (VRef 2) (VRef 3) None
      (sample_heap "Slot01_Size5" "Int_CargoRack_Size3_Class1" (VRef 0)) =
    (Throw ImportExportError,
     sample_heap "Slot01_Size5" "Int_CargoRack_Size3_Class1" (VRef 0) ++ ext).
Proof.
  destruct (@Module_update_rejected strict_imports 5
              (sample_heap "Slot01_Size5" "Int_CargoRack_Size3_Class1" (VRef 0))
              (VRef 2) (VRef 3) 3
              (sample_record "Slot01_Size5" "Int_CargoRack_Size3_Class1")
              None eq_refl eq_refl eq_refl eq_refl)
    as (ext & Hup & _).
  exists ext. exact Hup.
Defined.

Lemma Module_update_keeps_slot_witness :
  exists h' o',
    @Module_update sample_imports 5 (VRef 28) (VRef 32) (Some ["Slot"]) ship_heap =
      (Ok tt, h') /\
    get_prop (VRef 28) "_object" h' = (Ok o', h') /\
    get_prop o' "Slot" h' = (Ok (VStr "Slot02_Size3"), h').
Proof.
  destruct (@Module_update_keeps_slot sample_imports 5 ship_heap (VRef 28) 31 Plain
              [("Slot", VStr "Slot02_Size3"); ("On", VBool true);
               ("Item", VStr "Int_CargoRack_Size3_Class1"); ("Priority", VNum 1);
               ("Engineering", VRef 30)]
              "Slot02_Size3" (VRef 32) Plain
              [("Slot", TStr "Slot01_Size5"); ("On", TBool true);
               ("Item", TStr "Int_ShieldGenerator_Size5_Class2");
               ("Priority", TNum 1); ("Engineering", sample_blueprint)])
    as (h' & o' & Hup & Hobj & Hslot & _).
  - reflexivity.
  - discriminate.
  - reflexivity.
  - reflexivity.
  - left. split; [reflexivity|]. exists (VRef 35). split; reflexivity.
  - exists h', o'. auto.
Defined.

Lemma Ship_getModule_first_match_witness :
  Ship_getModule (VRef 11) (SRegExp (is_prefix "Military")) ship_heap =
    (Ok (VRef 36), ship_heap).
Proof.
  apply (Ship_getModule_first_match ship_heap (VRef 11) ship_list
           (SRegExp (is_prefix "Military"))).
  sample_ship_modules.
Defined.

Lemma Ship_getModules_spec_witness :
  Ship_getModules (VRef 11) (SRegExp (is_prefix "Slot"))
    (Some (is_prefix "Int_Shield")) false true ship_heap =
    (Ok (VRef 41), ship_heap ++ [Arr [VRef 32]]) /\
  @Ship_getHardpoints sample_imports (VRef 11) (Some (is_prefix "Int_Shield")) false
    ship_heap = (Ok (VRef 41), ship_heap ++ [Arr []]).
Proof.
  destruct (@Ship_getModules_spec sample_imports ship_heap (VRef 11) ship_list
              (SRegExp (is_prefix "Slot")) (Some (is_prefix "Int_Shield")) false true)
    as (Hmodules & Hhardpoints & _).
  - sample_ship_modules.
  - split; assumption.
Defined.

Lemma Ship_getInternals_internal_then_military_witness :
  @Ship_getInternals sample_imports (VRef 11) None true ship_heap =
    (Ok (VRef 43),
     ship_heap ++ [Arr [VRef 28; VRef 32]; Arr [VRef 36];
                   Arr [VRef 28; VRef 32; VRef 36]]).
Proof.
  apply (@Ship_getInternals_internal_then_military sample_imports ship_heap
           (VRef 11) ship_list None true).
  sample_ship_modules.
Defined.

Lemma Ship_getCoreModules_spec_witness :
  Ship_getCoreModules (VRef 11) ship_heap =
    (Ok (VRef 41),
     ship_heap ++ [Arr [VUndef; VUndef; VUndef; VUndef; VUndef; VUndef; VUndef;
                        VUndef]]).
Proof.
  apply (Ship_getCoreModules_spec ship_heap (VRef 11) ship_list).
  sample_ship_modules.
Defined.

Lemma Ship_setModule_no_match_witness :
  @Ship_setModule sample_imports 5 (VRef 11) (SStr "Armour") (VRef 32) ship_heap =
    (Ok (VBool false), ship_heap).
Proof.
  apply (@Ship_setModule_no_match sample_imports 5 ship_heap (VRef 11) ship_list
           (SStr "Armour") (VRef 32)).
  - sample_ship_modules.
  - reflexivity.
Defined.

Lemma Ship_setModule_replaces_witness :
  exists h',
    @Ship_setModule sample_imports 5 (VRef 11) (SRegExp (is_prefix "Slot")) (VRef 36)
      ship_heap = (Ok (VBool true), h') /\
    ship_modules h' (VRef 11)
      [(VRef 28, ("Slot02_Size3", "Int_HullReinforcement_Size4_Class2"));
       (VRef 32, ("Slot01_Size5", "Int_ShieldGenerator_Size5_Class2"));
       (VRef 36, ("Military01", "Int_HullReinforcement_Size4_Class2"))].
Proof.
  apply (@Ship_setModule_replaces sample_imports 5 ship_heap (VRef 11) ship_list
           (SRegExp (is_prefix "Slot")) (VRef 36)
           [("Slot", TStr "Military01"); ("On", TBool true);
            ("Item", TStr "Int_HullReinforcement_Size4_Class2");
            ("Priority", TNum 1); ("Engineering", sample_blueprint)]
           "Int_HullReinforcement_Size4_Class2").
  - sample_ship_modules.
  - distinct_values.
  - discriminate.
  - left. split; [reflexivity|]. exists (VRef 39). split; reflexivity.
  - reflexivity.
Defined.

Ltac sample_raw_modules :=
  repeat (apply List.Forall_cons; [split; reflexivity|]); apply List.Forall_nil.

Lemma Ship_new_back_references_witness :
  exists ship h' ms,
    @Ship_new sample_imports 5 (VRef 10) caller_heap = (Ok ship, h') /\
    length ms = 3 /\
    Forall (fun m => get_prop m "_ship" h' = (Ok ship, h')) ms.
Proof.
  destruct (@Ship_new_back_references sample_imports 5 caller_heap (VRef 10)
              [("Ship", TStr "anaconda"); ("ShipName", TStr "Normandy");
               ("ShipIdent", TStr "SR-2");
               ("Modules",
                TArr [sample_module "Slot02_Size3" "Int_CargoRack_Size3_Class1";
                      sample_module "Slot01_Size5" "Int_ShieldGenerator_Size5_Class2";
                      sample_module "Military01" "Int_HullReinforcement_Size4_Class2"])]
              [sample_module "Slot02_Size3" "Int_CargoRack_Size3_Class1";
               sample_module "Slot01_Size5" "Int_ShieldGenerator_Size5_Class2";
               sample_module "Military01" "Int_HullReinforcement_Size4_Class2"])
    as (ship & h' & o & la & ms & Hnew & _ & _ & _ & _ & Hlen & _ & Hback).
  - reflexivity.
  - reflexivity.
  - reflexivity.
  - sample_raw_modules.
  - exists ship, h', ms. split; [exact Hnew|]. split; [exact Hlen|].
    eapply Forall_impl; [exact Hback|]. now intros m [_ Hm].
Defined.

Lemma Ship_new_modules_witness :
  exists h' ms,
    @Ship_new sample_imports 5 (VRef 10) caller_heap = (Ok (VRef 11), h') /\
    ship_modules h' (VRef 11)
      (zip ms [("Slot02_Size3", "Int_CargoRack_Size3_Class1");
               ("Slot01_Size5", "Int_ShieldGenerator_Size5_Class2");
               ("Military01", "Int_HullReinforcement_Size4_Class2")]).
Proof.
  destruct (@Ship_new_modules sample_imports 5 caller_heap (VRef 10)
              [("Ship", TStr "anaconda"); ("ShipName", TStr "Normandy");
               ("ShipIdent", TStr "SR-2");
               ("Modules",
                TArr [sample_module "Slot02_Size3" "Int_CargoRack_Size3_Class1";
                      sample_module "Slot01_Size5" "Int_ShieldGenerator_Size5_Class2";
                      sample_module "Military01" "Int_HullReinforcement_Size4_Class2"])]
              [sample_module "Slot02_Size3" "Int_CargoRack_Size3_Class1";
               sample_module "Slot01_Size5" "Int_ShieldGenerator_Size5_Class2";
               sample_module "Military01" "Int_HullReinforcement_Size4_Class2"]
              [("Slot02_Size3", "Int_CargoRack_Size3_Class1");
               ("Slot01_Size5", "Int_ShieldGenerator_Size5_Class2");
               ("Military01", "Int_HullReinforcement_Size4_Class2")])
    as (h' & ms & Hnew & _ & _ & Hship).
  - reflexivity.
  - reflexivity.
  - reflexivity.
  - repeat (apply List.Forall_cons; [reflexivity|]). apply List.Forall_nil.
  - repeat (constructor; [reflexivity|]). constructor.
  - exists h', ms. auto.
Defined.

Lemma Ship_new_rejected_witness :
  (@Ship_new strict_imports 5 (VRef 10) caller_heap).1 = Throw ImportExportError.
Proof.
  apply (@Ship_new_rejected strict_imports 5 caller_heap (VRef 10)
           [("Ship", TStr "anaconda"); ("ShipName", TStr "Normandy");
            ("ShipIdent", TStr "SR-2");
            ("Modules",
             TArr [sample_module "Slot02_Size3" "Int_CargoRack_Size3_Class1";
                   sample_module "Slot01_Size5" "Int_ShieldGenerator_Size5_Class2";
                   sample_module "Military01" "Int_HullReinforcement_Size4_Class2"])]
           [sample_module "Slot02_Size3" "Int_CargoRack_Size3_Class1";
            sample_module "Slot01_Size5" "Int_ShieldGenerator_Size5_Class2";
            sample_module "Military01" "Int_HullReinforcement_Size4_Class2"]).
  - reflexivity.
  - reflexivity.
  - repeat (apply List.Forall_cons; [reflexivity|]). apply List.Forall_nil.
  - right. apply List.Exists_cons_hd. reflexivity.
Defined.

Lemma Ship_from_string_round_trip_witness :
  exists n, forall fuel, n <= fuel ->
    exists ship h1 r h2,
      @Ship_new codec_imports fuel (VStr "encoded") [] = (Ok ship, h1) /\
      Ship_toJSON fuel ship h1 = (Ok r, h2) /\
      reify fuel h2 r = Ok sample_ship.
Proof.
  apply (@Ship_from_string_round_trip codec_imports "encoded" []).
  - reflexivity.
  - eexists _, _. split; [reflexivity|]. split; [reflexivity|].
    sample_raw_modules.
Defined.

Lemma Ship_compress_round_trip_witness :
  exists ship h1 h2,
    @Ship_new codec_imports 5 (VRef 10) caller_heap = (Ok ship, h1) /\
    @Ship_compress sample_lookups 5 ship h1 =
      (Ok (VStr "Ship,ShipName,ShipIdent,Modules"), h2) /\
    exists n, forall fuel, n <= fuel ->
      exists ship' h3 r h4,
        @Ship_new codec_imports fuel (VStr "Ship,ShipName,ShipIdent,Modules") h2 =
          (Ok ship', h3) /\
        Ship_toJSON fuel ship' h3 = (Ok r, h4) /\
        reify fuel h4 r = Ok sample_ship.
Proof.
  destruct (@Ship_compress_round_trip codec_imports sample_lookups 5 caller_heap
              (VRef 10) sample_ship)
    as (ship & h1 & h2 & Hnew & Hcompress & Hback).
  - reflexivity.
  - reflexivity.
  - eexists _, _. split; [reflexivity|]. split; [reflexivity|].
    sample_raw_modules.
  - exists ship, h1, h2. split; [exact Hnew|]. split; [exact Hcompress|].
    exact (Hback eq_refl).
Defined.

Lemma Module_compress_round_trip_witness :
  exists m h1,
    @Module_new sample_imports 5 (VRef 3) VNull
      (sample_heap "Slot01_Size5" "Int_CargoRack_Size3_Class1" (VRef 0)) = (Ok m, h1) /\
    @Module_compress sample_lookups 5 m h1 = (Ok (VStr "Slot,On,Item,Priority"), h1).
Proof.
  apply (@Module_compress_round_trip sample_imports sample_lookups 5
           (sample_heap "Slot01_Size5" "Int_CargoRack_Size3_Class1" (VRef 0))
           (VRef 3) (sample_record "Slot01_Size5" "Int_CargoRack_Size3_Class1")
           VNull eq_refl eq_refl eq_refl).
Defined.

Lemma Ship_new_module_lookups_witness :
  exists h' ms,
    @Ship_new sample_imports 5 (VRef 10) caller_heap = (Ok (VRef 11), h') /\
    Forall2 (fun m r =>
               @Module_getSize sample_lookups m h' = (Ok (VNum 3), h') /\
               @Module_getClass sample_lookups m h' = (Ok (VNum 5), h'))
      ms [("Slot02_Size3", "Int_CargoRack_Size3_Class1");
          ("Slot01_Size5", "Int_ShieldGenerator_Size5_Class2");
          ("Military01", "Int_HullReinforcement_Size4_Class2")].
Proof.
  destruct (@Ship_new_module_lookups sample_imports sample_lookups 5 caller_heap
              (VRef 10)
              [("Ship", TStr "anaconda"); ("ShipName", TStr "Normandy");
               ("ShipIdent", TStr "SR-2");
               ("Modules",
                TArr [sample_module "Slot02_Size3" "Int_CargoRack_Size3_Class1";
                      sample_module "Slot01_Size5" "Int_ShieldGenerator_Size5_Class2";
                      sample_module "Military01" "Int_HullReinforcement_Size4_Class2"])]
              [sample_module "Slot02_Size3" "Int_CargoRack_Size3_Class1";
               sample_module "Slot01_Size5" "Int_ShieldGenerator_Size5_Class2";
               sample_module "Military01" "Int_HullReinforcement_Size4_Class2"]
              [("Slot02_Size3", "Int_CargoRack_Size3_Class1");
               ("Slot01_Size5", "Int_ShieldGenerator_Size5_Class2");
               ("Military01", "Int_HullReinforcement_Size4_Class2")]
              "anaconda")
    as (h' & ms & Hnew & _ & Hall).
  - reflexivity.
  - reflexivity.
  - reflexivity.
  - reflexivity.
  - repeat (apply List.Forall_cons; [reflexivity|]). apply List.Forall_nil.
  - repeat (constructor; [reflexivity|]). constructor.
  - exists h', ms. split; [exact Hnew|].
    inversion Hall as [|m1 r1 ms1 rs1 (H1 & H1' & _) Hall1]; subst.
    inversion Hall1 as [|m2 r2 ms2 rs2 (H2 & H2' & _) Hall2]; subst.
    inversion Hall2 as [|m3 r3 ms3 rs3 (H3 & H3' & _) Hall3]; subst.
    inversion Hall3; subst.
    repeat (constructor; [split; assumption|]). constructor.
Defined.

Lemma Ship_set_by_index_witness :
  @Ship_setInternal sample_imports 5 (VRef 11) (inl 2%Z) (VRef 28) ship_heap =
  @Ship_setModule sample_imports 5 (VRef 11) (SStr "Military01") (VRef 28)
    (ship_heap ++ [Arr [VRef 28; VRef 32]; Arr [VRef 36];
                   Arr [VRef 28; VRef 32; VRef 36]]) /\
  @Ship_setInternal sample_imports 5 (VRef 11) (inl 3%Z) (VRef 28) ship_heap =
    (Throw TypeError,
     ship_heap ++ [Arr [VRef 28; VRef 32]; Arr [VRef 36];
                   Arr [VRef 28; VRef 32; VRef 36]]).
Proof.
  split.
  - destruct (@Ship_set_by_index sample_imports 5 ship_heap (VRef 11) ship_list
                2%Z (VRef 28)) as ((name & item & Hin & Hset) & _).
    { sample_ship_modules. }
    destruct Hin as [Hin | [Hin | [Hin | []]]]; try discriminate.
    injection Hin as <- <-. exact Hset.
  - destruct (@Ship_set_by_index sample_imports 5 ship_heap (VRef 11) ship_list
                3%Z (VRef 28)) as (Hset & _).
    { sample_ship_modules. }
    exact Hset.
Defined.

Lemma Ship_name_and_id_witness :
  exists h1 h2,
    Ship_setShipName (VRef 0) (VStr "Normandy") (sample_heap "" "" VNull) = (Ok tt, h1) /\
    Ship_setShipID (VRef 0) (VStr "SR-2") h1 = (Ok tt, h2) /\
    Ship_getShipName (VRef 0) h2 = (Ok (VStr "Normandy"), h2) /\
    Ship_getShipID (VRef 0) h2 = (Ok (VStr "SR-2"), h2).
Proof.
  destruct (Ship_name_and_id (VRef 0) 1 (VStr "Normandy") (VStr "SR-2")
              (sample_heap "" "" VNull))
    as (h1 & h2 & Hname & Hid & Hgetname & Hgetid & _).
  - reflexivity.
  - eexists _, _. reflexivity.
  - discriminate.
  - exists h1, h2. auto.
Defined.

Lemma Module_found_raises_witness :
  @Module_get sample_imports (VRef 3) "Mass" (VBool true) modified_heap =
    (Throw TypeError, modified_heap) /\
  Module_set (VRef 3) "Mass" (VNum 6) modified_heap = (Throw TypeError, modified_heap).
Proof.
  destruct (@Module_found_raises sample_imports (VRef 3) "Mass" modified_heap
              (VRef 7) (VNum 6) eq_refl eq_refl)
    as (Hget & _ & Hset).
  split; assumption.
Defined.

Lemma Module_get_only_base_witness :
  exists o item,
    get_prop (VRef 3) "_object" engineered_heap = (Ok o, engineered_heap) /\
    get_prop o "Item" engineered_heap = (Ok item, engineered_heap) /\
    VNum 7 = @getModuleProperty sample_imports item (VStr "Mass").
Proof.
  destruct (@Module_get_only_base sample_imports (VRef 3) "Mass" (VBool false)
              engineered_heap (VNum 7) engineered_heap eq_refl)
    as (_ & Hbase).
  exact Hbase.
Defined.

